(** * Census quality scoring engine: a shallow embedding and its properties

    The development follows the analysis service of the repository (the
    part of [src/services/geminiService.ts] that the application imports
    as [services/analysisService]): the scoring engine [analyzeCensusData]
    with its helpers [parseMoney], [isValidDate] and [getDaysSince], the
    reader of the uploaded text [parseCSV], and the result types of
    [src/types.ts]; with them the two places that use the engine, the
    upload handler of the application, which parses a text and analyses
    its records, and the score gauge of the dashboard.

    Modelling conventions.
    - A JavaScript string is a [string] (its UTF-8 bytes).
    - A JavaScript number is a [number]: the exact rational value of a
      finite double, [NaN] or a signed infinity.  Every arithmetic
      operation computes the exact result and rounds it with
      [Binary64.rnd], round to nearest with ties to even on 53 significant
      bits; the two zeros are one value.  Counters and array lengths are
      [nat].  The score arithmetic, whose operands are counters and
      constants and never [NaN] or infinite for an array of records, is
      written on the rational values directly, each operation rounded.
    - The two host facilities the engine relies on are inputs of the
      model: [Date_parse], the host's [Date.parse] (the time value in
      milliseconds, [None] for an invalid date), and [clock], where
      [clock i] is the reading that [new Date()] gives while record [i]
      is processed. *)

From Stdlib Require Import ZArith QArith Qround Qminmax Qpower Qabs Lia Lqa.
From Stdlib Require Import Strings.String Strings.Ascii.
From Stdlib Require Import PrimFloat FloatOps SpecFloat.
From Equations Require Import Equations.
From stdpp Require Import gmap strings list fin_maps pretty.

Local Open Scope string_scope.

(** ** Rounding to binary64 *)

Module Binary64.

Definition pow2 (e : Z) : Q := (2 ^ e)%Q.

(** The integer nearest to [q], ties to the even one. *)
Definition rne (q : Q) : Z :=
  let f := Qfloor q in
  match (q - inject_Z f ?= 1 # 2)%Q with
  | Lt => f
  | Gt => (f + 1)%Z
  | Eq => if Z.even f then f else (f + 1)%Z
  end.

(** For [q > 0]: the exponent [e] with [2^e <= q < 2^(e+1)]. *)
Definition binade (q : Q) : Z :=
  let e := (Z.log2 (Qnum q) - Z.log2 (Zpos (Qden q)))%Z in
  if Qle_bool (pow2 e) q then e else (e - 1)%Z.

(** The exponent of the last place: 53 significant bits, and no finer
    than the subnormal step [2^-1074]. *)
Definition quantum (q : Q) : Z := Z.max (binade q - 52) (-1074).

Definition rndPos (q : Q) : Q :=
  (inject_Z (rne (q / pow2 (quantum q))) * pow2 (quantum q))%Q.

(** The double nearest to [q], before any overflow. *)
Definition rnd (q : Q) : Q :=
  Qred match (q ?= 0)%Q with
       | Eq => 0%Q
       | Gt => rndPos q
       | Lt => (- rndPos (- q))%Q
       end.

(** Values of this magnitude and above are beyond the finite doubles. *)
Definition overflows (q : Q) : bool := Qle_bool (pow2 1024) (Qabs q).

(** The value of a primitive float, for comparing [rnd] with the
    arithmetic of the machine. *)
Definition ofFloat (f : float) : option Q :=
  match Prim2SF f with
  | S754_zero _ => Some 0%Q
  | S754_finite s m e =>
      let v := (inject_Z (Zpos m) * pow2 e)%Q in
      Some (Qred (if s then (- v)%Q else v))
  | S754_infinity _ | S754_nan => None
  end.

End Binary64.

(** ** JavaScript numbers *)

Module JS.

Inductive number : Type :=
  | NaN
  | Inf (negative : bool)
  | Fin (q : Q).

Definition zero : number := Fin 0%Q.
Definition ofZ (z : Z) : number := Fin (inject_Z z).

Definition Qis_zero (q : Q) : bool := (Qnum q =? 0)%Z.
Definition Qis_neg (q : Q) : bool := (Qnum q <? 0)%Z.
Definition Qgtb (a b : Q) : bool := negb (Qle_bool a b).

(** The number that an exact finite result [q] becomes. *)
Definition fin (q : Q) : number :=
  let r := Binary64.rnd q in
  if Binary64.overflows r then Inf (Qis_neg r) else Fin r.

(** [a > b]; false as soon as one side is [NaN]. *)
Definition gt (a b : number) : bool :=
  match a, b with
  | NaN, _ | _, NaN => false
  | Inf true, _ => false
  | Inf false, Inf false => false
  | Inf false, _ => true
  | Fin _, Inf neg => neg
  | Fin x, Fin y => Qgtb x y
  end.

(** [a <= b]; false as soon as one side is [NaN]. *)
Definition le (a b : number) : bool :=
  match a, b with
  | NaN, _ | _, NaN => false
  | _, _ => negb (gt a b)
  end.

(** [a * b]: an infinity times zero is [NaN]. *)
Definition mul (a b : number) : number :=
  match a, b with
  | NaN, _ | _, NaN => NaN
  | Inf s, Inf t => Inf (xorb s t)
  | Inf s, Fin y | Fin y, Inf s =>
      if Qis_zero y then NaN else Inf (xorb s (Qis_neg y))
  | Fin x, Fin y => fin (x * y)
  end.

(** [a + b]: opposite infinities add up to [NaN]. *)
Definition add (a b : number) : number :=
  match a, b with
  | NaN, _ | _, NaN => NaN
  | Inf s, Inf t => if Bool.eqb s t then Inf s else NaN
  | Inf s, Fin _ | Fin _, Inf s => Inf s
  | Fin x, Fin y => fin (x + y)
  end.

(** ToBoolean on a number: [NaN] and the zeros are falsy. *)
Definition truthy (a : number) : bool :=
  match a with
  | NaN => false
  | Inf _ => true
  | Fin q => negb (Qis_zero q)
  end.

(** [a || 0] *)
Definition orZero (a : number) : number := if truthy a then a else zero.

(** [Math.round]: the integer nearest to [q], ties towards +infinity. *)
Definition round (q : Q) : Z := Qfloor (q + (1 # 2))%Q.

(** [Math.ceil] *)
Definition ceil (q : Q) : Z := Qceiling q.

(** [Math.min(100, Math.max(0, q))] on finite values. *)
Definition clamp (q : Q) : Q := Qmin 100%Q (Qmax 0%Q q).

(** Arithmetic on finite values that stay far from overflow: the exact
    result, rounded.  [lit q] is the double that the decimal literal [q]
    of the source denotes. *)
Definition fadd (a b : Q) : Q := Binary64.rnd (a + b).
Definition fsub (a b : Q) : Q := Binary64.rnd (a - b).
Definition fmul (a b : Q) : Q := Binary64.rnd (a * b).
Definition fdiv (a b : Q) : Q := Binary64.rnd (a / b).
Definition lit (q : Q) : Q := Binary64.rnd q.

(** *** [parseFloat] *)

Definition isDigit (c : ascii) : bool :=
  let n := nat_of_ascii c in (48 <=? n)%nat && (n <=? 57)%nat.

Definition digitVal (c : ascii) : Z := Z.of_nat (nat_of_ascii c) - 48.

(** The longest prefix of decimal digits, and what follows it. *)
Fixpoint spanDigits (s : string) : string * string :=
  match s with
  | String c s' =>
      if isDigit c then let '(d, r) := spanDigits s' in (String c d, r)
      else (EmptyString, s)
  | EmptyString => (EmptyString, EmptyString)
  end.

Fixpoint digitsValueFrom (acc : Z) (s : string) : Z :=
  match s with
  | String c s' => digitsValueFrom (10 * acc + digitVal c) s'
  | EmptyString => acc
  end.

Definition digitsValue (s : string) : Z := digitsValueFrom 0 s.

Definition pow10 (e : Z) : Q :=
  if (0 <=? e)%Z then inject_Z (10 ^ e) else (1 # Z.to_pos (10 ^ (- e)))%Q.

Definition bytes (l : list nat) : string :=
  fold_right (fun n s => String (ascii_of_nat n) s) EmptyString l.

(** StrWhiteSpaceChar: the white space and line terminator code points,
    as UTF-8 byte sequences. *)
Definition whiteSpace : list string :=
  map bytes
    [ [9]; [10]; [11]; [12]; [13]; [32]; [194; 160]; [225; 154; 128];
      [226; 128; 128]; [226; 128; 129]; [226; 128; 130]; [226; 128; 131];
      [226; 128; 132]; [226; 128; 133]; [226; 128; 134]; [226; 128; 135];
      [226; 128; 136]; [226; 128; 137]; [226; 128; 138]; [226; 128; 168];
      [226; 128; 169]; [226; 128; 175]; [226; 129; 159]; [227; 128; 128];
      [239; 187; 191] ]%nat.

Fixpoint dropPrefix (p s : string) : option string :=
  match p, s with
  | EmptyString, _ => Some s
  | String a p', String b s' =>
      if Ascii.eqb a b then dropPrefix p' s' else None
  | String _ _, EmptyString => None
  end.

Fixpoint dropAnyPrefix (ps : list string) (s : string) : option string :=
  match ps with
  | [] => None
  | p :: ps' =>
      match dropPrefix p s with
      | Some r => Some r
      | None => dropAnyPrefix ps' s
      end
  end.

(** Leading white space is skipped; [fuel] bounds the number of skipped
    characters and is taken as the length of the string. *)
Fixpoint trimStartFuel (fuel : nat) (s : string) : string :=
  match fuel with
  | O => s
  | S fuel' =>
      match dropAnyPrefix whiteSpace s with
      | Some r => trimStartFuel fuel' r
      | None => s
      end
  end.

Definition trimStart (s : string) : string :=
  trimStartFuel (String.length s) s.

(** An optional sign: [true] for a leading minus. *)
Definition spanSign (s : string) : bool * string :=
  match s with
  | String "-" r => (true, r)
  | String "+" r => (false, r)
  | _ => (false, s)
  end.

(** ExponentPart: [e] or [E], an optional sign and at least one digit;
    the text is left as it is when that does not match. *)
Definition spanExponent (s : string) : Z * string :=
  match s with
  | String c r =>
      if Ascii.eqb c "e" || Ascii.eqb c "E" then
        let '(neg, r1) := spanSign r in
        let '(d, r2) := spanDigits r1 in
        match d with
        | EmptyString => (0%Z, s)
        | _ => ((if neg then - digitsValue d else digitsValue d)%Z, r2)
        end
      else (0%Z, s)
  | EmptyString => (0%Z, s)
  end.

(** The value of the longest prefix of the trimmed text that is a
    StrDecimalLiteral, rounded; [NaN] when there is none. *)
Definition parseFloat (s : string) : number :=
  let '(neg, s1) := spanSign (trimStart s) in
  match dropPrefix "Infinity" s1 with
  | Some _ => Inf neg
  | None =>
      let '(ip, r1) := spanDigits s1 in
      let '(fp, r2) :=
        match r1 with
        | String "." r => let '(fp, r') := spanDigits r in (fp, r')
        | _ => (EmptyString, r1)
        end in
      match ip, fp with
      | EmptyString, EmptyString => NaN
      | _, _ =>
          let '(e, _) := spanExponent r2 in
          let m := digitsValue (ip ++ fp) in
          let v := (inject_Z m * pow10 (e - Z.of_nat (String.length fp)))%Q in
          fin (if neg then - v else v)
      end
  end.

End JS.

Declare Scope js_scope.
Delimit Scope js_scope with js.
Infix "+!" := JS.fadd (at level 50, left associativity) : js_scope.
Infix "-!" := JS.fsub (at level 50, left associativity) : js_scope.
Infix "*!" := JS.fmul (at level 40, left associativity) : js_scope.
Infix "/!" := JS.fdiv (at level 40, left associativity) : js_scope.

(** ** The data model ([types.ts]) *)

(** A field that the code reads as [number | string]; [Undefined] is a
    property the record does not have. *)
Inductive field : Type :=
  | Undefined
  | Str (s : string)
  | Num (x : JS.number).

Record CensusRow : Type := {
  employeeId : option string;
  name : option string;
  dob : option string;
  employmentStatus : option string;
  hireDate : option string;
  annualSalary : field;
  basicLifeCoverage : field;
  voluntaryLifeMultiple : field;
  dependentElections : option string
}.

Inductive Severity : Type := Low | Medium | High.

Inductive RiskLevel : Type := LowRisk | ModerateRisk | HighRisk.

Record RiskIssue : Type := {
  type : string;
  count : Z;
  severity : Severity;
  description : string
}.

Record SubScore : Type := {
  subName : string;
  score : Z;
  issues : list RiskIssue
}.

Record SubScores : Type := {
  completeness : SubScore;
  consistency : SubScore;
  eligibility : SubScore;
  eoiRisk : SubScore
}.

Record PredictedImpact : Type := {
  clarifications : string;
  eoiVolume : Z;
  postIssueCorrectionRisk : string
}.

Record Action : Type := {
  area : string;
  recommendation : string
}.

Record AnalysisResult : Type := {
  overallScore : Z;
  riskLevel : RiskLevel;
  totalEmployees : nat;
  subScores : SubScores;
  anomalies : list RiskIssue;
  executiveSummary : string;
  topRiskDrivers : list string;
  predictedImpact : PredictedImpact;
  recommendedActions : list Action
}.

(** [riskLevel.toLowerCase()] *)
Definition riskLevelLower (r : RiskLevel) : string :=
  match r with
  | LowRisk => "low"
  | ModerateRisk => "moderate"
  | HighRisk => "high"
  end.

(** ** Constants of the scoring logic *)

Definition GI_LIMIT : Z := 150000.
Definition PLAN_MAX_VOL_MULTIPLE : Z := 5.
Definition WAITING_PERIOD_DAYS : Z := 30.

Definition PENALTY_MISSING_SALARY : Z := 5.
Definition PENALTY_MISSING_DOB : Z := 4.
Definition PENALTY_VOL_OVER_MAX : Z := 6.
Definition PENALTY_ZERO_SALARY_COV : Z := 5.
Definition PENALTY_WAITING_PERIOD : Z := 5.
Definition PENALTY_INELIGIBLE_DEP : Z := 4.
Definition PENALTY_EOI_MISSING_SALARY : Z := 3.

(** ** Helper functions *)

(** The characters that [/[^0-9.-]+/g] leaves in place. *)
Definition moneyChar (c : ascii) : bool :=
  JS.isDigit c || Ascii.eqb c "." || Ascii.eqb c "-".

(** The rest of the text after a run of characters outside [0-9.-]. *)
Fixpoint skipRun (s : string) : string :=
  match s with
  | String c s' => if moneyChar c then s else skipRun s'
  | EmptyString => EmptyString
  end.

#[local] Unset Equations With Funext.

(** [val.replace(/[^0-9.-]+/g, "")]: every maximal run of characters
    outside [0-9.-] is matched once and replaced by the empty string. *)
Equations? replaceNonMoney (s : string) : string by wf (String.length s) lt :=
  replaceNonMoney EmptyString := EmptyString;
  replaceNonMoney (String c s') with moneyChar c := {
    | true := String c (replaceNonMoney s');
    | false := replaceNonMoney (skipRun s') }.
Proof.
  all: assert (H : forall s, (String.length (skipRun s) <= String.length s)%nat)
    by (intros s; induction s as [|a s IH]; simpl; [lia|];
        destruct (moneyChar a); simpl; lia).
  all: specialize (H s'); simpl; lia.
Qed.

Definition parseMoney (val : field) : JS.number :=
  match val with
  | Num x => x
  | Undefined => JS.zero
  | Str EmptyString => JS.zero
  | Str s => JS.orZero (JS.parseFloat (replaceNonMoney s))
  end.

(** [parseFloat(val as string)]: the argument goes through ToString; the
    text of a number reads back as that number, and the text of
    [undefined] is the word itself. *)
Definition parseFloatOf (val : field) : JS.number :=
  match val with
  | Num x => x
  | Undefined => JS.parseFloat "undefined"
  | Str s => JS.parseFloat s
  end.

(** A string in a condition: [undefined] and the empty string are falsy. *)
Definition present (s : option string) : bool :=
  match s with
  | None | Some EmptyString => false
  | Some _ => true
  end.

Section Host.

(** [Date.parse] of the host: the time value of a text in milliseconds
    since the epoch, or [None] where [new Date(text)] is an invalid date. *)
Variable Date_parse : string -> option Z.

Definition newDate (dateStr : option string) : option Z :=
  match dateStr with
  | Some s => Date_parse s
  | None => None
  end.

Definition isValidDate (dateStr : option string) : bool :=
  if negb (present dateStr) then false
  else match newDate dateStr with
       | Some _ => true
       | None => false
       end.

Definition MS_PER_DAY : Z := 1000 * 60 * 60 * 24.

(** [now] is the reading of [new Date()] taken by this call. *)
Definition getDaysSince (now : Z) (dateStr : option string) : Z :=
  if negb (isValidDate dateStr) then 9999
  else match newDate dateStr with
       | Some d =>
           let diffTime := Qabs (inject_Z now -! inject_Z d)%js in
           JS.ceil (diffTime /! inject_Z MS_PER_DAY)%js
       | None => 9999
       end.

End Host.

(** ** The scoring engine *)

Definition num (n : nat) : Q := inject_Z (Z.of_nat n).

(** [if (b) n++] *)
Definition bump (b : bool) (n : nat) : nat := if b then S n else n.

(** [if (b) l.push(x)] *)
Definition push {A : Type} (b : bool) (x : A) (l : list A) : list A :=
  if b then l ++ [x] else l.

(** The counters that the pass over the records updates.
    [ineligibleDepCount] is declared with them and never written. *)
Record Counters : Type := {
  missingSalaryCount : nat;
  missingDobCount : nat;
  volMultiOverMaxCount : nat;
  zeroSalaryCount : nat;
  waitingPeriodCount : nat;
  employeesExceedingGI : nat;
  employeeIdCounts : gmap string nat
}.

Definition ineligibleDepCount : nat := 0.

Definition noCounts : Counters :=
  {| missingSalaryCount := 0; missingDobCount := 0;
     volMultiOverMaxCount := 0; zeroSalaryCount := 0;
     waitingPeriodCount := 0; employeesExceedingGI := 0;
     employeeIdCounts := ∅ |}.

(** [employeeIdCounts.set(id, (employeeIdCounts.get(id) || 0) + 1)] *)
Definition countId (id : string) (m : gmap string nat) : gmap string nat :=
  <[id := default 0 (m !! id) + 1]> m.

Section Engine.

Variable Date_parse : string -> option Z.

(** The body of [rows.forEach]; [now] is the clock reading available to
    this record. *)
Definition visit (now : Z) (c : Counters) (row : CensusRow) : Counters :=
  let salary := parseMoney (annualSalary row) in
  let volMult := JS.orZero (parseFloatOf (voluntaryLifeMultiple row)) in
  let basicCov := parseMoney (basicLifeCoverage row) in
  let hasSalary := JS.gt salary JS.zero in
  let totalVolume := JS.add basicCov (JS.mul salary volMult) in
  {| missingSalaryCount := bump (negb hasSalary) (missingSalaryCount c);
     missingDobCount :=
       bump (negb (present (dob row)) || negb (isValidDate Date_parse (dob row)))
            (missingDobCount c);
     volMultiOverMaxCount :=
       bump (JS.gt volMult (JS.ofZ PLAN_MAX_VOL_MULTIPLE))
            (volMultiOverMaxCount c);
     zeroSalaryCount :=
       bump (JS.gt volMult JS.zero && negb hasSalary) (zeroSalaryCount c);
     waitingPeriodCount :=
       bump (present (hireDate row) && isValidDate Date_parse (hireDate row)
             && (getDaysSince Date_parse now (hireDate row)
                 <? WAITING_PERIOD_DAYS)%Z)
            (waitingPeriodCount c);
     employeesExceedingGI :=
       bump (JS.gt totalVolume (JS.ofZ GI_LIMIT)) (employeesExceedingGI c);
     employeeIdCounts :=
       match employeeId row with
       | Some (String _ _ as id) => countId id (employeeIdCounts c)
       | Some EmptyString | None => employeeIdCounts c
       end |}.

(** [rows.forEach(row => ...)] from record number [i] on. *)
Fixpoint forEachFrom (clock : nat -> Z) (i : nat) (c : Counters)
    (rows : list CensusRow) : Counters :=
  match rows with
  | [] => c
  | row :: rest => forEachFrom clock (S i) (visit (clock i) c row) rest
  end.

(** [employeeIdCounts.forEach(count => ...)] *)
Definition countDuplicates (m : gmap string nat) : nat :=
  map_fold (fun _ count duplicateIdCount =>
              if (1 <? count)%nat then duplicateIdCount + (count - 1)
              else duplicateIdCount)
           0%nat m.

End Engine.

(** *** Sub-scores, as functions of the counters *)

Definition completenessScore (totalEmployees missingSalary missingDob : nat) : Q :=
  let rawCompletenessDeductions :=
    (num missingSalary *! inject_Z PENALTY_MISSING_SALARY
     +! num missingDob *! inject_Z PENALTY_MISSING_DOB)%js in
  let rawCompletenessScore := (100 -! rawCompletenessDeductions)%js in
  let completenessErrorDensity :=
    ((num missingSalary +! num missingDob) /! num totalEmployees)%js in
  let compDensityAdj : Q :=
    if Qle_bool completenessErrorDensity (JS.lit 0.05) then 15%Q
    else if Qle_bool completenessErrorDensity (JS.lit 0.10) then 10%Q
    else 0%Q in
  JS.clamp (rawCompletenessScore +! compDensityAdj)%js.

Definition consistencyScore (totalEmployees volMultiOverMax zeroSalary : nat) : Q :=
  let rawConsistencyDeductions :=
    (num volMultiOverMax *! inject_Z PENALTY_VOL_OVER_MAX
     +! num zeroSalary *! inject_Z PENALTY_ZERO_SALARY_COV)%js in
  let rawConsistencyScore := (100 -! rawConsistencyDeductions)%js in
  let consistencyErrorCount := (volMultiOverMax + zeroSalary)%nat in
  let consistencyErrorDensity :=
    (num consistencyErrorCount /! num totalEmployees)%js in
  let consDensityAdj : Q :=
    if (0 <? consistencyErrorCount)%nat then
      if Qle_bool consistencyErrorDensity (JS.lit 0.05) then (-9)%Q else (-15)%Q
    else 0%Q in
  JS.clamp (rawConsistencyScore +! consDensityAdj)%js.

Definition eligibilityScore (waitingPeriod : nat) : Q :=
  let eligibilityDeductions :=
    (num waitingPeriod *! inject_Z PENALTY_WAITING_PERIOD
     +! num ineligibleDepCount *! inject_Z PENALTY_INELIGIBLE_DEP)%js in
  JS.clamp (100 -! eligibilityDeductions)%js.

Definition eoiRatePercent (totalEmployees exceedingGI : nat) : Q :=
  (num exceedingGI /! num totalEmployees *! 100)%js.

Definition eoiScore (totalEmployees exceedingGI missingSalary : nat) : Q :=
  let eoiScoreRaw :=
    (100 -! eoiRatePercent totalEmployees exceedingGI *! JS.lit 0.8
     -! num missingSalary *! inject_Z PENALTY_EOI_MISSING_SALARY)%js in
  JS.clamp eoiScoreRaw.

Definition weightedScore (completeness consistency eligibility eoi : Q) : Q :=
  (completeness *! JS.lit 0.30 +! consistency *! JS.lit 0.25
   +! eligibility *! JS.lit 0.25 +! eoi *! JS.lit 0.20)%js.

Definition riskLevelOf (overall : Z) : RiskLevel :=
  if (85 <=? overall)%Z then LowRisk
  else if (70 <=? overall)%Z then ModerateRisk
  else HighRisk.

(** *** The result *)

Definition issue (t : string) (n : Z) (sev : Severity) (d : string) : RiskIssue :=
  {| type := t; count := n; severity := sev; description := d |}.

Definition action (a r : string) : Action :=
  {| area := a; recommendation := r |}.

Definition emptySubScore (n : string) : SubScore :=
  {| subName := n; score := 0; issues := [] |}.

(** What the engine returns for no records at all. *)
Definition emptyResult : AnalysisResult :=
  {| overallScore := 0;
     riskLevel := HighRisk;
     totalEmployees := 0;
     subScores :=
       {| completeness := emptySubScore "Completeness";
          consistency := emptySubScore "Consistency";
          eligibility := emptySubScore "Eligibility";
          eoiRisk := emptySubScore "EOI Risk" |};
     anomalies := [];
     executiveSummary := "No data found in file.";
     topRiskDrivers := [];
     predictedImpact :=
       {| clarifications := "0"; eoiVolume := 0;
          postIssueCorrectionRisk := "None" |};
     recommendedActions := [] |}.

(** The text of a counter inside a template literal. *)
Definition show (n : nat) : string := pretty n.

(** [drivers], before [slice(0, 5)]. *)
Definition riskDrivers (exceedingGI missingSalary waitingPeriod volMultiOverMax
    duplicateIdCount : nat) : list string :=
  let drivers := [] in
  let drivers :=
    push (0 <? exceedingGI)%nat
      (show exceedingGI ++ " employees exceed GI ($150k) → EOI required") drivers in
  let drivers :=
    push (0 <? missingSalary)%nat
      (show missingSalary ++ " missing salary records") drivers in
  let drivers :=
    push (0 <? waitingPeriod)%nat
      (show waitingPeriod ++ " employees in waiting period") drivers in
  let drivers :=
    push (0 <? volMultiOverMax)%nat
      (show volMultiOverMax ++ " coverage elections exceeding plan max (5x)") drivers in
  let drivers :=
    push (0 <? duplicateIdCount)%nat
      (show duplicateIdCount ++ " duplicate IDs") drivers in
  drivers.

(** [actions] *)
Definition actionsFor (missingSalary exceedingGI duplicateIdCount
    volMultiOverMax : nat) : list Action :=
  let actions := [] in
  let actions :=
    push (0 <? missingSalary)%nat
      (action "Missing Salary" "Employer clarification upfront") actions in
  let actions :=
    push (0 <? exceedingGI)%nat
      (action "EOI Volume" "Pre-emptive EOI communication") actions in
  let actions :=
    push (0 <? duplicateIdCount)%nat
      (action "Duplicates" "Deduplicate before enrollment") actions in
  let actions :=
    push (0 <? volMultiOverMax)%nat
      (action "Plan Limits" "Cap voluntary elections at 5x") actions in
  let actions :=
    push (length actions =? 0)%nat
      (action "General" "Proceed to enrollment") actions in
  actions.

Section Analysis.

Variable Date_parse : string -> option Z.

(** [clock i] is the reading of [new Date()] while record [i] is visited. *)
Definition analyzeCensusData (clock : nat -> Z) (rows : list CensusRow)
    : AnalysisResult :=
  let totalEmployees := length rows in
  if (totalEmployees =? 0)%nat then emptyResult
  else
    let c := forEachFrom Date_parse clock 0 noCounts rows in
    let missingSalaryCount := missingSalaryCount c in
    let missingDobCount := missingDobCount c in
    let volMultiOverMaxCount := volMultiOverMaxCount c in
    let zeroSalaryCount := zeroSalaryCount c in
    let waitingPeriodCount := waitingPeriodCount c in
    let employeesExceedingGI := employeesExceedingGI c in
    let duplicateIdCount := countDuplicates (employeeIdCounts c) in
    let completenessScore :=
      completenessScore totalEmployees missingSalaryCount missingDobCount in
    let consistencyScore :=
      consistencyScore totalEmployees volMultiOverMaxCount zeroSalaryCount in
    let eligibilityScore := eligibilityScore waitingPeriodCount in
    let eoiRatePercent := eoiRatePercent totalEmployees employeesExceedingGI in
    let eoiScore :=
      eoiScore totalEmployees employeesExceedingGI missingSalaryCount in
    let weightedScore :=
      weightedScore completenessScore consistencyScore eligibilityScore eoiScore in
    let overallScore := JS.round weightedScore in
    let riskLevel := riskLevelOf overallScore in
    let anomalies := [] in
    let anomalies :=
      push (0 <? duplicateIdCount)%nat
        (issue "Duplicate IDs" (Z.of_nat duplicateIdCount) High
               "Duplicate employee IDs found") anomalies in
    let anomalies :=
      push (JS.Qgtb (num missingSalaryCount) (num totalEmployees *! JS.lit 0.1)%js)
        (issue "Missing Salaries" (Z.of_nat missingSalaryCount) High
               "High volume of missing salaries") anomalies in
    let drivers :=
      riskDrivers employeesExceedingGI missingSalaryCount waitingPeriodCount
        volMultiOverMaxCount duplicateIdCount in
    let eoiVol := JS.ceil (num employeesExceedingGI *! JS.lit 1.1)%js in
    let clarificationCycles :=
      if (overallScore <? 70)%Z then "6+"
      else if (overallScore <? 85)%Z then "4–6" else "1-2" in
    let postIssueRisk :=
      if (overallScore <? 70)%Z then "High"
      else if (overallScore <? 85)%Z then "Medium" else "Low" in
    let actions :=
      actionsFor missingSalaryCount employeesExceedingGI duplicateIdCount
        volMultiOverMaxCount in
    let summary :=
      "This census demonstrates " ++ riskLevelLower riskLevel
      ++ " enrollment risk (Score: " ++ pretty overallScore
      ++ "). Primary drivers include " ++ show employeesExceedingGI
      ++ " EOI cases and " ++ show missingSalaryCount
      ++ " missing data points." in
    {| overallScore := overallScore;
       riskLevel := riskLevel;
       totalEmployees := totalEmployees;
       subScores :=
         {| completeness :=
              {| subName := "Completeness";
                 score := JS.round completenessScore;
                 issues :=
                   [ issue "Missing Salary" (Z.of_nat missingSalaryCount) High
                       "Salary field is empty or null";
                     issue "Missing DOB" (Z.of_nat missingDobCount) Medium
                       "Date of birth missing" ] |};
            consistency :=
              {| subName := "Consistency";
                 score := JS.round consistencyScore;
                 issues :=
                   [ issue "Voluntary > Max" (Z.of_nat volMultiOverMaxCount) High
                       "Voluntary multiple > plan max (5x)";
                     issue "Zero Salary Coverage" (Z.of_nat zeroSalaryCount) High
                       "Coverage elected with $0 salary" ] |};
            eligibility :=
              {| subName := "Eligibility";
                 score := JS.round eligibilityScore;
                 issues :=
                   [ issue "Waiting Period" (Z.of_nat waitingPeriodCount) Medium
                       "Employees in waiting period (<30 days)";
                     issue "Ineligible Dependents" (Z.of_nat ineligibleDepCount)
                       Medium
                       "Dependents exceeding age limits (Note: Data unavailable)" ] |};
            eoiRisk :=
              {| subName := "EOI Risk";
                 score := JS.round eoiScore;
                 issues :=
                   [ issue "Exceeding GI" (Z.of_nat employeesExceedingGI) High
                       "Employees exceeding Guaranteed Issue ($150k)";
                     issue "EOI Rate" (JS.round eoiRatePercent) Medium
                       "% of group requiring EOI" ] |} |};
       anomalies := anomalies;
       executiveSummary := summary;
       topRiskDrivers := take 5 drivers;
       predictedImpact :=
         {| clarifications := clarificationCycles ++ " cycles";
            eoiVolume := eoiVol;
            postIssueCorrectionRisk := postIssueRisk |};
       recommendedActions := actions |}.

End Analysis.

(** ** A host for the examples

    The one date format that every host reads alike is the ISO date-only
    form [YYYY-MM-DD], midnight UTC.  [IsoHost.Date_parse] reads that form
    and nothing else, and is the host of the worked examples below; the
    general theorems hold for every host. *)

Module IsoHost.

Definition isLeap (y : Z) : bool :=
  ((y mod 4 =? 0) && negb (y mod 100 =? 0) || (y mod 400 =? 0))%Z.

Definition daysInMonth (y m : Z) : Z :=
  (if m =? 2 then (if isLeap y then 29 else 28)
   else if (m =? 4) || (m =? 6) || (m =? 9) || (m =? 11) then 30
   else 31)%Z.

(** Days from 1970-01-01 to the given day of the proleptic Gregorian
    calendar. *)
Definition daysFromCivil (y m d : Z) : Z :=
  (let y' := if m <=? 2 then y - 1 else y in
   let era := y' / 400 in
   let yoe := y' - era * 400 in
   let mp := (m + 9) mod 12 in
   let doy := (153 * mp + 2) / 5 + d - 1 in
   let doe := yoe * 365 + yoe / 4 - yoe / 100 + doy in
   era * 146097 + doe - 719468)%Z.

Definition allDigits (s : string) : bool :=
  match JS.spanDigits s with
  | (_, EmptyString) => true
  | _ => false
  end.

Definition Date_parse (s : string) : option Z :=
  if (String.length s =? 10)%nat
     && allDigits (substring 0 4 s) && Ascii.eqb (default "x"%char (String.get 4 s)) "-"
     && allDigits (substring 5 2 s) && Ascii.eqb (default "x"%char (String.get 7 s)) "-"
     && allDigits (substring 8 2 s)
  then
    let y := JS.digitsValue (substring 0 4 s) in
    let m := JS.digitsValue (substring 5 2 s) in
    let d := JS.digitsValue (substring 8 2 s) in
    if ((1 <=? m) && (m <=? 12) && (1 <=? d) && (d <=? daysInMonth y m))%Z
    then Some (daysFromCivil y m d * MS_PER_DAY)%Z
    else None
  else None.

(** A clock that stands still during a run. *)
Definition at_ (t : Z) : nat -> Z := fun _ => t.

End IsoHost.

(** ** The conditions of the claims, record by record *)

Section Conditions.

Variable Date_parse : string -> option Z.

Definition salaryOf (row : CensusRow) : JS.number := parseMoney (annualSalary row).

Definition volMultOf (row : CensusRow) : JS.number :=
  JS.orZero (parseFloatOf (voluntaryLifeMultiple row)).

Definition basicCovOf (row : CensusRow) : JS.number :=
  parseMoney (basicLifeCoverage row).

(** The engine's test for a missing salary: the parsed salary is not [> 0]. *)
Definition missingSalary (row : CensusRow) : bool :=
  negb (JS.gt (salaryOf row) JS.zero).

(** The parsed salary is [<= 0], as the comparison of numbers has it. *)
Definition salaryAtMostZero (row : CensusRow) : bool :=
  JS.le (salaryOf row) JS.zero.

Definition missingDob (row : CensusRow) : bool :=
  negb (present (dob row) && isValidDate Date_parse (dob row)).

Definition volOverMax (row : CensusRow) : bool :=
  JS.gt (volMultOf row) (JS.ofZ PLAN_MAX_VOL_MULTIPLE).

Definition coverageWithoutSalary (row : CensusRow) : bool :=
  JS.gt (volMultOf row) JS.zero && missingSalary row.

Definition inWaitingPeriod (now : Z) (row : CensusRow) : bool :=
  present (hireDate row) && isValidDate Date_parse (hireDate row)
  && (getDaysSince Date_parse now (hireDate row) <? WAITING_PERIOD_DAYS)%Z.

Definition exceedsGI (row : CensusRow) : bool :=
  JS.gt (JS.add (basicCovOf row) (JS.mul (salaryOf row) (volMultOf row)))
        (JS.ofZ GI_LIMIT).

End Conditions.

(** How many records satisfy a condition. *)
Definition countRows (p : CensusRow -> bool) (rows : list CensusRow) : nat :=
  length (List.filter p rows).

(** The same for a condition that reads the clock: record [i] of the
    sequence is judged at [clock i]. *)
Fixpoint countTimedFrom (p : Z -> CensusRow -> bool) (clock : nat -> Z)
    (i : nat) (rows : list CensusRow) : nat :=
  match rows with
  | [] => 0
  | row :: rest =>
      bump (p (clock i) row) (countTimedFrom p clock (S i) rest)
  end.

(** The counters at the end of the pass of a run. *)
Definition countersOf (Date_parse : string -> option Z) (clock : nat -> Z)
    (rows : list CensusRow) : Counters :=
  forEachFrom Date_parse clock 0 noCounts rows.

(** The five scores of a result: the overall score, then the four
    sub-scores. *)
Definition scoresOf (r : AnalysisResult) : list Z :=
  [ overallScore r;
    score (completeness (subScores r));
    score (consistency (subScores r));
    score (eligibility (subScores r));
    score (eoiRisk (subScores r)) ].

Definition inScoreRange (s : Z) : Prop := (0 <= s <= 100)%Z.


(** *** Duplicate identifiers *)

(** The non-empty identifiers of the records, in record order. *)
Fixpoint identifiers (rows : list CensusRow) : list string :=
  match rows with
  | [] => []
  | row :: rest =>
      match employeeId row with
      | Some (String _ _ as id) => id :: identifiers rest
      | Some EmptyString | None => identifiers rest
      end
  end.

Definition occurrences (id : string) (ids : list string) : nat :=
  length (List.filter (String.eqb id) ids).

(** The duplicate count of the specification: over the identifier values
    that occur on more than one record, the sum of (occurrences - 1). *)
Definition duplicatesSpec (rows : list CensusRow) : nat :=
  let ids := identifiers rows in
  sum_list
    (map (fun id => occurrences id ids - 1)
       (List.filter (fun id => (1 <? occurrences id ids)%nat) (remove_dups ids))).

(** The duplicate count that the engine computes for a record sequence. *)
Definition duplicateIdCount (Date_parse : string -> option Z)
    (clock : nat -> Z) (rows : list CensusRow) : nat :=
  countDuplicates (employeeIdCounts (countersOf Date_parse clock rows)).

(** The identifier table after counting the identifiers [ids] into [m]. *)
Definition tally (ids : list string) (m : gmap string nat) : gmap string nat :=
  foldl (fun m id => countId id m) m ids.

(** One step of the pass over the identifier table. *)
Definition excess (count acc : nat) : nat :=
  if (1 <? count)%nat then acc + (count - 1) else acc.

(** *** Risk drivers and recommended actions *)

(** The risk drivers of the specification: the five counts in their fixed
    order with their sentences, those with a positive count kept. *)
Definition driverTable (exceedingGI missingSalary waitingPeriod volMultiOverMax
    duplicates : nat) : list (nat * string) :=
  [ (exceedingGI, " employees exceed GI ($150k) → EOI required");
    (missingSalary, " missing salary records");
    (waitingPeriod, " employees in waiting period");
    (volMultiOverMax, " coverage elections exceeding plan max (5x)");
    (duplicates, " duplicate IDs") ].

Definition driversSpec (table : list (nat * string)) : list string :=
  map (fun e => show (fst e) ++ snd e)
      (List.filter (fun e => (0 <? fst e)%nat) table).

(** The fallback of the recommended actions. *)
Definition proceedAction : Action := action "General" "Proceed to enrollment".

(** *** Monetary parsing *)

(** The characters that the specification keeps in an amount: the
    digits, [.] and [-], written out. *)
Definition amountChars : list ascii := list_ascii_of_string "0123456789.-".

Definition keptInAmount (c : ascii) : bool := existsb (Ascii.eqb c) amountChars.

(** The stripping of the specification: every character other than the
    digits, [.] and [-] is dropped. *)
Fixpoint keepMoneyChars (s : string) : string :=
  match s with
  | String c s' =>
      if keptInAmount c then String c (keepMoneyChars s') else keepMoneyChars s'
  | EmptyString => EmptyString
  end.

Definition decimalDigit (c : ascii) : bool :=
  existsb (Ascii.eqb c) (list_ascii_of_string "0123456789").

(** A text starts with a number: with a digit, or with a point and a
    digit. *)
Definition startsNumber (u : string) : bool :=
  match u with
  | String c r =>
      decimalDigit c
      || (Ascii.eqb c "." && match r with
                             | String d _ => decimalDigit d
                             | EmptyString => false
                             end)
  | EmptyString => false
  end.

(** What is left of an amount reads as a number when, after a minus
    sign if there is one, it starts with a number; otherwise it is
    unparsable, the empty text included. *)
Definition readsAsNumber (t : string) : bool :=
  match t with
  | String c r => if Ascii.eqb c "-" then startsNumber r else startsNumber t
  | EmptyString => false
  end.

(** The monetary parsing of the specification, on a text: what is left
    after the stripping is read as a floating-point number, and 0 stands
    in when nothing reads as a number. *)
Definition parseMoneySpec (s : string) : JS.number :=
  match JS.parseFloat (keepMoneyChars s) with
  | JS.NaN => JS.zero
  | v => v
  end.

(** ** Records and record sequences for the worked examples *)

(** A record with the given fields and nothing else. *)
Definition mkRow (id dob hire : option string) (salary basic vol : field)
    : CensusRow :=
  {| employeeId := id; name := None; dob := dob; employmentStatus := None;
     hireDate := hire; annualSalary := salary; basicLifeCoverage := basic;
     voluntaryLifeMultiple := vol; dependentElections := None |}.

Module Examples.

(** A record with nothing wrong, and one record per condition. *)
Definition plain (id : string) : CensusRow :=
  mkRow (Some id) (Some "1980-05-17") (Some "2019-03-01")
        (Str "$52,000.00") (Str "10000") (Str "1").

Definition noSalary (id : string) : CensusRow :=
  mkRow (Some id) (Some "1980-05-17") (Some "2019-03-01")
        (Str "") (Str "10000") (Str "0").

Definition noDob (id : string) : CensusRow :=
  mkRow (Some id) (Some "unknown") (Some "2019-03-01")
        (Str "$52,000.00") (Str "10000") (Str "1").

Definition overMax (id : string) : CensusRow :=
  mkRow (Some id) (Some "1980-05-17") (Some "2019-03-01")
        (Str "$52,000.00") (Str "10000") (Str "6").

Definition newHire (id : string) : CensusRow :=
  mkRow (Some id) (Some "1980-05-17") (Some "2024-01-10")
        (Str "$52,000.00") (Str "10000") (Str "1").

(** A record whose salary field is the number NaN. *)
Definition nanSalary (id : string) : CensusRow :=
  mkRow (Some id) (Some "1980-05-17") (Some "2019-03-01")
        (Num JS.NaN) (Str "10000") (Str "0").

(** A record without an identifier, and one with the empty identifier. *)
Definition anonymous : CensusRow :=
  mkRow None (Some "1980-05-17") (Some "2019-03-01")
        (Str "$52,000.00") (Str "10000") (Str "1").

Definition blankId : CensusRow :=
  mkRow (Some "") (Some "1980-05-17") (Some "2019-03-01")
        (Str "$52,000.00") (Str "10000") (Str "1").

(** Midnight UTC of 2024-01-20 and of 2024-03-20, in milliseconds. *)
Definition jan20 : Z := 1705708800000.
Definition mar20 : Z := 1710892800000.

(** All five driver conditions at once: a record over the plan maximum
    (and with it over the guaranteed-issue limit), one without a salary,
    a new hire, and an identifier used twice. *)
Definition fiveDrivers : list CensusRow :=
  [ overMax "E1"; noSalary "E2"; newHire "E3"; plain "E4"; plain "E4" ].

(** Ten records: two without a salary, one without a usable date of
    birth, nothing else wrong. *)
Definition tenRecords : list CensusRow :=
  [ plain "E01"; plain "E02"; noSalary "E03"; plain "E04"; noDob "E05";
    plain "E06"; noSalary "E07"; plain "E08"; plain "E09"; plain "E10" ].

(** The same ten, except that the salary of the ninth is the number NaN. *)
Definition tenRecordsOneNaN : list CensusRow :=
  [ plain "E01"; plain "E02"; noSalary "E03"; plain "E04"; noDob "E05";
    plain "E06"; noSalary "E07"; plain "E08"; nanSalary "E09"; plain "E10" ].

(** Seven records, one of them over the plan maximum and over the
    guaranteed-issue limit: the EOI-Risk value is about 88.57. *)
Definition sevenRecords : list CensusRow :=
  [ plain "E1"; plain "E2"; overMax "E3"; plain "E4"; plain "E5";
    plain "E6"; plain "E7" ].

(** A new hire of 2024-01-10 and a long-standing employee. *)
Definition withNewHire : list CensusRow := [ newHire "E1"; plain "E2" ].

(** An identifier on three records, one on a single record, and three
    records without a usable identifier. *)
Definition repeatedIds : list CensusRow :=
  [ plain "A"; plain "B"; anonymous; plain "A"; blankId; plain "A"; blankId ].

End Examples.

(** ** Reading the uploaded text ([parseCSV])

    The string methods that [parseCSV] and the upload handler call, on
    the UTF-8 bytes of a text. *)

Module JSString.

(** [s.split(sep)] for a separator of one ASCII character: the pieces
    between the separators, a single empty piece for the empty text. *)
Fixpoint split (sep : ascii) (s : string) : list string :=
  match s with
  | EmptyString => [EmptyString]
  | String c s' =>
      if Ascii.eqb c sep then EmptyString :: split sep s'
      else match split sep s' with
           | piece :: pieces => String c piece :: pieces
           | [] => [String c EmptyString]
           end
  end.

(** Nothing but white space and line terminators. *)
Definition isBlank (s : string) : bool :=
  match JS.trimStart s with
  | EmptyString => true
  | String _ _ => false
  end.

(** [s.trimEnd()]: the text up to the point from which only white space
    follows. *)
Fixpoint trimEnd (s : string) : string :=
  match s with
  | EmptyString => EmptyString
  | String c s' => if isBlank s then EmptyString else String c (trimEnd s')
  end.

(** [s.trim()] *)
Definition trim (s : string) : string := trimEnd (JS.trimStart s).

Definition byte (n : nat) : ascii := ascii_of_nat n.

(** [s.toLowerCase()], as far as the ASCII characters of the result go:
    the capitals A-Z, and the two characters outside ASCII whose
    lower-case form holds an ASCII letter, U+0130 (to [i] and the
    combining dot U+0307) and U+212A, the Kelvin sign (to [k]).  Every
    other character outside ASCII has a lower-case form outside ASCII
    and is left as it is here; the only caller deletes all of them in
    its next step. *)
Fixpoint toLowerCase (s : string) : string :=
  match s with
  | EmptyString => EmptyString
  | String c s' =>
      let n := nat_of_ascii c in
      if (65 <=? n)%nat && (n <=? 90)%nat
      then String (byte (n + 32)) (toLowerCase s')
      else
        match s' with
        | String c1 s1 =>
            if (n =? 196)%nat && (nat_of_ascii c1 =? 176)%nat
            then String "i"%char (String (byte 204) (String (byte 135) (toLowerCase s1)))
            else
              match s1 with
              | String c2 s2 =>
                  if (n =? 226)%nat && (nat_of_ascii c1 =? 132)%nat
                     && (nat_of_ascii c2 =? 170)%nat
                  then String "k"%char (toLowerCase s2)
                  else String c (toLowerCase s')
              | EmptyString => String c (toLowerCase s')
              end
        | EmptyString => String c EmptyString
        end
  end.

(** [s.includes(needle)] *)
Fixpoint includes (needle s : string) : bool :=
  String.prefix needle s
  || match s with
     | String _ s' => includes needle s'
     | EmptyString => false
     end.

End JSString.

(** The characters that [/[^a-z0-9]/g] leaves in place. *)
Definition keyChar (c : ascii) : bool :=
  let n := nat_of_ascii c in
  (97 <=? n)%nat && (n <=? 122)%nat || JS.isDigit c.

(** [s.replace(/[^a-z0-9]/g, '')] *)
Fixpoint replaceNonKey (s : string) : string :=
  match s with
  | String c s' =>
      if keyChar c then String c (replaceNonKey s') else replaceNonKey s'
  | EmptyString => EmptyString
  end.

(** [header.toLowerCase().replace(/[^a-z0-9]/g, '')] *)
Definition normalizeKey (header : string) : string :=
  replaceNonKey (JSString.toLowerCase header).

(** The property name under which the column of [header] is stored: the
    chain of tests on the normalised key, the first that holds decides. *)
Definition keyOf (header : string) : string :=
  let key := normalizeKey header in
  if JSString.includes "id" key then "employeeId"
  else if JSString.includes "annualsalary" key || String.eqb key "salary"
  then "annualSalary"
  else if JSString.includes "dob" key || JSString.includes "birth" key then "dob"
  else if JSString.includes "status" key then "employmentStatus"
  else if JSString.includes "hiredate" key then "hireDate"
  else if JSString.includes "basic" key then "basicLifeCoverage"
  else if JSString.includes "voluntary" key || JSString.includes "supp" key
  then "voluntaryLifeMultiple"
  else if JSString.includes "dependent" key then "dependentElections"
  else key.

(** The object [row] that a line is read into: its own properties, each
    a text or [undefined] ([None]). *)
Definition RowObject : Type := gmap string (option string).

(** [row[key]] *)
Definition getProp (row : RowObject) (key : string) : option string :=
  mjoin (row !! key).

(** [headers.forEach((header, index) => { ...; row[key] = values[index]?.trim() })]
    from column [index] on. *)
Fixpoint setFields (headers : list string) (index : nat) (values : list string)
    (row : RowObject) : RowObject :=
  match headers with
  | [] => row
  | header :: rest =>
      setFields rest (S index) values
        (<[keyOf header := JSString.trim <$> values !! index]> row)
  end.

Definition fieldOf (v : option string) : field :=
  match v with
  | Some s => Str s
  | None => Undefined
  end.

(** [row as CensusRow]: the properties that the type names, read off the
    object. *)
Definition asCensusRow (row : RowObject) : CensusRow :=
  {| employeeId := getProp row "employeeId";
     name := getProp row "name";
     dob := getProp row "dob";
     employmentStatus := getProp row "employmentStatus";
     hireDate := getProp row "hireDate";
     annualSalary := fieldOf (getProp row "annualSalary");
     basicLifeCoverage := fieldOf (getProp row "basicLifeCoverage");
     voluntaryLifeMultiple := fieldOf (getProp row "voluntaryLifeMultiple");
     dependentElections := getProp row "dependentElections" |}.

Definition LF : ascii := JSString.byte 10.

(** [csvText.split('\n').filter(line => line.trim() !== '')] *)
Definition nonBlankLines (csvText : string) : list string :=
  List.filter (fun line => negb (String.eqb (JSString.trim line) ""))
    (JSString.split LF csvText).

(** The object of one data line. *)
Definition rowObject (headers : list string) (line : string) : RowObject :=
  let values := JSString.split ","%char line in
  setFields headers 0 values ∅.

Definition parseCSV (csvText : string) : list CensusRow :=
  let lines := nonBlankLines csvText in
  if (length lines =? 0)%nat then []
  else
    let headers :=
      map JSString.trim (JSString.split ","%char (default "" (lines !! 0%nat))) in
    map (fun line => asCensusRow (rowObject headers line)) (drop 1 lines).

(** ** The upload handler ([handleFileUpload] of the application)

    [{} as any], the record that stands in when the text has no data
    line, and the array that the handler passes to the engine. *)
Definition emptyRecord : CensusRow := asCensusRow ∅.

Definition uploadRows (text : string) : list CensusRow :=
  let rows := parseCSV text in
  if (0 <? length rows)%nat then rows else [emptyRecord].

(** [result] of the handler. *)
Definition uploadResult (Date_parse : string -> option Z) (clock : nat -> Z)
    (text : string) : AnalysisResult :=
  analyzeCensusData Date_parse clock (uploadRows text).

(** ** The score gauge of the dashboard ([ScoreGauge]) *)

Module Dashboard.

Definition getColor (s : Z) : string :=
  if (90 <=? s)%Z then "text-green-600"
  else if (75 <=? s)%Z then "text-yellow-600"
  else if (60 <=? s)%Z then "text-orange-500"
  else "text-red-600".

Definition getLabel (s : Z) : string :=
  if (90 <=? s)%Z then "Clean, Low Risk"
  else if (75 <=? s)%Z then "Minor Issues"
  else if (60 <=? s)%Z then "Moderate Risk"
  else "High Risk".

End Dashboard.

(** ** The sub-scores in integer arithmetic

    Completeness, consistency and eligibility as the source comments
    state them: penalties per record, and a density adjustment whose
    thresholds of 5% and 10% are compared exactly. *)

Definition clampZ (z : Z) : Z := Z.min 100 (Z.max 0 z).

Definition completenessExact (total missingSalary missingDob : nat) : Z :=
  let errors := Z.of_nat (missingSalary + missingDob) in
  let adj : Z :=
    (if 20 * errors <=? Z.of_nat total then 15
     else if 10 * errors <=? Z.of_nat total then 10
     else 0)%Z in
  clampZ (100 - (5 * Z.of_nat missingSalary + 4 * Z.of_nat missingDob) + adj)%Z.

Definition consistencyExact (total volMultiOverMax zeroSalary : nat) : Z :=
  let errors := Z.of_nat (volMultiOverMax + zeroSalary) in
  let adj : Z :=
    (if 0 <? errors then
       if 20 * errors <=? Z.of_nat total then -9 else -15
     else 0)%Z in
  clampZ (100 - (6 * Z.of_nat volMultiOverMax + 5 * Z.of_nat zeroSalary) + adj)%Z.

Definition eligibilityExact (waitingPeriod : nat) : Z :=
  clampZ (100 - 5 * Z.of_nat waitingPeriod)%Z.


(** ** Measures read off a result or a record sequence *)

(** The day count of [getDaysSince] for a date that lies [z]
    milliseconds from the clock reading. *)
Definition daysOf (z : Z) : Z :=
  JS.ceil (Qabs (Binary64.rnd (inject_Z z)) /! inject_Z MS_PER_DAY)%js.

(** The length of an array is below [2^32]. *)
Definition withinArrayLimit {A : Type} (l : list A) : Prop :=
  (Z.of_nat (length l) < 2 ^ 32)%Z.

(** The issues of the four sub-scores, in the order of the result. *)
Definition allIssues (r : AnalysisResult) : list RiskIssue :=
  issues (completeness (subScores r)) ++ issues (consistency (subScores r))
  ++ issues (eligibility (subScores r)) ++ issues (eoiRisk (subScores r)).

(** The count that a result reports for the issue of type [t]. *)
Definition issueCount (t : string) (r : AnalysisResult) : Z :=
  match List.find (fun i => String.eqb (type i) t) (allIssues r) with
  | Some i => count i
  | None => 0
  end.

(** The largest count that an issue of type [t] can report for [total]
    records: a percentage for the EOI rate, a number of records
    otherwise. *)
Definition countLimit (t : string) (total : nat) : Z :=
  if String.eqb t "EOI Rate" then 100 else Z.of_nat total.

(** The same record under another identifier. *)
Definition withId (id : option string) (row : CensusRow) : CensusRow :=
  {| employeeId := id; name := name row; dob := dob row;
     employmentStatus := employmentStatus row; hireDate := hireDate row;
     annualSalary := annualSalary row;
     basicLifeCoverage := basicLifeCoverage row;
     voluntaryLifeMultiple := voluntaryLifeMultiple row;
     dependentElections := dependentElections row |}.

(** The two anomalies that a result can list. *)
Definition duplicateIdsAnomaly (n : nat) : RiskIssue :=
  issue "Duplicate IDs" (Z.of_nat n) High "Duplicate employee IDs found".

Definition missingSalariesAnomaly (n : nat) : RiskIssue :=
  issue "Missing Salaries" (Z.of_nat n) High "High volume of missing salaries".

(** [predictedImpact] of a result with the given overall score and count
    of employees over the guaranteed-issue limit. *)
Definition impactOf (overallScore : Z) (exceedingGI : nat) : PredictedImpact :=
  {| clarifications :=
       (if (overallScore <? 70)%Z then "6+"
        else if (overallScore <? 85)%Z then "4–6" else "1-2") ++ " cycles";
     eoiVolume := JS.ceil (num exceedingGI *! JS.lit 1.1)%js;
     postIssueCorrectionRisk :=
       if (overallScore <? 70)%Z then "High"
       else if (overallScore <? 85)%Z then "Medium" else "Low" |}.

(** ** What [parseCSV] stores, column by column *)

(** The header cells of a text: the trimmed cells of its first line that
    is not blank. *)
Definition headersOf (csvText : string) : list string :=
  map JSString.trim
    (JSString.split ","%char (default "" (nonBlankLines csvText !! 0%nat))).

(** The data lines of a text: the lines that are not blank, after the
    first of them. *)
Definition dataLines (csvText : string) : list string :=
  drop 1 (nonBlankLines csvText).

(** The last column, counted from [index], whose header is stored under
    the property [key]. *)
Fixpoint lastColumn (key : string) (headers : list string) (index : nat)
    : option nat :=
  match headers with
  | [] => None
  | header :: rest =>
      match lastColumn key rest (S index) with
      | Some j => Some j
      | None => if String.eqb (keyOf header) key then Some index else None
      end
  end.

(** The trimmed cell of a line under that column; [undefined] when no
    column is stored under [key] or the line ends before it. *)
Definition cellUnder (key : string) (headers : list string) (line : string)
    : option string :=
  match lastColumn key headers 0 with
  | Some j => JSString.trim <$> JSString.split ","%char line !! j
  | None => None
  end.

(** The record that the specification of the columns gives for a line. *)
Definition recordOfLine (headers : list string) (line : string) : CensusRow :=
  {| employeeId := cellUnder "employeeId" headers line;
     name := cellUnder "name" headers line;
     dob := cellUnder "dob" headers line;
     employmentStatus := cellUnder "employmentStatus" headers line;
     hireDate := cellUnder "hireDate" headers line;
     annualSalary := fieldOf (cellUnder "annualSalary" headers line);
     basicLifeCoverage := fieldOf (cellUnder "basicLifeCoverage" headers line);
     voluntaryLifeMultiple :=
       fieldOf (cellUnder "voluntaryLifeMultiple" headers line);
     dependentElections := cellUnder "dependentElections" headers line |}.

(** The character occurs in the text. *)
Fixpoint hasChar (c : ascii) (s : string) : bool :=
  match s with
  | EmptyString => false
  | String a s' => Ascii.eqb a c || hasChar c s'
  end.

Definition fieldText (f : field) : option string :=
  match f with
  | Str s => Some s
  | Undefined | Num _ => None
  end.

(** The texts that a record holds. *)
Definition texts (row : CensusRow) : list string :=
  omap id
    [ employeeId row; name row; dob row; employmentStatus row; hireDate row;
      fieldText (annualSalary row); fieldText (basicLifeCoverage row);
      fieldText (voluntaryLifeMultiple row); dependentElections row ].

(** ** Line endings *)

Definition CR : ascii := JSString.byte 13.

(** The text with a carriage return put before every line feed: the
    line endings of Windows. *)
Fixpoint toCRLF (s : string) : string :=
  match s with
  | EmptyString => EmptyString
  | String c s' =>
      if Ascii.eqb c LF then String CR (String LF (toCRLF s'))
      else String c (toCRLF s')
  end.

(** The lines of a text whose lines end in carriage return and line
    feed, cut at the line feeds: every line but the last keeps its
    carriage return. *)
Fixpoint withCR (lines : list string) : list string :=
  match lines with
  | [] => []
  | [line] => [line]
  | line :: rest => (line ++ String CR "") :: withCR rest
  end.

(** A text is another one, or that one and a carriage return. *)
Definition upToCR (a b : string) : Prop := a = b \/ a = b ++ String CR "".

Definition tailOf (s : string) : string :=
  match s with
  | EmptyString => EmptyString
  | String _ s' => s'
  end.

(** The recommended actions of the specification: the four areas in
    their fixed order, those with a positive count kept, and the general
    action when none is. *)
Definition actionTable (missingSalary exceedingGI duplicates volMultiOverMax : nat)
    : list (nat * Action) :=
  [ (missingSalary, action "Missing Salary" "Employer clarification upfront");
    (exceedingGI, action "EOI Volume" "Pre-emptive EOI communication");
    (duplicates, action "Duplicates" "Deduplicate before enrollment");
    (volMultiOverMax, action "Plan Limits" "Cap voluntary elections at 5x") ].

Definition actionsSpec (table : list (nat * Action)) : list Action :=
  match map snd (List.filter (fun e => (0 <? fst e)%nat) table) with
  | [] => [proceedAction]
  | actions => actions
  end.

(** The same record but for the identifier. *)
Definition sameButId (row row' : CensusRow) : Prop :=
  withId None row = withId None row'.

(** The risk band of a result and the label that the score gauge shows
    for its overall score. *)
Definition bandAndLabel (r : AnalysisResult) : RiskLevel * string :=
  (riskLevel r, Dashboard.getLabel (overallScore r)).

(** The bands and labels that go together. *)
Definition bandsAndLabels : list (RiskLevel * string) :=
  [ (LowRisk, "Clean, Low Risk"); (LowRisk, "Minor Issues");
    (ModerateRisk, "Minor Issues"); (ModerateRisk, "Moderate Risk");
    (HighRisk, "Moderate Risk"); (HighRisk, "High Risk") ].

(** * Properties *)

(** ** Rounding to binary64 is monotone *)

Module Binary64Facts.

Import Binary64.

Local Open Scope Q_scope.

Lemma rne_cases q :
  (rne q = Qfloor q /\ q - inject_Z (Qfloor q) <= 1 # 2)
  \/ (rne q = (Qfloor q + 1)%Z /\ 1 # 2 <= q - inject_Z (Qfloor q)).
Proof.
  unfold rne.
  destruct (Qcompare_spec (q - inject_Z (Qfloor q)) (1 # 2)) as [H|H|H].
  - destruct (Z.even (Qfloor q)); [left|right]; split; trivial; rewrite H; lra.
  - left. split; [reflexivity|lra].
  - right. split; [reflexivity|lra].
Qed.

Lemma rne_mono x y : x <= y -> (rne x <= rne y)%Z.
Proof.
  intros Hxy.
  pose proof (Qfloor_resp_le x y Hxy) as Hf.
  destruct (Z.eq_dec (Qfloor x) (Qfloor y)) as [He|Hne].
  - unfold rne. rewrite He.
    destruct (Qcompare_spec (x - inject_Z (Qfloor y)) (1 # 2)) as [Hx|Hx|Hx];
      destruct (Qcompare_spec (y - inject_Z (Qfloor y)) (1 # 2)) as [Hy|Hy|Hy];
      try destruct (Z.even (Qfloor y)); try lia; exfalso; lra.
  - destruct (rne_cases x) as [[-> _]|[-> _]], (rne_cases y) as [[-> _]|[-> _]]; lia.
Qed.

Lemma rne_Z z : rne (inject_Z z) = z.
Proof.
  unfold rne. rewrite Qfloor_Z.
  destruct (Qcompare_spec (inject_Z z - inject_Z z) (1 # 2)) as [H|H|H];
    [exfalso; lra | reflexivity | exfalso; lra].
Qed.

Lemma rne_le_Z q z : q <= inject_Z z -> (rne q <= z)%Z.
Proof. intros H. rewrite <- (rne_Z z). now apply rne_mono. Qed.

Lemma rne_ge_Z q z : inject_Z z <= q -> (z <= rne q)%Z.
Proof. intros H. rewrite <- (rne_Z z). now apply rne_mono. Qed.

Lemma pow2_pos e : 0 < pow2 e.
Proof. apply Qpower_0_lt. reflexivity. Qed.

Lemma pow2_add a b : pow2 (a + b) == pow2 a * pow2 b.
Proof. apply Qpower_plus. discriminate. Qed.

Lemma pow2_mono a b : (a <= b)%Z -> pow2 a <= pow2 b.
Proof. intros H. apply Qpower_le_compat_l; [exact H|discriminate]. Qed.

Lemma pow2_lt_inv a b : pow2 a < pow2 b -> (a < b)%Z.
Proof. intros H. apply (Qpower_lt_compat_l_inv 2); [exact H|reflexivity]. Qed.

Lemma pow2_nat (n : Z) : (0 <= n)%Z -> pow2 n == inject_Z (2 ^ n).
Proof. intros H. unfold pow2. now rewrite Zpower_Qpower. Qed.

Lemma log2_bounds (p : positive) :
  inject_Z (2 ^ Z.log2 (Zpos p)) <= inject_Z (Zpos p)
  /\ inject_Z (Zpos p) < inject_Z (2 ^ (Z.log2 (Zpos p) + 1)).
Proof.
  destruct (Z.log2_spec (Zpos p)) as [Hlo Hhi]; [lia|].
  rewrite <- Zle_Qle, <- Zlt_Qlt.
  replace (Z.log2 (Z.pos p) + 1)%Z with (Z.succ (Z.log2 (Z.pos p))) by lia.
  split; assumption.
Qed.

(** The binade of a positive rational. *)
Lemma binade_spec q : 0 < q -> pow2 (binade q) <= q /\ q < pow2 (binade q + 1).
Proof.
  intros Hq. destruct q as [a b]. unfold Qlt in Hq. simpl in Hq.
  destruct a as [|a|a]; try lia.
  set (la := Z.log2 (Zpos a)). set (lb := Z.log2 (Zpos b)).
  assert (Hla : (0 <= la)%Z) by apply Z.log2_nonneg.
  assert (Hlb : (0 <= lb)%Z) by apply Z.log2_nonneg.
  destruct (log2_bounds a) as [Ha1 Ha2]. destruct (log2_bounds b) as [Hb1 Hb2].
  fold la in Ha1, Ha2. fold lb in Hb1, Hb2.
  rewrite <- pow2_nat in Ha1, Ha2, Hb1, Hb2 by lia.
  assert (Hq' : Zpos a # b == inject_Z (Zpos a) / inject_Z (Zpos b)).
  { rewrite Qmake_Qdiv. reflexivity. }
  assert (Hbpos : 0 < inject_Z (Zpos b)) by (rewrite <- (Zlt_Qlt 0); lia).
  (* the quotient lies strictly between 2^(la-lb-1) and 2^(la-lb+1) *)
  assert (Hlow : pow2 (la - lb - 1) < Zpos a # b).
  { rewrite Hq'. apply Qlt_shift_div_l; [exact Hbpos|].
    apply Qlt_le_trans with (pow2 (la - lb - 1) * pow2 (lb + 1)).
    - apply Qmult_lt_l; [apply pow2_pos|exact Hb2].
    - rewrite <- pow2_add. replace (la - lb - 1 + (lb + 1))%Z with la by lia.
      exact Ha1. }
  assert (Hhigh : Zpos a # b < pow2 (la - lb + 1)).
  { rewrite Hq'. apply Qlt_shift_div_r; [exact Hbpos|].
    apply Qlt_le_trans with (pow2 (la + 1)); [exact Ha2|].
    replace (la + 1)%Z with (la - lb + 1 + lb)%Z by lia.
    rewrite pow2_add. apply Qmult_le_l; [apply pow2_pos|exact Hb1]. }
  unfold binade. cbn [Qnum Qden]. fold la lb.
  destruct (Qle_bool (pow2 (la - lb)) (Zpos a # b)) eqn:Hc.
  - apply Qle_bool_iff in Hc. split; assumption.
  - replace (la - lb - 1 + 1)%Z with (la - lb)%Z by lia.
    split; [apply Qlt_le_weak; exact Hlow|].
    apply Qnot_le_lt. intros Hle. apply Qle_bool_iff in Hle. congruence.
Qed.

Lemma binade_mono x y : 0 < x -> x <= y -> (binade x <= binade y)%Z.
Proof.
  intros Hx Hxy.
  assert (Hy : 0 < y) by lra.
  destruct (binade_spec x Hx) as [Hx1 _].
  destruct (binade_spec y Hy) as [_ Hy2].
  assert (H : pow2 (binade x) < pow2 (binade y + 1)).
  { eapply Qle_lt_trans; [exact Hx1|]. eapply Qle_lt_trans; eassumption. }
  apply pow2_lt_inv in H. lia.
Qed.

Lemma quantum_mono x y : 0 < x -> x <= y -> (quantum x <= quantum y)%Z.
Proof.
  intros Hx Hxy. unfold quantum.
  pose proof (binade_mono x y Hx Hxy). lia.
Qed.

Lemma rndPos_nonneg q : 0 < q -> 0 <= rndPos q.
Proof.
  intros Hq. unfold rndPos.
  apply Qmult_le_0_compat; [|apply Qlt_le_weak, pow2_pos].
  rewrite <- (Zle_Qle 0). apply rne_ge_Z.
  apply Qle_shift_div_l; [apply pow2_pos|].
  change (inject_Z 0) with 0. rewrite Qmult_0_l. now apply Qlt_le_weak.
Qed.

(** Rounding does not cross a power of two that is a multiple of the
    quantum. *)
Lemma rndPos_upper q b :
  (quantum q <= b)%Z -> q <= pow2 b -> rndPos q <= pow2 b.
Proof.
  intros Hk Hq. unfold rndPos. set (k := quantum q) in *.
  replace b with (b - k + k)%Z at 1 by lia.
  rewrite pow2_add. apply Qmult_le_r; [apply pow2_pos|].
  rewrite (pow2_nat (b - k)) by lia. rewrite <- Zle_Qle. apply rne_le_Z.
  rewrite <- (pow2_nat (b - k)) by lia.
  apply Qle_shift_div_r; [apply pow2_pos|].
  rewrite <- pow2_add. replace (b - k + k)%Z with b by lia.
  exact Hq.
Qed.

Lemma rndPos_lower q b :
  (quantum q <= b)%Z -> pow2 b <= q -> pow2 b <= rndPos q.
Proof.
  intros Hk Hq. unfold rndPos. set (k := quantum q) in *.
  replace b with (b - k + k)%Z at 1 by lia.
  rewrite pow2_add. apply Qmult_le_r; [apply pow2_pos|].
  rewrite (pow2_nat (b - k)) by lia. rewrite <- Zle_Qle. apply rne_ge_Z.
  rewrite <- (pow2_nat (b - k)) by lia.
  apply Qle_shift_div_l; [apply pow2_pos|].
  rewrite <- pow2_add. replace (b - k + k)%Z with b by lia.
  exact Hq.
Qed.

Lemma rndPos_mono x y : 0 < x -> x <= y -> rndPos x <= rndPos y.
Proof.
  intros Hx Hxy. assert (Hy : 0 < y) by (eapply Qlt_le_trans; eassumption).
  pose proof (quantum_mono x y Hx Hxy) as Hq.
  destruct (Z.eq_dec (quantum x) (quantum y)) as [He|Hne].
  - unfold rndPos. rewrite He.
    apply Qmult_le_r; [apply pow2_pos|].
    rewrite <- Zle_Qle. apply rne_mono.
    apply Qmult_le_r; [apply Qinv_lt_0_compat, pow2_pos|exact Hxy].
  - destruct (binade_spec x Hx) as [_ Hxhi].
    destruct (binade_spec y Hy) as [Hylo _].
    assert (Hb : (binade x + 1 <= binade y)%Z /\ (quantum x <= binade y)%Z
                 /\ (quantum y <= binade y)%Z)
      by (unfold quantum in *; lia).
    destruct Hb as (Hb & Hkx & Hky).
    apply Qle_trans with (pow2 (binade y)).
    + apply rndPos_upper; [exact Hkx|].
      apply Qle_trans with (pow2 (binade x + 1));
        [now apply Qlt_le_weak|now apply pow2_mono].
    + apply rndPos_lower; assumption.
Qed.

Lemma rnd_pos q : 0 < q -> rnd q == rndPos q.
Proof.
  intros Hq. unfold rnd. rewrite Qred_correct.
  destruct (Qcompare_spec q 0) as [H|H|H]; try reflexivity; exfalso; lra.
Qed.

Lemma rnd_neg q : q < 0 -> rnd q == - rndPos (- q).
Proof.
  intros Hq. unfold rnd. rewrite Qred_correct.
  destruct (Qcompare_spec q 0) as [H|H|H]; try reflexivity; exfalso; lra.
Qed.

Lemma rnd_zero q : q == 0 -> rnd q == 0.
Proof.
  intros Hq. unfold rnd. rewrite Qred_correct.
  destruct (Qcompare_spec q 0) as [H|H|H]; try reflexivity; exfalso; lra.
Qed.

Lemma Qle_via a a' b b' : a == a' -> b == b' -> a' <= b' -> a <= b.
Proof. intros Ha Hb H. rewrite Ha, Hb. exact H. Qed.

(** Rounding is monotone. *)
Lemma rnd_mono x y : x <= y -> rnd x <= rnd y.
Proof.
  intros Hxy.
  destruct (Qcompare_spec x 0) as [Hx|Hx|Hx];
    destruct (Qcompare_spec y 0) as [Hy|Hy|Hy]; try (exfalso; lra).
  - apply (Qle_via _ _ _ _ (rnd_zero x Hx) (rnd_zero y Hy)), Qle_refl.
  - apply (Qle_via _ _ _ _ (rnd_zero x Hx) (rnd_pos y Hy)).
    now apply rndPos_nonneg.
  - apply (Qle_via _ _ _ _ (rnd_neg x Hx) (rnd_zero y Hy)).
    pose proof (rndPos_nonneg (- x)). lra.
  - apply (Qle_via _ _ _ _ (rnd_neg x Hx) (rnd_neg y Hy)).
    pose proof (rndPos_mono (- y) (- x)). lra.
  - apply (Qle_via _ _ _ _ (rnd_neg x Hx) (rnd_pos y Hy)).
    pose proof (rndPos_nonneg (- x)). pose proof (rndPos_nonneg y). lra.
  - apply (Qle_via _ _ _ _ (rnd_pos x Hx) (rnd_pos y Hy)).
    now apply rndPos_mono.
Qed.

Lemma rnd_nonneg q : 0 <= q -> 0 <= rnd q.
Proof. intros H. rewrite <- (rnd_zero 0) by reflexivity. now apply rnd_mono. Qed.

#[global] Instance rnd_proper : Proper (Qeq ==> Qeq) rnd.
Proof.
  intros x y Hxy. apply Qle_antisym; apply rnd_mono; rewrite Hxy; apply Qle_refl.
Qed.

End Binary64Facts.

(** The rounding agrees with the arithmetic of the machine on the
    constants of the engine and on the sums of the worked examples. *)

#[local] Set Warnings "-inexact-float".

Example lit_machine :
  map Binary64.ofFloat [0.05; 0.10; 0.8; 0.30; 0.25; 0.20; 0.1; 1.1]%float
  = map (fun q => Some (JS.lit q)) [0.05; 0.10; 0.8; 0.30; 0.25; 0.20; 0.1; 1.1]%Q.
Proof. vm_compute. reflexivity. Qed.

Example fmul_machine :
  Binary64.ofFloat (50 * 1.1)%float = Some (50 *! JS.lit 1.1)%js
  /\ Binary64.ofFloat (95 * 0.30)%float = Some (95 *! JS.lit 0.30)%js.
Proof. vm_compute. split; reflexivity. Qed.

Example eoiScore_machine :
  Binary64.ofFloat (100 - (1 / 7 * 100) * 0.8 - 0 * 3)%float
  = Some (eoiScore 7 1 0).
Proof. vm_compute. reflexivity. Qed.

Example weightedScore_machine :
  Binary64.ofFloat (86 * 0.30 + 100 * 0.25 + 100 * 0.25 + 94 * 0.20)%float
  = Some (weightedScore 86 100 100 94)
  /\ Binary64.ofFloat (81 * 0.30 + 100 * 0.25 + 100 * 0.25 + 91 * 0.20)%float
     = Some (weightedScore 81 100 100 91).
Proof. vm_compute. split; reflexivity. Qed.

(** ** Rounding and clamping *)

Lemma clamp_range q : (0 <= JS.clamp q <= 100)%Q.
Proof.
  unfold JS.clamp.
  destruct (Q.max_spec 0 q) as [[Hq Hm]|[Hq Hm]];
    destruct (Q.min_spec 100 (Qmax 0 q)) as [[Hlt Hn]|[Hle Hn]];
    rewrite Hn; rewrite ?Hm in *; lra.
Qed.

Lemma clamp_mono x y : (x <= y)%Q -> (JS.clamp x <= JS.clamp y)%Q.
Proof.
  intros Hxy. unfold JS.clamp.
  apply Q.min_le_compat_l, Q.max_le_compat_l, Hxy.
Qed.

Lemma round_mono x y : (x <= y)%Q -> (JS.round x <= JS.round y)%Z.
Proof.
  intros Hxy. unfold JS.round. apply Qfloor_resp_le. lra.
Qed.

Lemma round_range q : (0 <= q <= 100)%Q -> inScoreRange (JS.round q).
Proof.
  intros [Hlo Hhi]. split.
  - change 0%Z with (JS.round 0). now apply round_mono.
  - change 100%Z with (JS.round 100). now apply round_mono.
Qed.

Lemma fadd_mono a a' b b' :
  (a <= a')%Q -> (b <= b')%Q -> (a +! b <= a' +! b')%js%Q.
Proof. intros. apply Binary64Facts.rnd_mono. lra. Qed.

Lemma fsub_mono a a' b b' :
  (a <= a')%Q -> (b' <= b)%Q -> (a -! b <= a' -! b')%js%Q.
Proof. intros. apply Binary64Facts.rnd_mono. lra. Qed.

Lemma fmul_mono_r a a' c :
  (0 <= c)%Q -> (a <= a')%Q -> (a *! c <= a' *! c)%js%Q.
Proof.
  intros Hc Ha. apply Binary64Facts.rnd_mono.
  now apply Qmult_le_compat_r.
Qed.

Lemma fdiv_mono_r a a' c :
  (0 <= c)%Q -> (a <= a')%Q -> (a /! c <= a' /! c)%js%Q.
Proof.
  intros Hc Ha. apply Binary64Facts.rnd_mono. unfold Qdiv.
  apply Qmult_le_compat_r; [exact Ha|]. now apply Qinv_le_0_compat.
Qed.

Lemma lit_nonneg q : (0 <= q)%Q -> (0 <= JS.lit q)%Q.
Proof. apply Binary64Facts.rnd_nonneg. Qed.

(** The weights add up to exactly 100 at full marks, and to 0 at none. *)
Lemma weightedScore_full : (weightedScore 100 100 100 100 == 100)%Q.
Proof. vm_compute. reflexivity. Qed.

Lemma weightedScore_none : (weightedScore 0 0 0 0 == 0)%Q.
Proof. vm_compute. reflexivity. Qed.

Lemma weightedScore_mono a a' b b' c c' d d' :
  (a <= a')%Q -> (b <= b')%Q -> (c <= c')%Q -> (d <= d')%Q ->
  (weightedScore a b c d <= weightedScore a' b' c' d')%Q.
Proof.
  intros. unfold weightedScore.
  repeat apply fadd_mono; apply fmul_mono_r; try assumption;
    apply lit_nonneg; discriminate.
Qed.

Lemma weightedScore_range a b c d :
  (0 <= a <= 100)%Q -> (0 <= b <= 100)%Q -> (0 <= c <= 100)%Q ->
  (0 <= d <= 100)%Q -> (0 <= weightedScore a b c d <= 100)%Q.
Proof.
  intros [] [] [] []. split.
  - rewrite <- weightedScore_none. now apply weightedScore_mono.
  - rewrite <- weightedScore_full. now apply weightedScore_mono.
Qed.

Lemma completenessScore_range n ms md : (0 <= completenessScore n ms md <= 100)%Q.
Proof. apply clamp_range. Qed.

Lemma consistencyScore_range n v z : (0 <= consistencyScore n v z <= 100)%Q.
Proof. apply clamp_range. Qed.

Lemma eligibilityScore_range w : (0 <= eligibilityScore w <= 100)%Q.
Proof. apply clamp_range. Qed.

Lemma eoiScore_range n g ms : (0 <= eoiScore n g ms <= 100)%Q.
Proof. apply clamp_range. Qed.

Create HintDb score_range.

#[local] Hint Resolve weightedScore_range completenessScore_range
  consistencyScore_range eligibilityScore_range eoiScore_range : score_range.

(** ** The shape of a result *)

Section ResultShape.

Context (Date_parse : string -> option Z) (clock : nat -> Z).

Local Abbreviation analyze := (analyzeCensusData Date_parse clock).
Local Abbreviation counters := (countersOf Date_parse clock).

Lemma analyze_nil : analyze [] = emptyResult.
Proof. reflexivity. Qed.

Lemma length_cons_eqb (row : CensusRow) rows :
  (length (row :: rows) =? 0)%nat = false.
Proof. reflexivity. Qed.

(** The scores of a run on at least one record, in terms of its
    counters. *)
Lemma scoresOf_analyze row rows :
  let c := counters (row :: rows) in
  let n := length (row :: rows) in
  let cs := completenessScore n (missingSalaryCount c) (missingDobCount c) in
  let ns := consistencyScore n (volMultiOverMaxCount c) (zeroSalaryCount c) in
  let es := eligibilityScore (waitingPeriodCount c) in
  let os := eoiScore n (employeesExceedingGI c) (missingSalaryCount c) in
  scoresOf (analyze (row :: rows)) =
    [ JS.round (weightedScore cs ns es os);
      JS.round cs; JS.round ns; JS.round es; JS.round os ].
Proof.
  intros. unfold analyzeCensusData. rewrite length_cons_eqb. reflexivity.
Qed.

End ResultShape.

(** C1: whatever the records, the overall score and the four sub-scores
    of the result lie between 0 and 100; for no records at all they are
    all 0. *)
Theorem scores_within_0_100 (Date_parse : string -> option Z)
    (clock : nat -> Z) (rows : list CensusRow) :
  Forall inScoreRange (scoresOf (analyzeCensusData Date_parse clock rows))
  /\ scoresOf (analyzeCensusData Date_parse clock []) = [0; 0; 0; 0; 0]%Z.
Proof.
  split; [|reflexivity].
  destruct rows as [|row rows].
  - rewrite analyze_nil. repeat constructor; unfold inScoreRange; simpl; lia.
  - rewrite scoresOf_analyze. cbv zeta.
    repeat (constructor; [apply round_range; auto with score_range|]).
    constructor.
Qed.

(** ** The pass over the records *)

Lemma bump_shift b n k : bump b n + k = n + bump b k.
Proof. destruct b; simpl; lia. Qed.

Lemma countRows_cons p row rows :
  countRows p (row :: rows) = bump (p row) (countRows p rows).
Proof. unfold countRows. simpl. now destruct (p row). Qed.

Section Pass.

Context (Date_parse : string -> option Z).

Lemma missingDob_visit row :
  negb (present (dob row)) || negb (isValidDate Date_parse (dob row))
  = missingDob Date_parse row.
Proof.
  unfold missingDob.
  now destruct (present (dob row)), (isValidDate Date_parse (dob row)).
Qed.

(** Each counter ends as its initial value plus the number of records
    that meet its condition. *)
Lemma forEachFrom_counts clock rows : forall i c,
  let c' := forEachFrom Date_parse clock i c rows in
  missingSalaryCount c' = missingSalaryCount c + countRows missingSalary rows
  /\ missingDobCount c' = missingDobCount c + countRows (missingDob Date_parse) rows
  /\ volMultiOverMaxCount c' = volMultiOverMaxCount c + countRows volOverMax rows
  /\ zeroSalaryCount c' = zeroSalaryCount c + countRows coverageWithoutSalary rows
  /\ waitingPeriodCount c'
     = waitingPeriodCount c
       + countTimedFrom (inWaitingPeriod Date_parse) clock i rows
  /\ employeesExceedingGI c' = employeesExceedingGI c + countRows exceedsGI rows
  /\ employeeIdCounts c' = tally (identifiers rows) (employeeIdCounts c).
Proof.
  induction rows as [|row rows IH]; intros i c.
  - simpl. unfold countRows. simpl. repeat split; lia.
  - specialize (IH (S i) (visit Date_parse (clock i) c row)).
    cbv zeta in IH |- *.
    destruct IH as (H1 & H2 & H3 & H4 & H5 & H6 & H7).
    change (forEachFrom Date_parse clock i c (row :: rows))
      with (forEachFrom Date_parse clock (S i) (visit Date_parse (clock i) c row) rows).
    rewrite H1, H2, H3, H4, H5, H6, H7, !countRows_cons.
    cbn [visit missingSalaryCount missingDobCount volMultiOverMaxCount
         zeroSalaryCount waitingPeriodCount employeesExceedingGI
         employeeIdCounts countTimedFrom identifiers].
    rewrite missingDob_visit.
    repeat split; try exact (bump_shift _ _ _).
    destruct (employeeId row) as [[|a id]|]; reflexivity.
Qed.

Lemma counters_counts clock rows :
  let c := countersOf Date_parse clock rows in
  missingSalaryCount c = countRows missingSalary rows
  /\ missingDobCount c = countRows (missingDob Date_parse) rows
  /\ volMultiOverMaxCount c = countRows volOverMax rows
  /\ zeroSalaryCount c = countRows coverageWithoutSalary rows
  /\ waitingPeriodCount c
     = countTimedFrom (inWaitingPeriod Date_parse) clock 0 rows
  /\ employeesExceedingGI c = countRows exceedsGI rows
  /\ employeeIdCounts c = tally (identifiers rows) ∅.
Proof. apply (forEachFrom_counts clock rows 0 noCounts). Qed.

End Pass.

Lemma riskLevel_analyze (Date_parse : string -> option Z) (clock : nat -> Z)
    (rows : list CensusRow) :
  rows ≠ [] ->
  riskLevel (analyzeCensusData Date_parse clock rows)
  = riskLevelOf (overallScore (analyzeCensusData Date_parse clock rows)).
Proof.
  destruct rows as [|row rows]; [contradiction|]. intros _.
  unfold analyzeCensusData. rewrite length_cons_eqb.
  cbn [riskLevel overallScore]. reflexivity.
Qed.

(** The scores of a run on at least one record, from the number of
    records that meet each condition. *)
Lemma scores_counts (Date_parse : string -> option Z) (clock : nat -> Z)
    (rows : list CensusRow) :
  rows ≠ [] ->
  let r := analyzeCensusData Date_parse clock rows in
  let n := length rows in
  let ms := countRows missingSalary rows in
  let cs := completenessScore n ms (countRows (missingDob Date_parse) rows) in
  let ns := consistencyScore n (countRows volOverMax rows)
              (countRows coverageWithoutSalary rows) in
  let es := eligibilityScore
              (countTimedFrom (inWaitingPeriod Date_parse) clock 0 rows) in
  let os := eoiScore n (countRows exceedsGI rows) ms in
  overallScore r = JS.round (weightedScore cs ns es os)
  /\ score (completeness (subScores r)) = JS.round cs
  /\ score (consistency (subScores r)) = JS.round ns
  /\ score (eligibility (subScores r)) = JS.round es
  /\ score (eoiRisk (subScores r)) = JS.round os.
Proof.
  destruct rows as [|row rows]; [contradiction|]. intros _.
  cbv zeta.
  destruct (counters_counts Date_parse clock (row :: rows))
    as (Hms & Hmd & Hv & Hz & Hw & Hg & _).
  rewrite <- Hms, <- Hmd, <- Hv, <- Hz, <- Hw, <- Hg.
  unfold analyzeCensusData. rewrite length_cons_eqb.
  cbn [overallScore subScores completeness consistency eligibility eoiRisk score].
  repeat split.
Qed.

(** ** The identifier table and the duplicate count *)

Lemma occurrences_cons k a ids :
  occurrences k (a :: ids)
  = (if String.eqb k a then 1 else 0) + occurrences k ids.
Proof. unfold occurrences. simpl. now destruct (String.eqb k a). Qed.

Lemma occurrences_head k ids : occurrences k (k :: ids) = S (occurrences k ids).
Proof. now rewrite occurrences_cons, String.eqb_refl. Qed.

Lemma occurrences_other k a ids :
  k ≠ a -> occurrences k (a :: ids) = occurrences k ids.
Proof.
  intros Hne. rewrite occurrences_cons.
  destruct (String.eqb_spec k a); [contradiction|reflexivity].
Qed.

Lemma occurrences_absent k ids : k ∉ ids -> occurrences k ids = 0.
Proof.
  induction ids as [|a ids IH]; intros Hk; [reflexivity|].
  apply not_elem_of_cons in Hk as [Hne Hk].
  rewrite occurrences_other by assumption. auto.
Qed.

Lemma occurrences_present k ids : k ∈ ids -> 1 <= occurrences k ids.
Proof.
  induction ids as [|a ids IH]; intros Hk; [now apply elem_of_nil in Hk|].
  destruct (decide (k = a)) as [->|Hne].
  - rewrite occurrences_head. lia.
  - rewrite occurrences_other by assumption.
    apply elem_of_cons in Hk as [?|?]; [contradiction|auto].
Qed.

Lemma countId_lookup id m : countId id m !! id = Some (default 0 (m !! id) + 1).
Proof. unfold countId. apply lookup_insert_eq. Qed.

Lemma countId_lookup_other id k m : id ≠ k -> countId id m !! k = m !! k.
Proof. intros. unfold countId. now apply lookup_insert_ne. Qed.

(** After counting [ids] into [m], an identifier of [ids] is bound to its
    earlier count plus its number of occurrences; the others are as in [m]. *)
Lemma tally_lookup ids : forall (m : gmap string nat) k,
  tally ids m !! k
  = if decide (k ∈ ids) then Some (default 0 (m !! k) + occurrences k ids)
    else m !! k.
Proof.
  induction ids as [|a ids IH]; intros m k.
  - simpl. destruct (decide (k ∈ [])) as [Hin|_]; [|reflexivity].
    now apply elem_of_nil in Hin.
  - change (tally (a :: ids) m) with (tally ids (countId a m)).
    rewrite IH. destruct (decide (k = a)) as [->|Hne].
    + rewrite countId_lookup, occurrences_head.
      destruct (decide (a ∈ a :: ids)) as [_|Hn]; [|exfalso; apply Hn; left].
      destruct (decide (a ∈ ids)) as [_|Hn]; simpl.
      * f_equal; lia.
      * rewrite (occurrences_absent _ _ Hn). f_equal; lia.
    + rewrite countId_lookup_other by congruence.
      rewrite occurrences_other by assumption.
      destruct (decide (k ∈ ids)) as [Hin|Hn];
        destruct (decide (k ∈ a :: ids)) as [Hin'|Hn']; try reflexivity.
      * exfalso. apply Hn'. now right.
      * apply elem_of_cons in Hin' as [?|?]; contradiction.
Qed.

Lemma tally_empty_lookup ids k c :
  tally ids ∅ !! k = Some c <-> k ∈ ids /\ c = occurrences k ids.
Proof.
  rewrite tally_lookup, lookup_empty. simpl.
  destruct (decide (k ∈ ids)); split.
  - intros [= <-]. auto.
  - intros [_ ->]. reflexivity.
  - discriminate.
  - intros [? _]. contradiction.
Qed.

(** The entries of the table: one per distinct identifier, with its
    number of occurrences. *)
Lemma tally_entries ids :
  map_to_list (tally ids ∅)
  ≡ₚ (fun k => (k, occurrences k ids)) <$> remove_dups ids.
Proof.
  apply NoDup_Permutation.
  - apply NoDup_map_to_list.
  - apply NoDup_fmap_2_strong; [|apply NoDup_remove_dups].
    intros x y _ _ [= ->]. reflexivity.
  - intros [k c]. rewrite elem_of_map_to_list, tally_empty_lookup, list_elem_of_fmap.
    split.
    + intros [Hin ->]. exists k. split; [reflexivity|].
      rewrite elem_of_remove_dups. exact Hin.
    + intros (x & [= -> ->] & Hin). split; [|reflexivity].
      rewrite elem_of_remove_dups in Hin. exact Hin.
Qed.

Lemma excess_comm c1 c2 acc : excess c1 (excess c2 acc) = excess c2 (excess c1 acc).
Proof.
  unfold excess. destruct (1 <? c1)%nat, (1 <? c2)%nat; lia.
Qed.

Lemma countDuplicates_entries m :
  countDuplicates m = foldr (fun e acc => excess (snd e) acc) 0 (map_to_list m).
Proof.
  unfold countDuplicates. rewrite map_fold_foldr.
  generalize (map_to_list m). intros l.
  induction l as [|[k c] l IH]; simpl; [reflexivity|].
  now rewrite IH.
Qed.

Lemma excess_sum (occ : string -> nat) l :
  foldr (fun e acc => excess (snd e) acc) 0 ((fun k => (k, occ k)) <$> l)
  = sum_list (map (fun id => occ id - 1)
                  (List.filter (fun id => (1 <? occ id)%nat) l)).
Proof.
  induction l as [|k l IH]; [reflexivity|].
  rewrite fmap_cons. cbn [foldr List.filter snd]. rewrite IH. unfold excess.
  destruct (1 <? occ k)%nat; simpl; lia.
Qed.

Lemma countDuplicates_tally ids :
  countDuplicates (tally ids ∅)
  = sum_list (map (fun id => occurrences id ids - 1)
                (List.filter (fun id => (1 <? occurrences id ids)%nat)
                             (remove_dups ids))).
Proof.
  rewrite countDuplicates_entries, <- (excess_sum (fun k => occurrences k ids)).
  apply (foldr_permutation (=)).
  - intros e x y ->. reflexivity.
  - intros. apply excess_comm.
  - apply tally_entries.
Qed.

Lemma countDuplicates_rows (Date_parse : string -> option Z) (clock : nat -> Z)
    (rows : list CensusRow) :
  countDuplicates (employeeIdCounts (countersOf Date_parse clock rows))
  = duplicatesSpec rows.
Proof.
  destruct (counters_counts Date_parse clock rows) as (_ & _ & _ & _ & _ & _ & Hm).
  rewrite Hm. apply countDuplicates_tally.
Qed.

Lemma identifiers_nonempty rows : EmptyString ∉ identifiers rows.
Proof.
  induction rows as [|row rows IH]; simpl; [apply not_elem_of_nil|].
  destruct (employeeId row) as [[|a id]|]; try assumption.
  apply not_elem_of_cons. split; [discriminate|assumption].
Qed.

(** C5: the duplicate count of a run is, over the non-empty identifier
    values that occur on more than one record, the sum of (number of
    occurrences - 1); records without an identifier or with the empty one
    are not among the identifiers. *)
Theorem duplicate_count_is_excess_sum (Date_parse : string -> option Z)
    (clock : nat -> Z) (rows : list CensusRow) :
  duplicateIdCount Date_parse clock rows = duplicatesSpec rows
  /\ EmptyString ∉ identifiers rows.
Proof.
  split.
  - apply countDuplicates_rows.
  - apply identifiers_nonempty.
Qed.

(** A record without an identifier, or with the empty one, leaves the
    duplicate count as it is. *)
Lemma duplicates_ignore_blank_ids (Date_parse : string -> option Z)
    (clock clock' : nat -> Z) (row : CensusRow) (rows : list CensusRow) :
  present (employeeId row) = false ->
  duplicateIdCount Date_parse clock (row :: rows)
  = duplicateIdCount Date_parse clock' rows.
Proof.
  intros Hid. unfold duplicateIdCount. rewrite !countDuplicates_rows.
  unfold duplicatesSpec. simpl identifiers.
  destruct (employeeId row) as [[|a id]|]; [reflexivity|discriminate|reflexivity].
Qed.

Example duplicate_count_example :
  identifiers Examples.repeatedIds = ["A"; "B"; "A"; "A"]
  /\ occurrences "A" (identifiers Examples.repeatedIds) = 3
  /\ occurrences "B" (identifiers Examples.repeatedIds) = 1
  /\ duplicateIdCount IsoHost.Date_parse (IsoHost.at_ Examples.jan20)
       Examples.repeatedIds = 2.
Proof. vm_compute. repeat split. Qed.

(** ** The host of the examples *)

Example Date_parse_epoch : IsoHost.Date_parse "1970-01-01" = Some 0%Z.
Proof. reflexivity. Qed.

Example Date_parse_days :
  IsoHost.Date_parse "2024-01-20" = Some Examples.jan20
  /\ IsoHost.Date_parse "2024-03-20" = Some Examples.mar20
  /\ IsoHost.Date_parse "unknown" = None.
Proof. vm_compute. repeat split. Qed.

(** Hired on 2024-01-10: 10 days before 2024-01-20, 70 days before
    2024-03-20. *)
Example getDaysSince_new_hire :
  getDaysSince IsoHost.Date_parse Examples.jan20 (Some "2024-01-10") = 10%Z
  /\ getDaysSince IsoHost.Date_parse Examples.mar20 (Some "2024-01-10") = 70%Z
  /\ getDaysSince IsoHost.Date_parse Examples.jan20 (Some "unknown") = 9999%Z.
Proof. vm_compute. repeat split. Qed.

(** ** The fixed parts of a result *)

(** The result counts the records it was given. *)
Lemma totalEmployees_analyze (Date_parse : string -> option Z)
    (clock : nat -> Z) (rows : list CensusRow) :
  totalEmployees (analyzeCensusData Date_parse clock rows) = length rows.
Proof.
  destruct rows as [|row rows]; [reflexivity|].
  unfold analyzeCensusData. rewrite length_cons_eqb. reflexivity.
Qed.

(** C3: for no records at all the engine returns the fixed result: overall
    score 0, risk band High, the four sub-scores 0 with no issues, the
    summary "No data found in file.", no anomalies, no risk drivers and a
    predicted EOI volume of 0. *)
Theorem empty_input_result (Date_parse : string -> option Z) (clock : nat -> Z) :
  let r := analyzeCensusData Date_parse clock [] in
  overallScore r = 0%Z
  /\ riskLevel r = HighRisk
  /\ totalEmployees r = 0
  /\ completeness (subScores r) = emptySubScore "Completeness"
  /\ consistency (subScores r) = emptySubScore "Consistency"
  /\ eligibility (subScores r) = emptySubScore "Eligibility"
  /\ eoiRisk (subScores r) = emptySubScore "EOI Risk"
  /\ Forall (fun s => score s = 0%Z /\ issues s = [])
       [ completeness (subScores r); consistency (subScores r);
         eligibility (subScores r); eoiRisk (subScores r) ]
  /\ executiveSummary r = "No data found in file."
  /\ anomalies r = []
  /\ topRiskDrivers r = []
  /\ eoiVolume (predictedImpact r) = 0%Z.
Proof.
  cbv zeta. rewrite analyze_nil. simpl.
  repeat split; repeat constructor.
Qed.

(** ** Recommended actions and risk drivers *)

Lemma push_fallback {A} (x : A) l : push (length l =? 0)%nat x l ≠ [].
Proof. destruct l; discriminate. Qed.

Lemma actionsFor_nonempty ms g d v : actionsFor ms g d v ≠ [].
Proof. unfold actionsFor. apply push_fallback. Qed.

Lemma actionsFor_none : actionsFor 0 0 0 0 = [proceedAction].
Proof. reflexivity. Qed.

Lemma riskDrivers_spec g ms w v d :
  riskDrivers g ms w v d = driversSpec (driverTable g ms w v d).
Proof.
  unfold riskDrivers, driversSpec, driverTable, push.
  cbn [List.filter fst snd].
  destruct (0 <? g)%nat, (0 <? ms)%nat, (0 <? w)%nat, (0 <? v)%nat,
    (0 <? d)%nat; reflexivity.
Qed.

Lemma driversSpec_length table : length (driversSpec table) <= length table.
Proof.
  unfold driversSpec. rewrite length_map. apply List.filter_length_le.
Qed.

Lemma riskDrivers_length g ms w v d : length (riskDrivers g ms w v d) <= 5.
Proof.
  rewrite riskDrivers_spec.
  apply (driversSpec_length (driverTable g ms w v d)).
Qed.

Section Artifacts.

Context (Date_parse : string -> option Z) (clock : nat -> Z).

Local Abbreviation analyze := (analyzeCensusData Date_parse clock).
Local Abbreviation counters := (countersOf Date_parse clock).

Lemma recommendedActions_analyze row rows :
  let c := counters (row :: rows) in
  recommendedActions (analyze (row :: rows))
  = actionsFor (missingSalaryCount c) (employeesExceedingGI c)
      (countDuplicates (employeeIdCounts c)) (volMultiOverMaxCount c).
Proof.
  intros. unfold analyzeCensusData. rewrite length_cons_eqb. reflexivity.
Qed.

Lemma topRiskDrivers_analyze row rows :
  let c := counters (row :: rows) in
  topRiskDrivers (analyze (row :: rows))
  = riskDrivers (employeesExceedingGI c) (missingSalaryCount c)
      (waitingPeriodCount c) (volMultiOverMaxCount c)
      (countDuplicates (employeeIdCounts c)).
Proof.
  intros. unfold analyzeCensusData. rewrite length_cons_eqb.
  cbn [topRiskDrivers]. apply take_ge, riskDrivers_length.
Qed.

End Artifacts.

(** C4, as the code has it: for at least one record the list of
    recommended actions is not empty, and when no record is missing a
    salary, none exceeds the guaranteed issue, no identifier is duplicated
    and no voluntary multiple is over the maximum, it is the single action
    General / Proceed to enrollment; for no records at all the list is
    empty. *)
Theorem recommended_actions_nonempty (Date_parse : string -> option Z)
    (clock : nat -> Z) (rows : list CensusRow) :
  rows ≠ [] ->
  let actions := recommendedActions (analyzeCensusData Date_parse clock rows) in
  actions ≠ []
  /\ (countRows missingSalary rows = 0 -> countRows exceedsGI rows = 0 ->
      duplicatesSpec rows = 0 -> countRows volOverMax rows = 0 ->
      actions = [proceedAction])
  /\ recommendedActions (analyzeCensusData Date_parse clock []) = [].
Proof.
  intros Hrows. destruct rows as [|row rows]; [contradiction|].
  cbv zeta. rewrite recommendedActions_analyze. cbv zeta.
  repeat split.
  - apply actionsFor_nonempty.
  - intros Hms Hg Hd Hv.
    destruct (counters_counts Date_parse clock (row :: rows))
      as (-> & _ & -> & _ & _ & -> & _).
    rewrite countDuplicates_rows, Hms, Hg, Hd, Hv. apply actionsFor_none.
Qed.

Lemma recommended_actions_nonempty_witness :
  [Examples.plain "E1"] ≠ []
  /\ recommendedActions
       (analyzeCensusData IsoHost.Date_parse (IsoHost.at_ Examples.jan20)
          [Examples.plain "E1"])
     = [proceedAction].
Proof.
  split; [discriminate|].
  apply (recommended_actions_nonempty IsoHost.Date_parse
           (IsoHost.at_ Examples.jan20) [Examples.plain "E1"]);
    [discriminate | reflexivity ..].
Defined.

(** C4 as stated fails on the empty record sequence: its list of
    recommended actions is empty. *)
Lemma recommended_actions_empty_for_no_records :
  recommendedActions
    (analyzeCensusData IsoHost.Date_parse (IsoHost.at_ Examples.jan20) []) = []
  /\ ~ (forall rows : list CensusRow,
          recommendedActions
            (analyzeCensusData IsoHost.Date_parse (IsoHost.at_ Examples.jan20) rows)
          ≠ []).
Proof.
  split; [reflexivity|].
  intros Hall. now apply (Hall []).
Qed.

(** C6: for at least one record, the top risk drivers are the entries of
    the table (guaranteed-issue count, missing-salary count, waiting-period
    count, over-maximum count, duplicate count) whose count is positive, in
    that order, each with its count written out; there are at most 5, and
    exactly the 5 in that order when all five counts are positive. *)
Theorem risk_drivers_fixed_order (Date_parse : string -> option Z)
    (clock : nat -> Z) (rows : list CensusRow) :
  rows ≠ [] ->
  let g := countRows exceedsGI rows in
  let ms := countRows missingSalary rows in
  let w := countTimedFrom (inWaitingPeriod Date_parse) clock 0 rows in
  let v := countRows volOverMax rows in
  let d := duplicatesSpec rows in
  let drivers := topRiskDrivers (analyzeCensusData Date_parse clock rows) in
  drivers = driversSpec (driverTable g ms w v d)
  /\ length drivers <= 5
  /\ (0 < g -> 0 < ms -> 0 < w -> 0 < v -> 0 < d ->
      drivers =
        [ show g ++ " employees exceed GI ($150k) → EOI required";
          show ms ++ " missing salary records";
          show w ++ " employees in waiting period";
          show v ++ " coverage elections exceeding plan max (5x)";
          show d ++ " duplicate IDs" ]).
Proof.
  intros Hrows. destruct rows as [|row rows]; [contradiction|].
  cbv zeta. rewrite topRiskDrivers_analyze. cbv zeta.
  destruct (counters_counts Date_parse clock (row :: rows))
    as (-> & _ & -> & _ & -> & -> & _).
  rewrite countDuplicates_rows.
  repeat split.
  - apply riskDrivers_spec.
  - apply riskDrivers_length.
  - intros Hg Hms Hw Hv Hd. unfold riskDrivers, push.
    apply Nat.ltb_lt in Hg, Hms, Hw, Hv, Hd.
    rewrite Hg, Hms, Hw, Hv, Hd. reflexivity.
Qed.

Lemma risk_drivers_fixed_order_witness :
  Examples.fiveDrivers ≠ []
  /\ topRiskDrivers
       (analyzeCensusData IsoHost.Date_parse (IsoHost.at_ Examples.jan20)
          Examples.fiveDrivers)
     = [ "1 employees exceed GI ($150k) → EOI required";
         "1 missing salary records";
         "1 employees in waiting period";
         "1 coverage elections exceeding plan max (5x)";
         "1 duplicate IDs" ].
Proof.
  split; [discriminate|].
  apply (risk_drivers_fixed_order IsoHost.Date_parse
           (IsoHost.at_ Examples.jan20) Examples.fiveDrivers);
    [discriminate | vm_compute; lia ..].
Defined.

(** ** Monetary parsing *)

Example parseFloat_forms :
  JS.parseFloat "  -3.25e2 per year" = JS.Fin (-325)
  /\ JS.parseFloat ".5" = JS.Fin (1 # 2)
  /\ JS.parseFloat "5." = JS.Fin 5
  /\ JS.parseFloat "1e" = JS.Fin 1
  /\ JS.parseFloat "-Infinity" = JS.Inf true
  /\ JS.parseFloat "." = JS.NaN
  /\ JS.parseFloat "undefined" = JS.NaN
  /\ JS.parseFloat "" = JS.NaN.
Proof. vm_compute. repeat split. Qed.

(** Beyond the largest double a text reads as an infinity, and below the
    smallest as zero. *)
Example parseFloat_limits :
  JS.parseFloat "1e309" = JS.Inf false
  /\ JS.parseFloat "1e-400" = JS.Fin 0
  /\ JS.parseFloat "0.1" = JS.Fin (JS.lit 0.1).
Proof. vm_compute. repeat split. Qed.

Lemma moneyChar_kept c : moneyChar c = keptInAmount c.
Proof. destruct c as [[] [] [] [] [] [] [] []]; reflexivity. Qed.

Lemma isDigit_decimal c : JS.isDigit c = decimalDigit c.
Proof. destruct c as [[] [] [] [] [] [] [] []]; reflexivity. Qed.

Lemma fin_not_NaN q : JS.fin q ≠ JS.NaN.
Proof. unfold JS.fin. destruct (Binary64.overflows _); discriminate. Qed.

(** The part of [parseFloat] that reads the digits gives [NaN] exactly
    on a text that does not start with a number. *)
Lemma number_body_NaN (neg : bool) (s1 : string) :
  (let '(ip, r1) := JS.spanDigits s1 in
   let '(fp, r2) :=
     match r1 with
     | String "." r => let '(fp, r') := JS.spanDigits r in (fp, r')
     | _ => (EmptyString, r1)
     end in
   match ip, fp with
   | EmptyString, EmptyString => JS.NaN
   | _, _ =>
       let '(e, _) := JS.spanExponent r2 in
       let m := JS.digitsValue (ip ++ fp) in
       let v := (inject_Z m * JS.pow10 (e - Z.of_nat (String.length fp)))%Q in
       JS.fin (if neg then - v else v)
   end) = JS.NaN <-> startsNumber s1 = false.
Proof.
  destruct s1 as [|c r]; [now split|].
  cbn [JS.spanDigits startsNumber]. rewrite <- isDigit_decimal.
  destruct (JS.isDigit c) eqn:Hc.
  - destruct (JS.spanDigits r) as [d r1].
    split; [|discriminate]. intros H. exfalso. revert H.
    destruct r1 as [|c1 r1'].
    + destruct (JS.spanExponent ""). apply fin_not_NaN.
    + destruct (Ascii.eqb_spec c1 ".") as [->|Hne].
      * destruct (JS.spanDigits r1') as [fp r2]. destruct (JS.spanExponent r2).
        apply fin_not_NaN.
      * assert (E : match String c1 r1' with
                    | String "." r0 => let '(fp, r') := JS.spanDigits r0 in (fp, r')
                    | _ => (EmptyString, String c1 r1')
                    end = (EmptyString, String c1 r1')).
        { destruct c1 as [[] [] [] [] [] [] [] []]; try reflexivity.
          exfalso. apply Hne. reflexivity. }
        rewrite E. destruct (JS.spanExponent (String c1 r1')). apply fin_not_NaN.
  - cbn [orb]. destruct (Ascii.eqb_spec c ".") as [->|Hne].
    + cbn [andb]. destruct r as [|d r']; [now split|].
      cbn [JS.spanDigits]. rewrite <- isDigit_decimal.
      destruct (JS.isDigit d) eqn:Hd.
      * destruct (JS.spanDigits r') as [fp r2]. destruct (JS.spanExponent r2).
        split; [|discriminate]. intros H. now apply fin_not_NaN in H.
      * now split.
    + assert (E : match String c r with
                  | String "." r0 => let '(fp, r') := JS.spanDigits r0 in (fp, r')
                  | _ => (EmptyString, String c r)
                  end = (EmptyString, String c r)).
      { destruct c as [[] [] [] [] [] [] [] []]; try reflexivity.
        exfalso. apply Hne. reflexivity. }
      rewrite E. now split.
Qed.

Lemma kept_cases c :
  keptInAmount c = true ->
  In c amountChars.
Proof.
  unfold keptInAmount. intros H. apply existsb_exists in H as (x & Hx & E).
  apply Ascii.eqb_eq in E. now subst.
Qed.

Lemma kept_not_space c r :
  keptInAmount c = true -> JS.trimStart (String c r) = String c r.
Proof.
  intros H. apply kept_cases in H. unfold JS.trimStart.
  cbn [String.length JS.trimStartFuel].
  assert (E : JS.dropAnyPrefix JS.whiteSpace (String c r) = None).
  { simpl in H. repeat (destruct H as [<-|H]; [reflexivity|]). contradiction. }
  now rewrite E.
Qed.

Lemma parseFloat_kept t :
  forallb keptInAmount (list_ascii_of_string t) = true ->
  JS.parseFloat t = JS.NaN <-> readsAsNumber t = false.
Proof.
  intros Hall. destruct t as [|c r]; [now split|].
  simpl in Hall. apply andb_prop in Hall as [Hc Hr].
  unfold JS.parseFloat. rewrite (kept_not_space c r Hc).
  pose proof (kept_cases c Hc) as Hin. cbn [readsAsNumber].
  destruct (Ascii.eqb_spec c "-") as [->|Hne].
  - cbn [JS.spanSign].
    assert (E : JS.dropPrefix "Infinity" r = None).
    { destruct r as [|c2 r2]; [reflexivity|].
      simpl in Hr. apply andb_prop in Hr as [Hc2 _]. apply kept_cases in Hc2.
      simpl in Hc2. repeat (destruct Hc2 as [<-|Hc2]; [reflexivity|]). contradiction. }
    rewrite E. cbv iota beta. first [exact (number_body_NaN true r) | exact (number_body_NaN false (String c r))].
  - assert (Es : JS.spanSign (String c r) = (false, String c r)).
    { simpl in Hin. repeat (destruct Hin as [<-|Hin]; [try reflexivity; congruence|]).
      contradiction. }
    rewrite Es.
    assert (E : JS.dropPrefix "Infinity" (String c r) = None).
    { simpl in Hin. repeat (destruct Hin as [<-|Hin]; [reflexivity|]). contradiction. }
    rewrite E. cbv iota beta. first [exact (number_body_NaN true r) | exact (number_body_NaN false (String c r))].
Qed.

Lemma keepMoneyChars_skipRun s : keepMoneyChars (skipRun s) = keepMoneyChars s.
Proof.
  induction s as [|c s IH]; [reflexivity|].
  cbn [skipRun keepMoneyChars]. rewrite <- moneyChar_kept.
  destruct (moneyChar c) eqn:Hc; [|exact IH].
  cbn [keepMoneyChars]. now rewrite <- moneyChar_kept, Hc.
Qed.

Lemma replaceNonMoney_keep s : replaceNonMoney s = keepMoneyChars s.
Proof.
  funelim (replaceNonMoney s); simp replaceNonMoney; cbn [keepMoneyChars].
  - reflexivity.
  - rewrite <- moneyChar_kept, Heq. now f_equal.
  - rewrite <- moneyChar_kept, Heq. now rewrite H, keepMoneyChars_skipRun.
Qed.

Lemma keepMoneyChars_allowed s :
  forallb keptInAmount (list_ascii_of_string (keepMoneyChars s)) = true.
Proof.
  induction s as [|c s IH]; [reflexivity|].
  cbn [keepMoneyChars]. destruct (keptInAmount c) eqn:Hc; [|exact IH].
  cbn [list_ascii_of_string forallb]. now rewrite Hc.
Qed.

Lemma parseFloat_shape t :
  JS.parseFloat t = JS.NaN
  \/ (exists neg, JS.parseFloat t = JS.Inf neg)
  \/ (exists x, JS.parseFloat t = JS.fin x).
Proof.
  unfold JS.parseFloat.
  destruct (JS.spanSign (JS.trimStart t)) as [neg s1].
  destruct (JS.dropPrefix "Infinity" s1); [right; left; eauto|].
  destruct (JS.spanDigits s1) as [ip r1].
  destruct (match r1 with
            | String "." r => let '(fp, r') := JS.spanDigits r in (fp, r')
            | _ => (EmptyString, r1)
            end) as [fp r2].
  destruct (JS.spanExponent r2) as [e r3].
  destruct ip, fp; [now left|right; right; eauto..].
Qed.

Lemma rnd_zero_num q : Qnum (Binary64.rnd q) = 0%Z -> Binary64.rnd q = 0%Q.
Proof.
  unfold Binary64.rnd. set (y := match (q ?= 0)%Q with Eq => _ | _ => _ end).
  intros H. rewrite <- (Qred_complete _ _ (Qred_correct y)).
  change 0%Q with (Qred 0). apply Qred_complete.
  unfold Qeq. rewrite H. reflexivity.
Qed.

(** [|| 0] changes nothing but [NaN] in what [parseFloat] returns. *)
Lemma orZero_parseFloat t :
  JS.orZero (JS.parseFloat t)
  = match JS.parseFloat t with
    | JS.NaN => JS.zero
    | v => v
    end.
Proof.
  destruct (parseFloat_shape t) as [->|[[neg ->]|[x ->]]]; try reflexivity.
  unfold JS.fin, JS.orZero. destruct (Binary64.overflows _); [reflexivity|].
  cbn [JS.truthy]. unfold JS.Qis_zero.
  destruct (Z.eqb_spec (Qnum (Binary64.rnd x)) 0) as [E|_]; [|reflexivity].
  cbn [negb]. unfold JS.zero. now rewrite (rnd_zero_num x E).
Qed.

(** C9: monetary parsing returns a number as it is; for a text it drops
    every character other than digits, [.] and [-], reads what is left as
    a floating-point number, and returns 0 when the text is empty or what
    is left does not read as a number.  The characters kept are those
    that the specification lists; what is left does not read as a number
    exactly when, after a minus sign if there is one, it starts neither
    with a digit nor with a point and a digit; and a number is read from
    the start of what is left as far as it goes. *)
Theorem parseMoney_spec :
  (forall x : JS.number, parseMoney (Num x) = x)
  /\ (forall s : string, replaceNonMoney s = keepMoneyChars s)
  /\ (forall s : string, parseMoney (Str s) = parseMoneySpec s)
  /\ parseMoney (Str EmptyString) = JS.zero
  /\ (forall s : string,
        JS.parseFloat (keepMoneyChars s) = JS.NaN
        <-> readsAsNumber (keepMoneyChars s) = false)
  /\ (forall s : string,
        readsAsNumber (keepMoneyChars s) = false -> parseMoney (Str s) = JS.zero)
  /\ parseMoney (Str "$1,234.50") = JS.Fin (2469 # 2)
  /\ parseMoney (Str "-500") = JS.Fin (-500)
  /\ parseMoney (Str " 12.5 ") = JS.Fin (25 # 2)
  /\ parseMoney (Str "10-20") = JS.Fin 10.
Proof.
  assert (Hstr : forall s, parseMoney (Str s) = parseMoneySpec s).
  { intros [|c s]; [reflexivity|].
    unfold parseMoney, parseMoneySpec. rewrite replaceNonMoney_keep.
    apply orZero_parseFloat. }
  assert (Hnan : forall s, JS.parseFloat (keepMoneyChars s) = JS.NaN
                           <-> readsAsNumber (keepMoneyChars s) = false)
    by (intros s; apply parseFloat_kept, keepMoneyChars_allowed).
  split; [reflexivity|]. split; [apply replaceNonMoney_keep|].
  split; [exact Hstr|]. split; [reflexivity|]. split; [exact Hnan|].
  split; [|repeat split; vm_compute; reflexivity].
  intros s Hs. apply Hnan in Hs. rewrite Hstr. unfold parseMoneySpec. now rewrite Hs.
Qed.

Lemma parseMoney_spec_witness :
  readsAsNumber (keepMoneyChars "USD -.-") = false
  /\ parseMoney (Str "USD -.-") = JS.zero.
Proof.
  split; [reflexivity|].
  apply (proj1 (proj2 (proj2 (proj2 (proj2 (proj2 parseMoney_spec))))) "USD -.-").
  reflexivity.
Defined.

Example parseMoney_currency : parseMoney (Str "$1,234.50") = JS.Fin (2469 # 2).
Proof. reflexivity. Qed.

Example parseMoney_blank : parseMoney (Str " ") = JS.zero.
Proof. reflexivity. Qed.

Example parseMoney_undefined : parseMoney Undefined = JS.zero.
Proof. reflexivity. Qed.

Example parseMoney_number_NaN : parseMoney (Num JS.NaN) = JS.NaN.
Proof. reflexivity. Qed.

(** Only the longest numeric prefix of what is left counts. *)
Example parseMoney_range : parseMoney (Str "10-20") = JS.Fin 10.
Proof. reflexivity. Qed.

(** ** Monotonicity in the missing-salary count *)

Lemma num_le a b : a <= b -> (num a <= num b)%Q.
Proof.
  intros H. unfold num. rewrite <- Zle_Qle. lia.
Qed.

Lemma num_nonneg a : (0 <= num a)%Q.
Proof. apply (num_le 0 a). lia. Qed.

Lemma Qle_bool_false x y : Qle_bool x y = false -> (y < x)%Q.
Proof.
  intros H. apply Qnot_le_lt. intros Hle.
  apply Qle_bool_iff in Hle. congruence.
Qed.

Lemma densityAdj_antitone (d d' t1 t2 : Q) :
  (d <= d')%Q ->
  ((if Qle_bool d' t1 then 15 else if Qle_bool d' t2 then 10 else 0)
   <= (if Qle_bool d t1 then 15 else if Qle_bool d t2 then 10 else 0))%Q.
Proof.
  intros Hd.
  destruct (Qle_bool d' t1) eqn:H1'; destruct (Qle_bool d t1) eqn:H1;
    destruct (Qle_bool d' t2) eqn:H2'; destruct (Qle_bool d t2) eqn:H2;
    repeat match goal with
           | H : Qle_bool _ _ = true |- _ => apply Qle_bool_iff in H
           | H : Qle_bool _ _ = false |- _ => apply Qle_bool_false in H
           end;
    lra.
Qed.

Lemma completenessScore_antitone total md ms ms' :
  ms <= ms' ->
  (completenessScore total ms' md <= completenessScore total ms md)%Q.
Proof.
  intros Hle. unfold completenessScore. apply clamp_mono.
  pose proof (num_le _ _ Hle) as Hn.
  assert (H5 : (0 <= inject_Z PENALTY_MISSING_SALARY)%Q) by discriminate.
  apply fadd_mono.
  - apply fsub_mono; [apply Qle_refl|].
    apply fadd_mono; [|apply Qle_refl]. now apply fmul_mono_r.
  - apply densityAdj_antitone.
    apply fdiv_mono_r; [apply num_nonneg|].
    apply fadd_mono; [exact Hn|apply Qle_refl].
Qed.

Lemma eoiScore_antitone total g ms ms' :
  ms <= ms' -> (eoiScore total g ms' <= eoiScore total g ms)%Q.
Proof.
  intros Hle. unfold eoiScore. apply clamp_mono.
  pose proof (num_le _ _ Hle) as Hn.
  apply fsub_mono; [apply Qle_refl|].
  apply fmul_mono_r; [discriminate|exact Hn].
Qed.

(** C8: with the number of records (at least one) and the other counts
    fixed, a larger missing-salary count never gives a larger Completeness
    or EOI-Risk sub-score, whether as computed or as reported after
    rounding. *)
Theorem scores_antitone_in_missing_salary (total missingDob exceedingGI ms ms' : nat) :
  0 < total ->
  ms <= ms' ->
  (completenessScore total ms' missingDob <= completenessScore total ms missingDob)%Q
  /\ (eoiScore total exceedingGI ms' <= eoiScore total exceedingGI ms)%Q
  /\ (JS.round (completenessScore total ms' missingDob)
      <= JS.round (completenessScore total ms missingDob))%Z
  /\ (JS.round (eoiScore total exceedingGI ms')
      <= JS.round (eoiScore total exceedingGI ms))%Z.
Proof.
  intros _ Hle.
  pose proof (completenessScore_antitone total missingDob ms ms' Hle).
  pose proof (eoiScore_antitone total exceedingGI ms ms' Hle).
  auto using round_mono.
Qed.

Lemma scores_antitone_in_missing_salary_witness :
  0 < 10 /\ 2 <= 3
  /\ (JS.round (completenessScore 10 3 1) <= JS.round (completenessScore 10 2 1))%Z
  /\ (JS.round (eoiScore 10 0 3) <= JS.round (eoiScore 10 0 2))%Z.
Proof.
  assert (H0 : 0 < 10) by lia.
  assert (H : 2 <= 3) by lia.
  split; [exact H0|]. split; [exact H|].
  split; apply (scores_antitone_in_missing_salary 10 1 0 2 3 H0 H).
Defined.

(** The same on the results of the engine: of two record sequences of the
    same length that agree on the other counts, the one with more missing
    salaries reports no higher Completeness and EOI-Risk scores. *)
Corollary more_missing_salaries_no_higher_scores
    (Date_parse : string -> option Z) (clock clock' : nat -> Z)
    (rows rows' : list CensusRow) :
  rows ≠ [] ->
  length rows = length rows' ->
  countRows (missingDob Date_parse) rows = countRows (missingDob Date_parse) rows' ->
  countRows exceedsGI rows = countRows exceedsGI rows' ->
  countRows missingSalary rows <= countRows missingSalary rows' ->
  let r := analyzeCensusData Date_parse clock rows in
  let r' := analyzeCensusData Date_parse clock' rows' in
  (score (completeness (subScores r')) <= score (completeness (subScores r)))%Z
  /\ (score (eoiRisk (subScores r')) <= score (eoiRisk (subScores r)))%Z.
Proof.
  intros Hrows Hn Hmd Hg Hms.
  assert (Hrows' : rows' ≠ []) by (intros ->; destruct rows; [auto|discriminate]).
  cbv zeta.
  destruct (scores_counts Date_parse clock rows Hrows) as (_ & -> & _ & _ & ->).
  destruct (scores_counts Date_parse clock' rows' Hrows') as (_ & -> & _ & _ & ->).
  rewrite <- Hn, <- Hmd, <- Hg.
  split; apply round_mono;
    [apply completenessScore_antitone|apply eoiScore_antitone]; exact Hms.
Qed.

(** ** The worked example *)

(** C7, as the code has it: ten records of which exactly two are missing a
    salary (their parsed salary is not greater than 0) and exactly one has
    no usable date of birth, with no other condition met, score
    Completeness 86, Consistency 100, Eligibility 100, EOI Risk 94 and 95
    overall, in the Low band. *)
Theorem worked_example_scores (Date_parse : string -> option Z)
    (clock : nat -> Z) (rows : list CensusRow) :
  length rows = 10 ->
  countRows missingSalary rows = 2 ->
  countRows (missingDob Date_parse) rows = 1 ->
  countRows volOverMax rows = 0 ->
  countRows coverageWithoutSalary rows = 0 ->
  countTimedFrom (inWaitingPeriod Date_parse) clock 0 rows = 0 ->
  countRows exceedsGI rows = 0 ->
  duplicatesSpec rows = 0 ->
  let r := analyzeCensusData Date_parse clock rows in
  scoresOf r = [95; 86; 100; 100; 94]%Z /\ riskLevel r = LowRisk.
Proof.
  intros Hn Hms Hmd Hv Hz Hw Hg _.
  assert (Hrows : rows ≠ []) by (intros ->; discriminate).
  cbv zeta.
  destruct (scores_counts Date_parse clock rows Hrows) as (Ho & Hc & Hs & He & Hr).
  cbv zeta in Ho, Hc, Hs, He, Hr.
  split.
  - unfold scoresOf. rewrite Ho, Hc, Hs, He, Hr.
    rewrite Hn, Hms, Hmd, Hv, Hz, Hw, Hg. vm_compute. reflexivity.
  - rewrite riskLevel_analyze, Ho by assumption.
    rewrite Hn, Hms, Hmd, Hv, Hz, Hw, Hg. vm_compute. reflexivity.
Qed.

Lemma worked_example_scores_witness :
  let r := analyzeCensusData IsoHost.Date_parse (IsoHost.at_ Examples.jan20)
             Examples.tenRecords in
  scoresOf r = [95; 86; 100; 100; 94]%Z /\ riskLevel r = LowRisk.
Proof.
  apply (worked_example_scores IsoHost.Date_parse (IsoHost.at_ Examples.jan20)
           Examples.tenRecords); vm_compute; reflexivity.
Defined.

(** C7 as stated fails when a salary is the number NaN: of these ten
    records exactly two have a parsed salary [<= 0], one has no usable
    date of birth and no other condition of the claim is met, yet three
    records count as missing a salary and Completeness is 81, EOI Risk 91
    and the overall score 93. *)
Lemma worked_example_fails_with_NaN_salary :
  let rows := Examples.tenRecordsOneNaN in
  let r := analyzeCensusData IsoHost.Date_parse (IsoHost.at_ Examples.jan20) rows in
  length rows = 10
  /\ countRows salaryAtMostZero rows = 2
  /\ countRows (missingDob IsoHost.Date_parse) rows = 1
  /\ countRows volOverMax rows = 0
  /\ countRows coverageWithoutSalary rows = 0
  /\ countTimedFrom (inWaitingPeriod IsoHost.Date_parse)
       (IsoHost.at_ Examples.jan20) 0 rows = 0
  /\ countRows exceedsGI rows = 0
  /\ duplicatesSpec rows = 0
  /\ scoresOf r = [93; 81; 100; 100; 91]%Z
  /\ scoresOf r ≠ [95; 86; 100; 100; 94]%Z.
Proof.
  cbv zeta. repeat split; try (vm_compute; reflexivity).
  vm_compute. discriminate.
Qed.

(** ** Rounding of the overall score *)



(** ** The clock *)

Section Clock.

Context (Date_parse : string -> option Z).

Lemma visit_same_verdict now1 now2 c row :
  inWaitingPeriod Date_parse now1 row = inWaitingPeriod Date_parse now2 row ->
  visit Date_parse now1 c row = visit Date_parse now2 c row.
Proof.
  intros H. unfold visit. unfold inWaitingPeriod in H. now rewrite H.
Qed.

Lemma forEachFrom_same_verdicts clock1 clock2 rows : forall i c,
  (forall j row, rows !! j = Some row ->
     inWaitingPeriod Date_parse (clock1 (i + j)) row
     = inWaitingPeriod Date_parse (clock2 (i + j)) row) ->
  forEachFrom Date_parse clock1 i c rows = forEachFrom Date_parse clock2 i c rows.
Proof.
  induction rows as [|row rows IH]; intros i c H; [reflexivity|].
  simpl. rewrite (visit_same_verdict (clock1 i) (clock2 i)).
  - apply IH. intros j r Hj.
    replace (S i + j) with (i + S j) by lia. now apply H.
  - specialize (H 0 row eq_refl). now rewrite Nat.add_0_r in H.
Qed.

End Clock.

(** C2, as the code has it: the engine returns a result for every record
    sequence, and two runs on the same sequence return the same result as
    soon as their clock readings put the same records inside the waiting
    period, in particular when the readings are the same. *)
Theorem same_waiting_verdicts_same_result (Date_parse : string -> option Z)
    (clock1 clock2 : nat -> Z) (rows : list CensusRow) :
  (forall i row, rows !! i = Some row ->
     inWaitingPeriod Date_parse (clock1 i) row
     = inWaitingPeriod Date_parse (clock2 i) row) ->
  analyzeCensusData Date_parse clock1 rows
  = analyzeCensusData Date_parse clock2 rows.
Proof.
  intros H. unfold analyzeCensusData.
  now rewrite (forEachFrom_same_verdicts Date_parse clock1 clock2 rows 0 noCounts).
Qed.

Lemma same_waiting_verdicts_same_result_witness :
  analyzeCensusData IsoHost.Date_parse (IsoHost.at_ Examples.jan20)
    Examples.withNewHire
  = analyzeCensusData IsoHost.Date_parse (IsoHost.at_ (Examples.jan20 + 3600000))
      Examples.withNewHire.
Proof.
  apply (same_waiting_verdicts_same_result IsoHost.Date_parse
           (IsoHost.at_ Examples.jan20) (IsoHost.at_ (Examples.jan20 + 3600000))
           Examples.withNewHire).
  intros [|[|i]] row Hrow; simpl in Hrow; try discriminate;
    injection Hrow as <-; vm_compute; reflexivity.
Defined.

(** The same readings give the same result. *)
Corollary same_clock_same_result (Date_parse : string -> option Z)
    (clock1 clock2 : nat -> Z) (rows : list CensusRow) :
  (forall i, clock1 i = clock2 i) ->
  analyzeCensusData Date_parse clock1 rows
  = analyzeCensusData Date_parse clock2 rows.
Proof.
  intros H. unfold analyzeCensusData.
  rewrite (forEachFrom_same_verdicts Date_parse clock1 clock2 rows 0 noCounts);
    [reflexivity|].
  intros j row _. simpl. now rewrite H.
Qed.

(** C2 as stated fails: the same record sequence analysed on 2024-01-20
    and again on 2024-03-20 gives two different results, because a record
    hired on 2024-01-10 is inside the waiting period on the first day only
    (Eligibility 95 and overall score 99, against 100 and 100). *)
Lemma runs_at_different_moments_differ :
  let run1 := analyzeCensusData IsoHost.Date_parse (IsoHost.at_ Examples.jan20)
                Examples.withNewHire in
  let run2 := analyzeCensusData IsoHost.Date_parse (IsoHost.at_ Examples.mar20)
                Examples.withNewHire in
  scoresOf run1 = [99; 100; 100; 95; 100]%Z
  /\ scoresOf run2 = [100; 100; 100; 100; 100]%Z
  /\ topRiskDrivers run1 = ["1 employees in waiting period"]
  /\ topRiskDrivers run2 = []
  /\ run1 ≠ run2.
Proof.
  cbv zeta. repeat split; try (vm_compute; reflexivity).
  intros Heq. apply (f_equal topRiskDrivers) in Heq.
  vm_compute in Heq. discriminate.
Qed.

(** * Further properties of the code *)

(** ** Numbers that binary64 holds exactly *)

Module Binary64Exact.

Import Binary64 Binary64Facts.
Local Open Scope Q_scope.

Lemma rne_eq q k : q == inject_Z k -> rne q = k.
Proof.
  intros H. apply Z.le_antisymm.
  - apply rne_le_Z. rewrite H. apply Qle_refl.
  - apply rne_ge_Z. rewrite H. apply Qle_refl.
Qed.

Lemma pow2_sub a b : pow2 (a - b) == pow2 a / pow2 b.
Proof.
  pose proof (pow2_pos b) as Hb.
  replace a with ((a - b) + b)%Z at 2 by lia. rewrite pow2_add.
  field. intros E. rewrite E in Hb. lra.
Qed.

(** A positive multiple of the last place is kept. *)
Lemma rndPos_exact q m e :
  0 < q -> q == inject_Z m * pow2 e -> (quantum q <= e)%Z -> rndPos q == q.
Proof.
  intros Hq Hm He. unfold rndPos.
  remember (quantum q) as k eqn:Ek. clear Ek.
  pose proof (pow2_pos k) as Hp.
  assert (Hk : q / pow2 k == inject_Z (m * 2 ^ (e - k))).
  { rewrite inject_Z_mult, <- (pow2_nat (e - k)) by lia.
    rewrite pow2_sub, Hm. field. intros E. rewrite E in Hp. lra. }
  rewrite (rne_eq _ _ Hk), <- Hk. field.
  intros E. rewrite E in Hp. lra.
Qed.

Lemma quantum_le q m e :
  0 < q -> q == inject_Z m * pow2 e -> (m < 2 ^ 53)%Z -> (-1074 <= e)%Z ->
  (quantum q <= e)%Z.
Proof.
  intros Hq Hm Hlt He. unfold quantum.
  destruct (binade_spec q Hq) as [Hlo _].
  assert (Hup : q < pow2 (e + 53)).
  { rewrite Hm, pow2_add, (pow2_nat 53) by lia.
    rewrite (Qmult_comm (pow2 e)).
    apply Qmult_lt_compat_r; [apply pow2_pos|].
    rewrite <- Zlt_Qlt. exact Hlt. }
  assert (binade q < e + 53)%Z.
  { apply pow2_lt_inv. eapply Qle_lt_trans; eassumption. }
  lia.
Qed.

(** [m * 2^e] with [|m| < 2^53] and [e >= -1074] is a double. *)
Lemma rnd_exact q m e :
  q == inject_Z m * pow2 e -> (Z.abs m < 2 ^ 53)%Z -> (-1074 <= e)%Z ->
  rnd q == q.
Proof.
  intros Hm Hlt He.
  destruct (Qlt_le_dec 0 q) as [Hpos|Hle].
  - rewrite rnd_pos by exact Hpos.
    apply (rndPos_exact q m e Hpos Hm).
    apply (quantum_le q m e); trivial; lia.
  - destruct (Qle_lt_or_eq _ _ Hle) as [Hneg|Hz].
    + rewrite rnd_neg by exact Hneg.
      assert (Hm' : - q == inject_Z (- m) * pow2 e).
      { rewrite inject_Z_opp, Hm. ring. }
      assert (Hq' : 0 < - q) by lra.
      rewrite (rndPos_exact (- q) (- m) e Hq' Hm'); [ring|].
      apply (quantum_le (- q) (- m) e); trivial; lia.
    + rewrite (rnd_zero q) by exact Hz. symmetry. exact Hz.
Qed.

Lemma Qred_Z z : Qred (inject_Z z) = inject_Z z.
Proof.
  unfold Qred, inject_Z.
  pose proof (Z.ggcd_correct_divisors z 1) as Hd.
  pose proof (Z.ggcd_gcd z 1) as Hg.
  destruct (Z.ggcd z 1) as [g [aa bb]]. simpl in *.
  rewrite Z.gcd_1_r in Hg. subst g. destruct Hd as [Ha Hb].
  assert (Ea : aa = z) by lia. assert (Eb : bb = 1%Z) by lia.
  clear Ha Hb. subst aa bb. reflexivity.
Qed.

Lemma rnd_Qred q : rnd q = Qred (rnd q).
Proof.
  unfold rnd. symmetry. apply Qred_complete, Qred_correct.
Qed.

(** An integer of magnitude below [2^53] is a double, and the rounded
    value is that integer as it stands. *)
Lemma rnd_Z q z : q == inject_Z z -> (Z.abs z < 2 ^ 53)%Z -> rnd q = inject_Z z.
Proof.
  intros Hq Hz.
  assert (H : rnd q == inject_Z z).
  { rewrite (rnd_exact q z 0); [exact Hq| |exact Hz|lia].
    rewrite Hq. unfold pow2. simpl. ring. }
  rewrite rnd_Qred. rewrite (Qred_complete _ _ H). apply Qred_Z.
Qed.

End Binary64Exact.

(** ** Three sub-scores are computed without rounding *)

Section ExactScores.

Import Binary64 Binary64Facts Binary64Exact.

Lemma two53 : (2 ^ 53 = 9007199254740992)%Z.
Proof. reflexivity. Qed.

Lemma fmul_Z a b :
  (Z.abs (a * b) < 2 ^ 53)%Z -> (inject_Z a *! inject_Z b)%js = inject_Z (a * b).
Proof.
  intros H. apply rnd_Z; [|exact H]. rewrite inject_Z_mult. reflexivity.
Qed.

Lemma fadd_Z a b :
  (Z.abs (a + b) < 2 ^ 53)%Z -> (inject_Z a +! inject_Z b)%js = inject_Z (a + b).
Proof.
  intros H. apply rnd_Z; [|exact H]. rewrite inject_Z_plus. reflexivity.
Qed.

Lemma fsub_Z a b :
  (Z.abs (a - b) < 2 ^ 53)%Z -> (inject_Z a -! inject_Z b)%js = inject_Z (a - b).
Proof.
  intros H. apply rnd_Z; [|exact H].
  unfold Z.sub. rewrite inject_Z_plus, inject_Z_opp. reflexivity.
Qed.

Lemma Qcompare_Z a b : (inject_Z a ?= inject_Z b)%Q = (a ?= b)%Z.
Proof. unfold Qcompare, inject_Z. simpl. now rewrite !Z.mul_1_r. Qed.

Lemma clamp_Z z : JS.clamp (inject_Z z) = inject_Z (clampZ z).
Proof.
  unfold JS.clamp, clampZ, Qmin, Qmax, GenericMinMax.gmin, GenericMinMax.gmax.
  change 0%Q with (inject_Z 0). change 100%Q with (inject_Z 100).
  rewrite Qcompare_Z.
  destruct (Z.compare_spec 0 z) as [E|L|G].
  - subst z. reflexivity.
  - rewrite Qcompare_Z. rewrite (Z.max_r 0 z) by lia.
    destruct (Z.compare_spec 100 z) as [E'|L'|G'].
    + subst z. reflexivity.
    + now rewrite Z.min_l by lia.
    + now rewrite Z.min_r by lia.
  - rewrite (Z.max_l 0 z) by lia. reflexivity.
Qed.

Lemma round_Z z : JS.round (inject_Z z) = z.
Proof.
  unfold JS.round.
  pose proof (Qfloor_le (inject_Z z + (1 # 2))) as Hlo.
  pose proof (Qlt_floor (inject_Z z + (1 # 2))) as Hhi.
  set (f := Qfloor (inject_Z z + (1 # 2))) in *.
  rewrite inject_Z_plus in Hhi. change (inject_Z 1) with 1%Q in Hhi.
  destruct (Z.lt_trichotomy f z) as [L|[E|G]]; [|exact E|].
  - assert (H : (inject_Z (f + 1) <= inject_Z z)%Q) by (rewrite <- Zle_Qle; lia).
    rewrite inject_Z_plus in H. change (inject_Z 1) with 1%Q in H. lra.
  - assert (H : (inject_Z (z + 1) <= inject_Z f)%Q) by (rewrite <- Zle_Qle; lia).
    rewrite inject_Z_plus in H. change (inject_Z 1) with 1%Q in H. lra.
Qed.

(** The density of errors against a threshold [c] that is the double
    next to [1/D]: the comparison of doubles decides [D * k <= n]. *)
Lemma density_test (D : positive) (c : Q) (k n : Z) :
  (rnd (1 # D) <= c)%Q ->
  (c < rnd ((1 # D) + (1 # (D * 2 ^ 32))))%Q ->
  (0 <= k)%Z -> (0 < n < 2 ^ 32)%Z ->
  Qle_bool (inject_Z k /! inject_Z n)%js c = (Zpos D * k <=? n)%Z.
Proof.
  intros Hc1 Hc2 Hk [Hn0 Hn].
  destruct n as [|p|p]; try lia.
  assert (Hq : (inject_Z k / inject_Z (Zpos p) == k # p)%Q).
  { unfold Qdiv, Qinv, inject_Z, Qeq. simpl. lia. }
  unfold JS.fdiv.
  destruct (Z.leb_spec (Zpos D * k) (Zpos p)) as [Hle|Hgt].
  - apply Qle_bool_iff. eapply Qle_trans; [|exact Hc1].
    apply rnd_mono. rewrite Hq. unfold Qle. simpl. lia.
  - destruct (Qle_bool _ c) eqn:E; [|reflexivity]. exfalso.
    apply Qle_bool_iff in E.
    assert (Hge : ((1 # D) + (1 # (D * 2 ^ 32)) <= inject_Z k / inject_Z (Zpos p))%Q).
    { rewrite Hq. unfold Qle, Qplus. simpl.
      change (2 ^ 32)%positive with 4294967296%positive in *.
      change (2 ^ 32)%Z with 4294967296%Z in *. nia. }
    apply rnd_mono in Hge.
    apply (Qlt_irrefl c). eapply Qlt_le_trans; [exact Hc2|].
    eapply Qle_trans; eassumption.
Qed.

Lemma density_test_5 k n :
  (0 <= k)%Z -> (0 < n < 2 ^ 32)%Z ->
  Qle_bool (inject_Z k /! inject_Z n)%js (JS.lit 0.05) = (20 * k <=? n)%Z.
Proof.
  apply (density_test 20); unfold Qle, Qlt; vm_compute; [discriminate|reflexivity].
Qed.

Lemma density_test_10 k n :
  (0 <= k)%Z -> (0 < n < 2 ^ 32)%Z ->
  Qle_bool (inject_Z k /! inject_Z n)%js (JS.lit 0.10) = (10 * k <=? n)%Z.
Proof.
  apply (density_test 10); unfold Qle, Qlt; vm_compute; [discriminate|reflexivity].
Qed.

Ltac small := rewrite two53; lia.

Lemma completenessScore_exact n ms md :
  0 < n -> (Z.of_nat n < 2 ^ 32)%Z -> ms <= n -> md <= n ->
  completenessScore n ms md = inject_Z (completenessExact n ms md).
Proof.
  intros Hn0 Hn Hms Hmd.
  change (2 ^ 32)%Z with 4294967296%Z in Hn.
  unfold completenessScore, completenessExact, num,
    PENALTY_MISSING_SALARY, PENALTY_MISSING_DOB.
  rewrite !fmul_Z by small. rewrite !fadd_Z by small.
  change 100%Q with (inject_Z 100). rewrite fsub_Z by small.
  rewrite density_test_5, density_test_10
    by (change (2 ^ 32)%Z with 4294967296%Z; lia).
  rewrite Nat2Z.inj_add.
  change 15%Q with (inject_Z 15). change 10%Q with (inject_Z 10).
  change 0%Q with (inject_Z 0).
  destruct (20 * _ <=? _)%Z; [|destruct (10 * _ <=? _)%Z];
    (rewrite fadd_Z by small); rewrite clamp_Z; do 2 f_equal; lia.
Qed.

Lemma consistencyScore_exact n v z :
  0 < n -> (Z.of_nat n < 2 ^ 32)%Z -> v <= n -> z <= n ->
  consistencyScore n v z = inject_Z (consistencyExact n v z).
Proof.
  intros Hn0 Hn Hv Hz.
  change (2 ^ 32)%Z with 4294967296%Z in Hn.
  unfold consistencyScore, consistencyExact, num,
    PENALTY_VOL_OVER_MAX, PENALTY_ZERO_SALARY_COV.
  rewrite !fmul_Z by small. rewrite !fadd_Z by small.
  change 100%Q with (inject_Z 100). rewrite fsub_Z by small.
  rewrite density_test_5 by (change (2 ^ 32)%Z with 4294967296%Z; lia).
  change (-9)%Q with (inject_Z (-9)). change (-15)%Q with (inject_Z (-15)).
  change 0%Q with (inject_Z 0).
  replace (0 <? v + z)%nat with (0 <? Z.of_nat (v + z))%Z
    by (destruct (Z.ltb_spec 0 (Z.of_nat (v + z))), (Nat.ltb_spec 0 (v + z));
        trivial; lia).
  destruct (0 <? _)%Z; [destruct (20 * _ <=? _)%Z|];
    (rewrite fadd_Z by small); rewrite clamp_Z; do 2 f_equal; lia.
Qed.

Lemma eligibilityScore_exact w :
  (Z.of_nat w < 2 ^ 32)%Z ->
  eligibilityScore w = inject_Z (eligibilityExact w).
Proof.
  intros Hw. change (2 ^ 32)%Z with 4294967296%Z in Hw.
  unfold eligibilityScore, eligibilityExact, num, ineligibleDepCount,
    PENALTY_WAITING_PERIOD, PENALTY_INELIGIBLE_DEP.
  rewrite !fmul_Z by small. rewrite !fadd_Z by small.
  change 100%Q with (inject_Z 100). rewrite fsub_Z by small.
  rewrite clamp_Z. do 2 f_equal. lia.
Qed.

End ExactScores.

Section Thresholds.

Import Binary64 Binary64Facts Binary64Exact.

(** Equal rationals round to the same double, as terms. *)
Lemma rnd_ext x y : (x == y)%Q -> rnd x = rnd y.
Proof.
  intros H. rewrite (rnd_Qred x), (rnd_Qred y).
  apply Qred_complete. now apply rnd_proper.
Qed.

Lemma lit_01 : JS.lit 0.1 = (3602879701896397 # 36028797018963968)%Q.
Proof. vm_compute. reflexivity. Qed.

Lemma lit_11 : JS.lit 1.1 = (2476979795053773 # 2251799813685248)%Q.
Proof. vm_compute. reflexivity. Qed.

(** [missingSalaryCount > totalEmployees * 0.1] decides [10 * ms > n]. *)
Lemma tenth_test (ms n : Z) :
  (0 <= ms)%Z -> (0 <= n < 2 ^ 32)%Z -> (ms <= n)%Z ->
  JS.Qgtb (inject_Z ms) (inject_Z n *! JS.lit 0.1)%js = (n <? 10 * ms)%Z.
Proof.
  intros Hms [Hn0 Hn] Hle. change (2 ^ 32)%Z with 4294967296%Z in Hn.
  unfold JS.Qgtb, JS.fmul. rewrite lit_01.
  destruct (Z.ltb_spec n (10 * ms)) as [Hlt|Hge].
  - destruct (Qle_bool _ _) eqn:E; [|reflexivity]. exfalso.
    apply Qle_bool_iff in E.
    assert (Hx : (inject_Z n * (3602879701896397 # 36028797018963968)
                  <= inject_Z (32 * ms - 1) * pow2 (-5))%Q).
    { unfold Qle, Qmult, inject_Z, pow2. simpl. lia. }
    apply rnd_mono in Hx.
    rewrite (rnd_exact (inject_Z (32 * ms - 1) * pow2 (-5)) (32 * ms - 1) (-5))
      in Hx; [|reflexivity|rewrite two53; lia|lia].
    assert (Hy : (inject_Z (32 * ms - 1) * pow2 (-5) < inject_Z ms)%Q).
    { unfold Qlt, Qmult, inject_Z, pow2. simpl. lia. }
    apply (Qlt_irrefl (inject_Z ms)).
    eapply Qle_lt_trans; [exact E|]. eapply Qle_lt_trans; eassumption.
  - apply Bool.negb_false_iff, Qle_bool_iff.
    rewrite <- (rnd_Z (inject_Z ms) ms) at 1;
      [|reflexivity|rewrite two53; lia].
    apply rnd_mono. unfold Qle, Qmult, inject_Z. simpl. lia.
Qed.

(** [Math.ceil(employeesExceedingGI * 1.1)] is the count plus a tenth,
    rounded up, or one more. *)
Lemma eoiVol_bounds (g : Z) :
  (0 <= g < 2 ^ 32)%Z ->
  let eoiVol := JS.ceil (inject_Z g *! JS.lit 1.1)%js in
  ((11 * g + 9) / 10 <= eoiVol <= (11 * g + 9) / 10 + 1)%Z.
Proof.
  intros [Hg0 Hg] eoiVol. change (2 ^ 32)%Z with 4294967296%Z in Hg.
  set (m := ((11 * g + 9) / 10)%Z).
  assert (Hm : (10 * m <= 11 * g + 9 < 10 * m + 10)%Z).
  { unfold m. pose proof (Z.div_mod (11 * g + 9) 10).
    pose proof (Z.mod_pos_bound (11 * g + 9) 10). lia. }
  unfold eoiVol, JS.ceil, JS.fmul. rewrite lit_11. split.
  - assert (Hx : (inject_Z (16 * (m - 1) + 1) * pow2 (-4)
                  <= inject_Z g * (2476979795053773 # 2251799813685248))%Q).
    { unfold Qle, Qmult, inject_Z, pow2. simpl. lia. }
    apply rnd_mono in Hx.
    rewrite (rnd_exact _ (16 * (m - 1) + 1) (-4)) in Hx;
      [|reflexivity|rewrite two53; lia|lia].
    pose proof (Qle_ceiling (rnd (inject_Z g * (2476979795053773 # 2251799813685248)))) as Hc.
    set (c := Qceiling _) in *.
    assert (Hlt : (inject_Z (m - 1) < inject_Z c)%Q).
    { eapply Qlt_le_trans; [|exact Hc]. eapply Qlt_le_trans; [|exact Hx].
      unfold Qlt, Qmult, inject_Z, pow2. simpl. lia. }
    rewrite <- Zlt_Qlt in Hlt. lia.
  - assert (Hx : (inject_Z g * (2476979795053773 # 2251799813685248)
                  <= inject_Z (m + 1))%Q).
    { unfold Qle, Qmult, inject_Z. simpl. lia. }
    apply rnd_mono in Hx.
    rewrite (rnd_Z (inject_Z (m + 1)) (m + 1)) in Hx;
      [|reflexivity|rewrite two53; lia].
    apply Qceiling_resp_le in Hx. now rewrite Qceiling_Z in Hx.
Qed.

Lemma Qopp_opp q : (- - q)%Q = q.
Proof. destruct q as [n d]. unfold Qopp. simpl. now rewrite Z.opp_involutive. Qed.

Lemma rnd_opp q : (rnd (- q) == - rnd q)%Q.
Proof.
  destruct (Qlt_le_dec 0 q) as [Hp|Hn].
  - rewrite (rnd_neg (- q)) by lra. rewrite Qopp_opp.
    now rewrite (rnd_pos q) by exact Hp.
  - destruct (Qle_lt_or_eq _ _ Hn) as [Hneg|Hz].
    + rewrite (rnd_pos (- q)) by lra.
      rewrite (rnd_neg q) by exact Hneg. now rewrite Qopp_opp.
    + rewrite (rnd_zero q) by exact Hz.
      rewrite (rnd_zero (- q)) by (rewrite Hz; reflexivity). reflexivity.
Qed.

Lemma daysOf_opp z : daysOf (- z) = daysOf z.
Proof.
  unfold daysOf, JS.fdiv. f_equal. apply rnd_ext.
  apply Qdiv_comp; [|reflexivity].
  rewrite inject_Z_opp, rnd_opp. apply Qabs_opp.
Qed.

Lemma daysOf_mono a b : (0 <= a <= b)%Z -> (daysOf a <= daysOf b)%Z.
Proof.
  intros [Ha Hab]. unfold daysOf, JS.ceil.
  assert (H0 : (0 <= inject_Z a)%Q) by (rewrite Zle_Qle in Ha; exact Ha).
  assert (Hle : (inject_Z a <= inject_Z b)%Q) by (rewrite <- Zle_Qle; exact Hab).
  apply Qceiling_resp_le, fdiv_mono_r; [vm_compute; discriminate|].
  rewrite !Qabs_pos by (apply rnd_nonneg; lra).
  now apply rnd_mono.
Qed.

(** Fewer than 30 days: at most 29 whole days apart, in either direction. *)
Lemma daysOf_window z :
  (daysOf z <? WAITING_PERIOD_DAYS)%Z = (Z.abs z <=? 29 * MS_PER_DAY)%Z.
Proof.
  assert (Habs : daysOf z = daysOf (Z.abs z)).
  { destruct (Z.abs_spec z) as [[_ ->]|[_ ->]]; [reflexivity|].
    symmetry. apply daysOf_opp. }
  rewrite Habs. pose proof (Z.abs_nonneg z) as Hz.
  set (x := Z.abs z) in *. clearbody x.
  change (29 * MS_PER_DAY)%Z with 2505600000%Z.
  unfold WAITING_PERIOD_DAYS.
  destruct (Z.leb_spec x 2505600000) as [Hle|Hgt].
  - pose proof (daysOf_mono x 2505600000 ltac:(lia)) as H.
    assert (E : daysOf 2505600000 = 29%Z) by (vm_compute; reflexivity).
    rewrite E in H.
    apply Z.ltb_lt. lia.
  - pose proof (daysOf_mono 2505600001 x ltac:(lia)) as H.
    assert (E : daysOf 2505600001 = 30%Z) by (vm_compute; reflexivity).
    rewrite E in H.
    apply Z.ltb_ge. lia.
Qed.

End Thresholds.

(** ** Counts and what the result reports about them *)

Lemma countRows_le p rows : countRows p rows <= length rows.
Proof.
  unfold countRows. induction rows as [|row rows IH]; simpl; [lia|].
  destruct (p row); simpl; lia.
Qed.

Lemma countTimedFrom_le p clock rows : forall i,
  countTimedFrom p clock i rows <= length rows.
Proof.
  induction rows as [|row rows IH]; intros i; simpl; [lia|].
  specialize (IH (S i)). destruct (p (clock i) row); simpl; lia.
Qed.

Lemma countRows_impl (p q : CensusRow -> bool) rows :
  (forall row, p row = true -> q row = true) ->
  countRows p rows <= countRows q rows.
Proof.
  intros H. induction rows as [|row rows IH]; [reflexivity|].
  rewrite !countRows_cons. specialize (H row).
  destruct (p row), (q row); simpl; try lia; discriminate (H eq_refl).
Qed.

Lemma countRows_map p (g : CensusRow -> CensusRow) rows :
  (forall row, p (g row) = p row) ->
  countRows p (map g rows) = countRows p rows.
Proof.
  intros H. induction rows as [|row rows IH]; [reflexivity|].
  simpl map. rewrite !countRows_cons, H, IH. reflexivity.
Qed.

Lemma countTimedFrom_map p clock (g : CensusRow -> CensusRow) rows :
  (forall now row, p now (g row) = p now row) ->
  forall i, countTimedFrom p clock i (map g rows) = countTimedFrom p clock i rows.
Proof.
  intros H. induction rows as [|row rows IH]; intros i; [reflexivity|].
  simpl. now rewrite H, IH.
Qed.

Section Reported.

Context (Date_parse : string -> option Z) (clock : nat -> Z).

Local Abbreviation analyze := (analyzeCensusData Date_parse clock).

(** Everything that a run on at least one record reports besides the
    scores, from the number of records that meet each condition. *)
Lemma artifacts_counts rows :
  rows ≠ [] ->
  let r := analyze rows in
  let n := length rows in
  let ms := countRows missingSalary rows in
  let md := countRows (missingDob Date_parse) rows in
  let v := countRows volOverMax rows in
  let z := countRows coverageWithoutSalary rows in
  let w := countTimedFrom (inWaitingPeriod Date_parse) clock 0 rows in
  let g := countRows exceedsGI rows in
  let d := duplicatesSpec rows in
  allIssues r =
    [ issue "Missing Salary" (Z.of_nat ms) High "Salary field is empty or null";
      issue "Missing DOB" (Z.of_nat md) Medium "Date of birth missing";
      issue "Voluntary > Max" (Z.of_nat v) High
        "Voluntary multiple > plan max (5x)";
      issue "Zero Salary Coverage" (Z.of_nat z) High
        "Coverage elected with $0 salary";
      issue "Waiting Period" (Z.of_nat w) Medium
        "Employees in waiting period (<30 days)";
      issue "Ineligible Dependents" 0 Medium
        "Dependents exceeding age limits (Note: Data unavailable)";
      issue "Exceeding GI" (Z.of_nat g) High
        "Employees exceeding Guaranteed Issue ($150k)";
      issue "EOI Rate" (JS.round (eoiRatePercent n g)) Medium
        "% of group requiring EOI" ]
  /\ anomalies r =
       push (JS.Qgtb (num ms) (num n *! JS.lit 0.1)%js) (missingSalariesAnomaly ms)
         (push (0 <? d)%nat (duplicateIdsAnomaly d) [])
  /\ predictedImpact r = impactOf (overallScore r) g.
Proof.
  destruct rows as [|row rows]; [contradiction|]. intros _.
  cbv zeta.
  rewrite <- (countDuplicates_rows Date_parse clock (row :: rows)).
  destruct (counters_counts Date_parse clock (row :: rows))
    as (Hms & Hmd & Hv & Hz & Hw & Hg & _).
  rewrite <- Hms, <- Hmd, <- Hv, <- Hz, <- Hw, <- Hg.
  unfold allIssues, impactOf, analyzeCensusData. rewrite length_cons_eqb.
  cbn [overallScore subScores completeness consistency eligibility eoiRisk
       issues anomalies predictedImpact].
  repeat split.
Qed.

End Reported.

(** X1: on an array of records (at least one, fewer than [2^32]) the
    reported Completeness, Consistency and Eligibility scores are the
    integer formulas: 100 less the penalties per record (5 and 4; 6 and 5;
    5), plus the density adjustment (+15 when at most 5% of the records
    have a completeness error, +10 when at most 10%; -9 or -15 as soon as
    there is a consistency error), clamped to 0..100.  No rounding of the
    floating-point arithmetic shows in them, and the percentages are
    compared exactly. *)
Theorem penalty_scores_in_integers (Date_parse : string -> option Z)
    (clock : nat -> Z) (rows : list CensusRow) :
  rows ≠ [] ->
  withinArrayLimit rows ->
  let r := analyzeCensusData Date_parse clock rows in
  let n := length rows in
  score (completeness (subScores r))
  = completenessExact n (countRows missingSalary rows)
      (countRows (missingDob Date_parse) rows)
  /\ score (consistency (subScores r))
     = consistencyExact n (countRows volOverMax rows)
         (countRows coverageWithoutSalary rows)
  /\ score (eligibility (subScores r))
     = eligibilityExact
         (countTimedFrom (inWaitingPeriod Date_parse) clock 0 rows).
Proof.
  intros Hne Hlim. cbv zeta. unfold withinArrayLimit in Hlim.
  destruct (scores_counts Date_parse clock rows Hne) as (_ & Hc & Hn & He & _).
  rewrite Hc, Hn, He.
  assert (Hpos : 0 < length rows) by (destruct rows; [contradiction|simpl; lia]).
  pose proof (countTimedFrom_le (inWaitingPeriod Date_parse) clock rows 0) as Hw.
  rewrite completenessScore_exact, consistencyScore_exact, eligibilityScore_exact,
    !round_Z; auto using countRows_le.
  lia.
Qed.

Lemma penalty_scores_in_integers_witness :
  let r := analyzeCensusData IsoHost.Date_parse (IsoHost.at_ Examples.jan20)
             Examples.tenRecords in
  score (completeness (subScores r)) = completenessExact 10 2 1
  /\ score (consistency (subScores r)) = consistencyExact 10 0 0
  /\ score (eligibility (subScores r)) = eligibilityExact 0.
Proof.
  apply (penalty_scores_in_integers IsoHost.Date_parse
           (IsoHost.at_ Examples.jan20) Examples.tenRecords);
    [discriminate | vm_compute; reflexivity].
Defined.

Lemma eoiRatePercent_range n g :
  0 < n -> g <= n -> (0 <= eoiRatePercent n g <= 100)%Q.
Proof.
  intros Hn Hg. unfold eoiRatePercent.
  assert (Hn' : (0 < num n)%Q).
  { unfold num. change 0%Q with (inject_Z 0). rewrite <- Zlt_Qlt. lia. }
  assert (Hd : (0 <= num g / num n <= 1)%Q).
  { split.
    - apply Qle_shift_div_l; [exact Hn'|]. rewrite Qmult_0_l. apply num_nonneg.
    - apply Qle_shift_div_r; [exact Hn'|]. rewrite Qmult_1_l. now apply num_le. }
  assert (Hr : (0 <= num g /! num n <= 1)%js%Q).
  { split.
    - apply Binary64Facts.rnd_nonneg, Hd.
    - change 1%Q with (Binary64.rnd 1). apply Binary64Facts.rnd_mono, Hd. }
  split.
  - apply Binary64Facts.rnd_nonneg. apply Qmult_le_0_compat; [apply Hr|lra].
  - change 100%Q with (Binary64.rnd (1 * 100)) at 2.
    apply fmul_mono_r; [lra|apply Hr].
Qed.

(** X2: every issue count of a result on at least one record lies
    between 0 and the number of records (the EOI rate, a percentage,
    between 0 and 100); the count of coverage elected without a salary
    never exceeds the count of missing salaries, and the count of
    ineligible dependents is 0 whatever the records hold. *)
Theorem issue_counts_bounded (Date_parse : string -> option Z)
    (clock : nat -> Z) (rows : list CensusRow) :
  rows ≠ [] ->
  let r := analyzeCensusData Date_parse clock rows in
  Forall (fun i => (0 <= count i <= countLimit (type i) (totalEmployees r))%Z)
         (allIssues r)
  /\ (issueCount "Zero Salary Coverage" r <= issueCount "Missing Salary" r)%Z
  /\ issueCount "Ineligible Dependents" r = 0%Z.
Proof.
  intros Hne. cbv zeta.
  destruct (artifacts_counts Date_parse clock rows Hne) as (Hi & _).
  unfold issueCount. rewrite Hi, totalEmployees_analyze.
  assert (Hpos : 0 < length rows) by (destruct rows; [contradiction|simpl; lia]).
  pose proof (countTimedFrom_le (inWaitingPeriod Date_parse) clock rows 0) as Hw.
  pose proof (countRows_le missingSalary rows).
  pose proof (countRows_le (missingDob Date_parse) rows).
  pose proof (countRows_le volOverMax rows).
  pose proof (countRows_le coverageWithoutSalary rows).
  pose proof (countRows_le exceedsGI rows) as Hg.
  pose proof (round_range _ (eoiRatePercent_range _ _ Hpos Hg)) as Hrate.
  unfold inScoreRange in Hrate.
  repeat split.
  - repeat (constructor; [cbn [count type issue countLimit String.eqb Ascii.eqb Bool.eqb]; lia|]).
    constructor.
  - cbn. apply inj_le, countRows_impl. intros row.
    unfold coverageWithoutSalary. now intros [_ ?]%andb_prop.
Qed.

Lemma issue_counts_bounded_witness :
  let r := analyzeCensusData IsoHost.Date_parse (IsoHost.at_ Examples.jan20)
             Examples.fiveDrivers in
  Forall (fun i => (0 <= count i <= countLimit (type i) 5)%Z) (allIssues r).
Proof.
  apply (issue_counts_bounded IsoHost.Date_parse (IsoHost.at_ Examples.jan20)
           Examples.fiveDrivers).
  discriminate.
Defined.

(** ** The duplicate count in closed form *)

Lemma sum_list_zero {A} (l : list A) : sum_list (map (fun _ => 0) l) = 0.
Proof. induction l; simpl; lia. Qed.

Lemma sum_list_add {A} (f g : A -> nat) l :
  sum_list (map (fun x => f x + g x) l)
  = sum_list (map f l) + sum_list (map g l).
Proof. induction l; simpl; lia. Qed.

Lemma sum_list_ext {A} (f g : A -> nat) l :
  (forall x, f x = g x) -> sum_list (map f l) = sum_list (map g l).
Proof. intros H. induction l; simpl; [reflexivity|]. now rewrite H, IHl. Qed.

Lemma sum_indicator_absent (a : string) l :
  a ∉ l -> sum_list (map (fun id => if String.eqb id a then 1 else 0) l) = 0.
Proof.
  induction l as [|x l IH]; intros Hn; simpl; [reflexivity|].
  apply not_elem_of_cons in Hn as [Hx Hl].
  destruct (String.eqb_spec x a); [congruence|]. now rewrite IH.
Qed.

Lemma sum_indicator (a : string) l :
  NoDup l -> a ∈ l ->
  sum_list (map (fun id => if String.eqb id a then 1 else 0) l) = 1.
Proof.
  induction 1 as [|x l Hx Hnd IH]; intros Hin; [inversion Hin|].
  simpl. apply elem_of_cons in Hin as [->|Hin].
  - rewrite String.eqb_refl, sum_indicator_absent by exact Hx. reflexivity.
  - destruct (String.eqb_spec x a) as [->|_]; [contradiction|].
    now rewrite IH.
Qed.

(** Over a duplicate-free list that covers the identifiers, the
    occurrences add up to the number of identifiers. *)
Lemma sum_occurrences ids : forall l,
  NoDup l -> (forall x, x ∈ ids -> x ∈ l) ->
  sum_list (map (fun id => occurrences id ids) l) = length ids.
Proof.
  induction ids as [|a ids IH]; intros l Hnd Hin.
  - apply sum_list_zero.
  - rewrite (sum_list_ext _ (fun id => (if String.eqb id a then 1 else 0)
                                       + occurrences id ids))
      by (intros; apply occurrences_cons).
    rewrite sum_list_add, sum_indicator, IH; trivial.
    + intros x Hx. apply Hin. now right.
    + apply Hin. now left.
Qed.

Lemma excess_total (occ : string -> nat) l :
  (forall id, id ∈ l -> 1 <= occ id) ->
  sum_list (map (fun id => occ id - 1)
              (List.filter (fun id => (1 <? occ id)%nat) l)) + length l
  = sum_list (map occ l).
Proof.
  induction l as [|x l IH]; intros H; [reflexivity|].
  assert (Hx : 1 <= occ x) by (apply H; now left).
  assert (Hl : forall id, id ∈ l -> 1 <= occ id) by (intros; apply H; now right).
  specialize (IH Hl). simpl.
  destruct (Nat.ltb_spec 1 (occ x)); simpl; lia.
Qed.

Lemma remove_dups_length_le (l : list string) :
  length (remove_dups l) <= length l.
Proof.
  induction l as [|x l IH]; simpl; [lia|].
  destruct (decide_rel elem_of x l); simpl; lia.
Qed.

Lemma remove_dups_length_NoDup (l : list string) :
  length (remove_dups l) = length l <-> NoDup l.
Proof.
  induction l as [|x l IH]; simpl.
  - split; [constructor|reflexivity].
  - pose proof (remove_dups_length_le l).
    destruct (decide_rel elem_of x l) as [Hin|Hnot]; simpl.
    + split; [lia|]. intros Hnd. apply NoDup_cons in Hnd as [? _]. contradiction.
    + split.
      * intros E. apply NoDup_cons. split; [exact Hnot|]. apply IH. lia.
      * intros Hnd. apply NoDup_cons in Hnd as [_ Hnd]. apply IH in Hnd. lia.
Qed.

Lemma duplicatesSpec_closed rows :
  duplicatesSpec rows + length (remove_dups (identifiers rows))
  = length (identifiers rows).
Proof.
  unfold duplicatesSpec. cbv zeta.
  rewrite excess_total.
  - apply sum_occurrences; [apply NoDup_remove_dups|].
    intros x Hx. rewrite elem_of_remove_dups. exact Hx.
  - intros id Hid. apply occurrences_present.
    rewrite elem_of_remove_dups in Hid. exact Hid.
Qed.

(** X3: the duplicate count is the number of records that carry a
    non-empty identifier less the number of distinct identifiers among
    them; it is 0 exactly when no identifier is used twice. *)
Theorem duplicate_count_closed_form (Date_parse : string -> option Z)
    (clock : nat -> Z) (rows : list CensusRow) :
  let ids := identifiers rows in
  duplicateIdCount Date_parse clock rows
  = length ids - length (remove_dups ids)
  /\ (duplicateIdCount Date_parse clock rows = 0 <-> NoDup ids).
Proof.
  cbv zeta. unfold duplicateIdCount. rewrite countDuplicates_rows.
  pose proof (duplicatesSpec_closed rows) as H.
  pose proof (remove_dups_length_NoDup (identifiers rows)) as Hn.
  split; [lia|]. rewrite <- Hn. lia.
Qed.

(** ** The risk band and the predicted impact *)

(** X4: on at least one record the risk band, the clarification cycles
    and the post-issue risk are read off the same two thresholds of the
    overall score: from 85 up they are Low, 1-2 cycles and Low; from 70
    to 84 Moderate, 4-6 cycles and Medium; below 70 High, 6+ cycles and
    High. *)
Theorem risk_band_matches_impact (Date_parse : string -> option Z)
    (clock : nat -> Z) (rows : list CensusRow) :
  rows ≠ [] ->
  let r := analyzeCensusData Date_parse clock rows in
  let impact := predictedImpact r in
  ((85 <= overallScore r)%Z /\ riskLevel r = LowRisk
   /\ clarifications impact = "1-2 cycles"
   /\ postIssueCorrectionRisk impact = "Low")
  \/ ((70 <= overallScore r < 85)%Z /\ riskLevel r = ModerateRisk
      /\ clarifications impact = "4–6 cycles"
      /\ postIssueCorrectionRisk impact = "Medium")
  \/ ((overallScore r < 70)%Z /\ riskLevel r = HighRisk
      /\ clarifications impact = "6+ cycles"
      /\ postIssueCorrectionRisk impact = "High").
Proof.
  intros Hne. cbv zeta.
  destruct (artifacts_counts Date_parse clock rows Hne) as (_ & _ & Hp).
  rewrite Hp, (riskLevel_analyze Date_parse clock rows Hne).
  unfold riskLevelOf, impactOf. cbn [clarifications postIssueCorrectionRisk].
  set (o := overallScore _). clearbody o.
  destruct (Z.leb_spec 85 o), (Z.leb_spec 70 o), (Z.ltb_spec o 70),
    (Z.ltb_spec o 85); try lia.
  - left. repeat split; trivial.
  - right. left. repeat split; trivial; lia.
  - right. right. repeat split; trivial.
Qed.

Lemma risk_band_matches_impact_witness :
  let r := analyzeCensusData IsoHost.Date_parse (IsoHost.at_ Examples.jan20)
             Examples.tenRecords in
  riskLevel r = LowRisk
  /\ clarifications (predictedImpact r) = "1-2 cycles"
  /\ postIssueCorrectionRisk (predictedImpact r) = "Low".
Proof.
  destruct (risk_band_matches_impact IsoHost.Date_parse
              (IsoHost.at_ Examples.jan20) Examples.tenRecords)
    as [(_ & H)|[(Ho & _)|(Ho & _)]];
    [discriminate | exact H | exfalso ..].
  all: assert (E : overallScore
                     (analyzeCensusData IsoHost.Date_parse
                        (IsoHost.at_ Examples.jan20) Examples.tenRecords) = 95%Z)
         by (vm_compute; reflexivity).
  all: cbv zeta in Ho; rewrite E in Ho; lia.
Defined.

(** ** The estimated EOI volume and the anomalies *)

(** X5: the estimated EOI volume, [Math.ceil(employeesExceedingGI * 1.1)],
    is the count of employees over the guaranteed-issue limit plus a
    tenth, rounded up, or one more than that (the double for 1.1 lies
    above eleven tenths): it is never below the count, and it is 0 exactly
    when no employee is over the limit. *)
Theorem eoi_volume_bounds (Date_parse : string -> option Z)
    (clock : nat -> Z) (rows : list CensusRow) :
  withinArrayLimit rows ->
  let g := Z.of_nat (countRows exceedsGI rows) in
  let eoiVol := eoiVolume (predictedImpact (analyzeCensusData Date_parse clock rows)) in
  ((11 * g + 9) / 10 <= eoiVol <= (11 * g + 9) / 10 + 1)%Z
  /\ (g <= eoiVol)%Z
  /\ (eoiVol = 0%Z <-> g = 0%Z).
Proof.
  intros Hlim. cbv zeta. unfold withinArrayLimit in Hlim.
  destruct rows as [|row rows].
  { change (eoiVolume (predictedImpact (analyzeCensusData Date_parse clock [])))
      with 0%Z.
    change (Z.of_nat (countRows exceedsGI [])) with 0%Z.
    change ((11 * 0 + 9) / 10)%Z with 0%Z. lia. }
  assert (Hne : row :: rows ≠ []) by discriminate.
  destruct (artifacts_counts Date_parse clock (row :: rows) Hne)
    as (_ & _ & He).
  rewrite He. unfold impactOf, num. cbn [eoiVolume].
  pose proof (countRows_le exceedsGI (row :: rows)) as Hg.
  set (g := Z.of_nat (countRows exceedsGI (row :: rows))) in *.
  assert (Hb : (0 <= g < 2 ^ 32)%Z) by lia.
  pose proof (eoiVol_bounds g Hb) as H. cbv zeta in H.
  assert (H0 : g = 0%Z -> JS.ceil (inject_Z g *! JS.lit 1.1)%js = 0%Z)
    by (intros ->; vm_compute; reflexivity).
  set (e := JS.ceil _) in *. clearbody e.
  set (m := ((11 * g + 9) / 10)%Z) in *.
  assert (Hm : (10 * m <= 11 * g + 9 < 10 * m + 10)%Z).
  { unfold m. pose proof (Z.div_mod (11 * g + 9) 10).
    pose proof (Z.mod_pos_bound (11 * g + 9) 10). lia. }
  repeat split; try lia.
Qed.

Lemma eoi_volume_bounds_witness :
  let eoiVol :=
    eoiVolume (predictedImpact
      (analyzeCensusData IsoHost.Date_parse (IsoHost.at_ Examples.jan20)
         Examples.sevenRecords)) in
  ((11 * 1 + 9) / 10 <= eoiVol <= (11 * 1 + 9) / 10 + 1)%Z.
Proof.
  apply (eoi_volume_bounds IsoHost.Date_parse (IsoHost.at_ Examples.jan20)
           Examples.sevenRecords).
  vm_compute. reflexivity.
Defined.

(** The upper bound is met: for 50 employees over the limit the product
    is above 55, and the estimate is 56. *)
Example eoi_volume_overshoot :
  JS.ceil (num 50 *! JS.lit 1.1)%js = 56%Z /\ ((11 * 50 + 9) / 10 = 55)%Z.
Proof. split; vm_compute; reflexivity. Qed.

(** X6: the anomalies of a result on an array of records: duplicate
    identifiers first, listed when the duplicate count is positive, then
    missing salaries, listed exactly when more than a tenth of the
    records miss the salary; the comparison with [totalEmployees * 0.1]
    decides [10 * missing > total] exactly. *)
Theorem anomalies_characterized (Date_parse : string -> option Z)
    (clock : nat -> Z) (rows : list CensusRow) :
  rows ≠ [] ->
  withinArrayLimit rows ->
  let ms := countRows missingSalary rows in
  let d := duplicatesSpec rows in
  anomalies (analyzeCensusData Date_parse clock rows)
  = ((if (0 <? d)%nat then [duplicateIdsAnomaly d] else [])
     ++ (if (length rows <? 10 * ms)%nat then [missingSalariesAnomaly ms] else []))%list.
Proof.
  intros Hne Hlim. cbv zeta. unfold withinArrayLimit in Hlim.
  destruct (artifacts_counts Date_parse clock rows Hne) as (_ & Ha & _).
  rewrite Ha. unfold num.
  pose proof (countRows_le missingSalary rows) as Hms.
  rewrite tenth_test by lia.
  replace (Z.of_nat (length rows) <? 10 * Z.of_nat (countRows missingSalary rows))%Z
    with (length rows <? 10 * countRows missingSalary rows)%nat.
  - destruct (0 <? _)%nat, (length rows <? _)%nat; reflexivity.
  - destruct (Nat.ltb_spec (length rows) (10 * countRows missingSalary rows)),
      (Z.ltb_spec (Z.of_nat (length rows))
         (10 * Z.of_nat (countRows missingSalary rows))); trivial; lia.
Qed.

Lemma anomalies_characterized_witness :
  anomalies (analyzeCensusData IsoHost.Date_parse (IsoHost.at_ Examples.jan20)
               Examples.tenRecords)
  = [missingSalariesAnomaly 2].
Proof.
  rewrite (anomalies_characterized IsoHost.Date_parse (IsoHost.at_ Examples.jan20)
             Examples.tenRecords);
    [vm_compute; reflexivity | discriminate | vm_compute; reflexivity].
Defined.


(** ** Identifiers and the scores *)

Lemma countRows_Forall2 (R : CensusRow -> CensusRow -> Prop) p rows rows' :
  (forall a b, R a b -> p a = p b) ->
  Forall2 R rows rows' -> countRows p rows = countRows p rows'.
Proof.
  intros Hp. induction 1 as [|a b l l' Hab _ IH]; [reflexivity|].
  now rewrite !countRows_cons, (Hp a b Hab), IH.
Qed.

Lemma countTimedFrom_Forall2 (R : CensusRow -> CensusRow -> Prop) p clock
    rows rows' :
  (forall now a b, R a b -> p now a = p now b) ->
  Forall2 R rows rows' ->
  forall i, countTimedFrom p clock i rows = countTimedFrom p clock i rows'.
Proof.
  intros Hp. induction 1 as [|a b l l' Hab _ IH]; intros i; [reflexivity|].
  simpl. now rewrite (Hp _ a b Hab), IH.
Qed.

(** A test that does not read the identifier gives the same verdict on
    two records that differ in the identifier only. *)
Lemma sameButId_verdict (p : CensusRow -> bool) a b :
  (forall row, p row = p (withId None row)) -> sameButId a b -> p a = p b.
Proof.
  intros Hp H. unfold sameButId in H. now rewrite (Hp a), (Hp b), H.
Qed.

(** X7: the identifiers never reach a score.  Two arrays whose records
    agree, position by position, in everything but the identifier get
    the same overall score, the same four sub-scores, the same risk band
    and the same predicted impact, whatever identifiers they carry, equal
    or different, present or not; duplicates show in the anomalies, the
    risk drivers and the recommended actions only. *)
Theorem scores_ignore_identifiers (Date_parse : string -> option Z)
    (clock : nat -> Z) (rows rows' : list CensusRow) :
  Forall2 sameButId rows rows' ->
  let r := analyzeCensusData Date_parse clock rows in
  let r' := analyzeCensusData Date_parse clock rows' in
  scoresOf r' = scoresOf r
  /\ riskLevel r' = riskLevel r
  /\ predictedImpact r' = predictedImpact r.
Proof.
  intros Hsame. cbv zeta.
  destruct Hsame as [|row row' rows rows' Hrow Hrest]; [repeat split|].
  assert (Hall : Forall2 sameButId (row :: rows) (row' :: rows'))
    by now constructor.
  clear Hrow Hrest.
  assert (Hne : row :: rows ≠ []) by discriminate.
  assert (Hne' : row' :: rows' ≠ []) by discriminate.
  pose proof (Forall2_length _ _ _ Hall) as Hlen.
  assert (Hms : countRows missingSalary (row :: rows)
                = countRows missingSalary (row' :: rows'))
    by (apply (countRows_Forall2 sameButId); [|exact Hall];
        intros a b; now apply sameButId_verdict).
  assert (Hmd : countRows (missingDob Date_parse) (row :: rows)
                = countRows (missingDob Date_parse) (row' :: rows'))
    by (apply (countRows_Forall2 sameButId); [|exact Hall];
        intros a b; now apply sameButId_verdict).
  assert (Hv : countRows volOverMax (row :: rows)
               = countRows volOverMax (row' :: rows'))
    by (apply (countRows_Forall2 sameButId); [|exact Hall];
        intros a b; now apply sameButId_verdict).
  assert (Hz : countRows coverageWithoutSalary (row :: rows)
               = countRows coverageWithoutSalary (row' :: rows'))
    by (apply (countRows_Forall2 sameButId); [|exact Hall];
        intros a b; now apply sameButId_verdict).
  assert (Hg : countRows exceedsGI (row :: rows)
               = countRows exceedsGI (row' :: rows'))
    by (apply (countRows_Forall2 sameButId); [|exact Hall];
        intros a b; now apply sameButId_verdict).
  assert (Hw : countTimedFrom (inWaitingPeriod Date_parse) clock 0 (row :: rows)
               = countTimedFrom (inWaitingPeriod Date_parse) clock 0 (row' :: rows'))
    by (apply (countTimedFrom_Forall2 sameButId); [|exact Hall];
        intros now a b;
        now apply (sameButId_verdict (inWaitingPeriod Date_parse now))).
  destruct (scores_counts Date_parse clock _ Hne) as (H1 & H2 & H3 & H4 & H5).
  destruct (scores_counts Date_parse clock _ Hne') as (H1' & H2' & H3' & H4' & H5').
  assert (Ho : overallScore (analyzeCensusData Date_parse clock (row' :: rows'))
               = overallScore (analyzeCensusData Date_parse clock (row :: rows))).
  { rewrite H1', H1, Hlen, Hms, Hmd, Hv, Hz, Hg, Hw. reflexivity. }
  split; [|split].
  - unfold scoresOf. rewrite Ho, H2', H3', H4', H5', H2, H3, H4, H5.
    rewrite Hlen, Hms, Hmd, Hv, Hz, Hg, Hw. reflexivity.
  - rewrite !riskLevel_analyze, Ho by assumption. reflexivity.
  - destruct (artifacts_counts Date_parse clock _ Hne) as (_ & _ & Hp).
    destruct (artifacts_counts Date_parse clock _ Hne') as (_ & _ & Hp').
    rewrite Hp, Hp', Ho, Hg. reflexivity.
Qed.

(** Two equal records, then the same two under two different
    identifiers: the duplicate goes, the scores stay. *)
Lemma scores_ignore_identifiers_witness :
  let rows := [Examples.noSalary "E1"; Examples.noSalary "E1"] in
  let rows' := [Examples.noSalary "A"; Examples.noSalary "B"] in
  let r := analyzeCensusData IsoHost.Date_parse (IsoHost.at_ Examples.jan20) rows in
  let r' := analyzeCensusData IsoHost.Date_parse (IsoHost.at_ Examples.jan20) rows' in
  Forall2 sameButId rows rows'
  /\ scoresOf r' = scoresOf r
  /\ anomalies r' ≠ anomalies r.
Proof.
  cbv zeta.
  assert (H : Forall2 sameButId
                [Examples.noSalary "E1"; Examples.noSalary "E1"]
                [Examples.noSalary "A"; Examples.noSalary "B"])
    by (repeat constructor).
  split; [exact H|]. split.
  - apply (scores_ignore_identifiers IsoHost.Date_parse
             (IsoHost.at_ Examples.jan20) _ _ H).
  - vm_compute. discriminate.
Defined.

(** ** The waiting period *)

(** X8: a record whose hire date is a valid date is in the waiting
    period exactly when that date lies at most 29 whole days from the
    clock reading, in either direction: a hire date up to 29 days in the
    future counts like one 29 days in the past. *)
Theorem waiting_period_window (Date_parse : string -> option Z) (now : Z)
    (row : CensusRow) (s : string) (d : Z) :
  hireDate row = Some s ->
  s ≠ "" ->
  Date_parse s = Some d ->
  inWaitingPeriod Date_parse now row = (Z.abs (now - d) <=? 29 * MS_PER_DAY)%Z.
Proof.
  intros Hh Hs Hd.
  unfold inWaitingPeriod, getDaysSince, isValidDate, newDate.
  rewrite Hh, Hd. destruct s as [|a s]; [contradiction|].
  cbn [present negb andb].
  unfold JS.fsub.
  rewrite (rnd_ext (inject_Z now - inject_Z d) (inject_Z (now - d)))
    by (unfold Z.sub; rewrite inject_Z_plus, inject_Z_opp; reflexivity).
  apply daysOf_window.
Qed.

Lemma waiting_period_window_witness :
  inWaitingPeriod IsoHost.Date_parse Examples.jan20 (Examples.newHire "E1") = true.
Proof.
  rewrite (waiting_period_window IsoHost.Date_parse Examples.jan20
             (Examples.newHire "E1") "2024-01-10" 1704844800000);
    [reflexivity | reflexivity | discriminate | vm_compute; reflexivity].
Defined.

(** Seen on 2024-01-20, an employee to be hired on 2024-02-10 is in the
    waiting period; one hired on 2023-12-21, 30 days before, is not. *)
Example waiting_period_future_hire :
  inWaitingPeriod IsoHost.Date_parse Examples.jan20
    (mkRow (Some "E1") None (Some "2024-02-10") Undefined Undefined Undefined)
  = true
  /\ inWaitingPeriod IsoHost.Date_parse Examples.jan20
       (mkRow (Some "E1") None (Some "2023-12-21") Undefined Undefined Undefined)
     = false.
Proof. split; vm_compute; reflexivity. Qed.

(** ** A census without a finding *)

Lemma zero_density (x : Q) (n : nat) : x = 0%Q -> (x /! num n)%js = 0%Q.
Proof.
  intros ->. unfold JS.fdiv.
  rewrite (rnd_ext (0 / num n) 0) by (unfold Qdiv; ring).
  reflexivity.
Qed.

Lemma completenessScore_clean n : completenessScore n 0 0 = 100%Q.
Proof.
  unfold completenessScore.
  rewrite (zero_density (num 0 +! num 0)%js n) by (vm_compute; reflexivity).
  vm_compute. reflexivity.
Qed.

Lemma consistencyScore_clean n : consistencyScore n 0 0 = 100%Q.
Proof.
  unfold consistencyScore.
  rewrite (zero_density (num (0 + 0)) n) by reflexivity.
  vm_compute. reflexivity.
Qed.

Lemma eoiScore_clean n : eoiScore n 0 0 = 100%Q.
Proof.
  unfold eoiScore, eoiRatePercent.
  rewrite (zero_density (num 0) n) by reflexivity.
  vm_compute. reflexivity.
Qed.

(** X9: a census of any size in which no record misses the salary or the
    date of birth, elects more than the plan maximum, is in the waiting
    period or exceeds the guaranteed-issue limit scores 100 overall and on
    every sub-score, is Low risk, and predicts 1-2 cycles, no EOI and a
    Low post-issue risk. *)
Theorem clean_census_scores_100 (Date_parse : string -> option Z)
    (clock : nat -> Z) (rows : list CensusRow) :
  rows ≠ [] ->
  countRows missingSalary rows = 0 ->
  countRows (missingDob Date_parse) rows = 0 ->
  countRows volOverMax rows = 0 ->
  countTimedFrom (inWaitingPeriod Date_parse) clock 0 rows = 0 ->
  countRows exceedsGI rows = 0 ->
  let r := analyzeCensusData Date_parse clock rows in
  scoresOf r = [100; 100; 100; 100; 100]%Z
  /\ riskLevel r = LowRisk
  /\ predictedImpact r
     = {| clarifications := "1-2 cycles"; eoiVolume := 0;
          postIssueCorrectionRisk := "Low" |}.
Proof.
  intros Hne Hms Hmd Hv Hw Hg. cbv zeta.
  assert (Hz : countRows coverageWithoutSalary rows = 0).
  { pose proof (countRows_impl coverageWithoutSalary missingSalary rows) as H.
    rewrite Hms in H. apply Nat.le_0_r, H. intros row.
    unfold coverageWithoutSalary. now intros [_ ?]%andb_prop. }
  destruct (scores_counts Date_parse clock rows Hne) as (H1 & H2 & H3 & H4 & H5).
  rewrite Hms, Hmd, Hv, Hz, Hw, Hg in *.
  rewrite completenessScore_clean, consistencyScore_clean, eoiScore_clean in *.
  assert (Ho : overallScore (analyzeCensusData Date_parse clock rows) = 100%Z)
    by (rewrite H1; vm_compute; reflexivity).
  split; [|split].
  - unfold scoresOf. rewrite Ho, H2, H3, H4, H5. vm_compute. reflexivity.
  - rewrite riskLevel_analyze, Ho by assumption. reflexivity.
  - destruct (artifacts_counts Date_parse clock rows Hne) as (_ & _ & Hp).
    rewrite Hp, Ho, Hg. vm_compute. reflexivity.
Qed.

Lemma clean_census_scores_100_witness :
  scoresOf (analyzeCensusData IsoHost.Date_parse (IsoHost.at_ Examples.jan20)
              [Examples.plain "E1"; Examples.plain "E2"])
  = [100; 100; 100; 100; 100]%Z.
Proof.
  apply (clean_census_scores_100 IsoHost.Date_parse (IsoHost.at_ Examples.jan20)
           [Examples.plain "E1"; Examples.plain "E2"]);
    [discriminate | vm_compute; reflexivity ..].
Defined.

(** ** The gauge of the dashboard and the risk band *)

(** X10: the label that the score gauge shows for the overall score of a
    result, against the risk band of the same result.  The gauge cuts at
    90, 75 and 60 and the band at 85 and 70, so the two agree at the ends
    only.  Exactly six pairs go together, and each of them is the band
    and label of some census: Low with "Clean, Low Risk" or "Minor
    Issues", Moderate with "Minor Issues" or "Moderate Risk", High with
    "Moderate Risk" or "High Risk".  So a gauge of "Clean, Low Risk"
    comes with a Low band and a gauge of "High Risk" with a High band,
    while the two labels in between tell the band of no result. *)
Theorem gauge_label_vs_risk_band :
  (forall (Date_parse : string -> option Z) (clock : nat -> Z)
          (rows : list CensusRow),
      let r := analyzeCensusData Date_parse clock rows in
      In (bandAndLabel r) bandsAndLabels
      /\ (Dashboard.getLabel (overallScore r) = "Clean, Low Risk" ->
          riskLevel r = LowRisk)
      /\ (Dashboard.getLabel (overallScore r) = "High Risk" ->
          riskLevel r = HighRisk))
  /\ Forall (fun pair =>
               exists rows : list CensusRow,
                 bandAndLabel
                   (analyzeCensusData IsoHost.Date_parse
                      (IsoHost.at_ Examples.jan20) rows) = pair)
            bandsAndLabels.
Proof.
  split.
  - intros Date_parse clock rows. cbv zeta. unfold bandAndLabel, bandsAndLabels.
    destruct rows as [|row rows].
    { cbn. repeat split; intros; try discriminate; auto 10. }
    rewrite riskLevel_analyze by discriminate.
    set (o := overallScore _). clearbody o.
    unfold riskLevelOf, Dashboard.getLabel.
    destruct (Z.leb_spec 85 o), (Z.leb_spec 70 o), (Z.leb_spec 90 o),
      (Z.leb_spec 75 o), (Z.leb_spec 60 o); try lia;
      repeat split; intros; try discriminate; simpl; auto 10.
  - unfold bandsAndLabels.
    constructor; [exists (replicate 1 (Examples.noSalary "E1")); vm_compute; reflexivity|].
    constructor; [exists (replicate 6 (Examples.noSalary "E1")); vm_compute; reflexivity|].
    constructor; [exists (replicate 10 (Examples.noSalary "E1")); vm_compute; reflexivity|].
    constructor; [exists (replicate 13 (Examples.noSalary "E1")); vm_compute; reflexivity|].
    constructor; [exists (replicate 15 (Examples.noSalary "E1")); vm_compute; reflexivity|].
    constructor; [exists (replicate 20 (Examples.noSalary "E1")); vm_compute; reflexivity|].
    constructor.
Qed.

(** Fifteen records without a salary score 69: the band is High and the
    gauge reads "Moderate Risk". *)
Example status_and_gauge_disagree :
  let r := analyzeCensusData IsoHost.Date_parse (IsoHost.at_ Examples.jan20)
             (replicate 15 (Examples.noSalary "E1")) in
  overallScore r = 69%Z
  /\ riskLevel r = HighRisk
  /\ Dashboard.getLabel (overallScore r) = "Moderate Risk".
Proof. vm_compute. repeat split. Qed.

(** ** Reading the uploaded text *)

Lemma hasChar_app c a b : hasChar c (a ++ b) = hasChar c a || hasChar c b.
Proof.
  induction a as [|x a IH]; simpl; [reflexivity|].
  now rewrite IH, orb_assoc.
Qed.

Lemma append_assoc (a b c : string) : (a ++ b) ++ c = a ++ b ++ c.
Proof.
  induction a as [|x a IH]; [reflexivity|].
  change (String x ((a ++ b) ++ c) = String x (a ++ b ++ c)). now rewrite IH.
Qed.

Lemma split_nonempty sep s : JSString.split sep s ≠ [].
Proof.
  destruct s as [|c s]; simpl; [discriminate|].
  destruct (Ascii.eqb c sep); [discriminate|].
  destruct (JSString.split sep s); discriminate.
Qed.

(** No piece holds the separator, and a piece holds no character that
    the text does not hold. *)
Lemma split_pieces sep s :
  Forall (fun piece => hasChar sep piece = false
                       /\ forall c, hasChar c piece = true -> hasChar c s = true)
         (JSString.split sep s).
Proof.
  induction s as [|a s IH]; simpl.
  - repeat constructor. intros c H. discriminate H.
  - destruct (Ascii.eqb_spec a sep) as [->|Hne].
    + constructor.
      * split; [reflexivity|]. intros c H. discriminate H.
      * eapply Forall_impl; [exact IH|]. simpl. intros piece [H1 H2].
        split; [exact H1|]. intros c Hc. rewrite (H2 c Hc). apply orb_true_r.
    + destruct (JSString.split sep s) as [|piece pieces].
      * repeat constructor; simpl.
        -- rewrite orb_false_r. now apply Ascii.eqb_neq.
        -- intros c H. rewrite orb_false_r in H. now rewrite H.
      * apply Forall_cons_1 in IH as [[H1 H2] IH]. constructor.
        -- split; simpl.
           ++ rewrite H1, orb_false_r. now apply Ascii.eqb_neq.
           ++ intros c [H|H]%orb_prop; [now rewrite H|].
              rewrite (H2 c H). apply orb_true_r.
        -- eapply Forall_impl; [exact IH|]. simpl. intros p [H3 H4].
           split; [exact H3|]. intros c Hc. rewrite (H4 c Hc). apply orb_true_r.
Qed.

Lemma dropPrefix_app p : forall s r, JS.dropPrefix p s = Some r -> s = p ++ r.
Proof.
  induction p as [|a p IH]; intros s r H; simpl in *.
  - now injection H.
  - destruct s as [|b s]; [discriminate|].
    destruct (Ascii.eqb_spec a b) as [->|]; [|discriminate].
    now rewrite (IH s r H).
Qed.

Lemma dropAnyPrefix_app ps : forall s r,
  JS.dropAnyPrefix ps s = Some r -> exists p, s = p ++ r.
Proof.
  induction ps as [|p ps IH]; intros s r H; simpl in *; [discriminate|].
  destruct (JS.dropPrefix p s) as [r'|] eqn:E.
  - injection H as ->. exists p. now apply dropPrefix_app.
  - now apply IH.
Qed.

Lemma trimStartFuel_suffix fuel : forall s,
  exists p, s = p ++ JS.trimStartFuel fuel s.
Proof.
  induction fuel as [|fuel IH]; intros s; cbn [JS.trimStartFuel].
  - now exists "".
  - destruct (JS.dropAnyPrefix JS.whiteSpace s) as [r|] eqn:E; [|now exists ""].
    destruct (dropAnyPrefix_app _ _ _ E) as [p ->].
    destruct (IH r) as [q Hq]. exists (p ++ q).
    rewrite Hq at 1. now rewrite append_assoc.
Qed.

Lemma trimStart_chars c s :
  hasChar c (JS.trimStart s) = true -> hasChar c s = true.
Proof.
  intros H. destruct (trimStartFuel_suffix (String.length s) s) as [p Hp].
  rewrite Hp, hasChar_app. unfold JS.trimStart in H. rewrite H. apply orb_true_r.
Qed.

Lemma trimEnd_chars c s :
  hasChar c (JSString.trimEnd s) = true -> hasChar c s = true.
Proof.
  induction s as [|a s IH]; [trivial|].
  cbn [JSString.trimEnd].
  destruct (JSString.isBlank (String a s)); [discriminate|].
  simpl. intros [H|H]%orb_prop; [now rewrite H|].
  rewrite (IH H). apply orb_true_r.
Qed.

Lemma trim_chars c s : hasChar c (JSString.trim s) = true -> hasChar c s = true.
Proof. intros H. now apply trimStart_chars, trimEnd_chars. Qed.

Lemma trim_no_char c s : hasChar c s = false -> hasChar c (JSString.trim s) = false.
Proof.
  intros H. destruct (hasChar c (JSString.trim s)) eqn:E; [|reflexivity].
  apply trim_chars in E. congruence.
Qed.

(** *** The object of a line *)

Lemma getProp_insert k k' v (row : RowObject) :
  getProp (<[k' := v]> row) k = if String.eqb k' k then v else getProp row k.
Proof.
  unfold getProp, RowObject in *. destruct (String.eqb_spec k' k) as [->|Hne].
  - now rewrite lookup_insert_eq.
  - now rewrite lookup_insert_ne.
Qed.

Lemma setFields_getProp headers values key : forall index row,
  getProp (setFields headers index values row) key
  = match lastColumn key headers index with
    | Some j => JSString.trim <$> values !! j
    | None => getProp row key
    end.
Proof.
  induction headers as [|header rest IH]; intros index row; simpl; [reflexivity|].
  rewrite IH. destruct (lastColumn key rest (S index)); [reflexivity|].
  rewrite getProp_insert. now destruct (String.eqb (keyOf header) key).
Qed.

Lemma rowObject_getProp headers line key :
  getProp (rowObject headers line) key = cellUnder key headers line.
Proof.
  unfold rowObject, cellUnder. rewrite setFields_getProp.
  now destruct (lastColumn key headers 0).
Qed.

Lemma asCensusRow_rowObject headers line :
  asCensusRow (rowObject headers line) = recordOfLine headers line.
Proof.
  unfold asCensusRow, recordOfLine. now rewrite !rowObject_getProp.
Qed.

Lemma parseCSV_lines csvText :
  parseCSV csvText = map (recordOfLine (headersOf csvText)) (dataLines csvText).
Proof.
  unfold parseCSV, dataLines, headersOf.
  destruct (nonBlankLines csvText) as [|first rest]; [reflexivity|].
  cbn [length Nat.eqb]. apply map_ext. intros line. apply asCensusRow_rowObject.
Qed.

Lemma parsed_rows_length csvText :
  length (parseCSV csvText) = length (nonBlankLines csvText) - 1.
Proof.
  rewrite parseCSV_lines, length_map. unfold dataLines. apply length_drop.
Qed.

(** X11: what [parseCSV] returns, column by column.  There is one record
    per line that is not blank after the first such line, the header;
    each field of a record is the trimmed cell of its line under the last
    column whose header is stored under the name of the field, and is
    undefined when there is no such column or the line ends before it. *)
Theorem parsed_fields_by_last_column (csvText : string) :
  parseCSV csvText = map (recordOfLine (headersOf csvText)) (dataLines csvText)
  /\ length (parseCSV csvText) = length (nonBlankLines csvText) - 1.
Proof.
  split; [apply parseCSV_lines|apply parsed_rows_length].
Qed.

Lemma cellUnder_chars key headers line v :
  cellUnder key headers line = Some v ->
  hasChar ","%char v = false
  /\ forall c, hasChar c v = true -> hasChar c line = true.
Proof.
  unfold cellUnder. destruct (lastColumn key headers 0) as [j|]; [|discriminate].
  destruct (JSString.split ","%char line !! j) as [cell|] eqn:E; [|discriminate].
  intros [= <-].
  pose proof (split_pieces ","%char line) as H.
  rewrite Forall_lookup in H. destruct (H j cell E) as [H1 H2]. split.
  - now apply trim_no_char.
  - intros c Hc. now apply H2, trim_chars.
Qed.

Lemma fieldText_fieldOf o : fieldText (fieldOf o) = o.
Proof. now destruct o. Qed.

Lemma Forall_omap_id {A} (P : A -> Prop) (l : list (option A)) :
  Forall (fun o => forall v, o = Some v -> P v) l -> Forall P (omap id l).
Proof.
  induction 1 as [|o l Ho _ IH]; simpl; [constructor|].
  destruct o as [v|]; simpl; [constructor; auto|exact IH].
Qed.

Lemma nonBlankLines_no_LF csvText :
  Forall (fun line => hasChar LF line = false) (nonBlankLines csvText).
Proof.
  unfold nonBlankLines. apply Forall_forall. intros line Hin.
  apply list_elem_of_In, filter_In in Hin as [Hin _].
  apply list_elem_of_In in Hin.
  pose proof (split_pieces LF csvText) as H.
  rewrite Forall_forall in H. now destruct (H line Hin) as [H1 _].
Qed.

(** X12: no text that a parsed record holds contains a comma or a line
    feed: the lines are cut at every line feed and the cells at every
    comma, quoted or not. *)
Theorem parsed_fields_hold_no_separator (csvText : string) :
  Forall (fun row =>
            Forall (fun v => hasChar ","%char v = false /\ hasChar LF v = false)
                   (texts row))
         (parseCSV csvText).
Proof.
  rewrite parseCSV_lines. apply Forall_map.
  assert (Hl : Forall (fun line => hasChar LF line = false) (dataLines csvText)).
  { unfold dataLines. apply Forall_drop, nonBlankLines_no_LF. }
  eapply Forall_impl; [exact Hl|]. simpl. intros line Hline.
  assert (Hcell : forall key v, cellUnder key (headersOf csvText) line = Some v ->
                    hasChar ","%char v = false /\ hasChar LF v = false).
  { intros key v Hv. destruct (cellUnder_chars _ _ _ _ Hv) as [H1 H2].
    split; [exact H1|]. destruct (hasChar LF v) eqn:E; [|reflexivity].
    rewrite (H2 LF E) in Hline. discriminate. }
  unfold texts, recordOfLine. cbn -[cellUnder omap].
  rewrite !fieldText_fieldOf. apply Forall_omap_id.
  repeat (constructor; [now apply Hcell|]). constructor.
Qed.

(** A salary of 52,000 written with its thousands separator, quoted or
    not, is cut at the comma: the salary read is 52 and the later cells
    move one column to the right. *)
Example thousands_separator_splits_the_cell :
  let text := "Employee ID,Annual Salary,DOB" ++ String LF "E1,$52,000,1980-05-17" in
  map (fun row => (parseMoney (annualSalary row), dob row)) (parseCSV text)
  = [(JS.Fin 52, Some "000")].
Proof. vm_compute. reflexivity. Qed.

(** *** Which header is read as which field *)




(** Headers as they occur: spacing, case and punctuation do not matter;
    "Salary (USD)" is not read as the salary, and a header with "id"
    anywhere in it, "Paid Annual Salary" or "Middle Name", is read as the
    employee identifier. *)
Example header_keys :
  map keyOf [ "Employee ID"; "  annual_salary "; "SALARY"; "Salary (USD)";
              "Paid Annual Salary"; "Middle Name"; "Date of Birth"; "Hire Date" ]
  = [ "employeeId"; "annualSalary"; "annualSalary"; "salaryusd";
      "employeeId"; "employeeId"; "dob"; "hireDate" ].
Proof. vm_compute. reflexivity. Qed.

(** ** The upload handler *)

Lemma orZero_not_NaN a : JS.orZero a ≠ JS.NaN.
Proof. unfold JS.orZero. destruct a; simpl; try discriminate.
  destruct (negb (JS.Qis_zero q)); discriminate. Qed.

Lemma parseMoney_text_not_NaN o : parseMoney (fieldOf o) ≠ JS.NaN.
Proof.
  destruct o as [[|c s]|]; simpl; try discriminate. apply orZero_not_NaN.
Qed.

Lemma missing_iff_at_most_zero row :
  salaryOf row ≠ JS.NaN -> missingSalary row = salaryAtMostZero row.
Proof.
  unfold missingSalary, salaryAtMostZero, JS.le.
  destruct (salaryOf row); [contradiction|reflexivity..].
Qed.

Lemma countRows_ext_Forall p q rows :
  Forall (fun row => p row = q row) rows -> countRows p rows = countRows q rows.
Proof.
  induction 1 as [|row rows H _ IH]; [reflexivity|].
  now rewrite !countRows_cons, H, IH.
Qed.

Lemma uploadRows_cases text :
  (parseCSV text = [] /\ uploadRows text = [emptyRecord])
  \/ (parseCSV text ≠ [] /\ uploadRows text = parseCSV text).
Proof.
  unfold uploadRows. destruct (parseCSV text) as [|row rows]; [left|right];
    split; trivial; discriminate.
Qed.

Lemma uploadRows_from_objects text :
  Forall (fun row => exists o, row = asCensusRow o) (uploadRows text).
Proof.
  destruct (uploadRows_cases text) as [[_ ->]|[_ ->]].
  - repeat constructor. now exists ∅.
  - unfold parseCSV. destruct (length _ =? 0)%nat; [constructor|].
    apply Forall_map, Forall_forall. intros line _. eauto.
Qed.

(** X14: no record that the upload handler passes to the engine has a
    salary or a basic coverage that parses to NaN, because every field
    that [parseCSV] stores is a text or undefined, never a number.  On
    such records the engine's test for a missing salary, "not above 0",
    is the test "at most 0", and the two counts agree. *)
Theorem uploaded_amounts_never_NaN (text : string) :
  Forall (fun row => salaryOf row ≠ JS.NaN /\ basicCovOf row ≠ JS.NaN
                     /\ missingSalary row = salaryAtMostZero row)
         (uploadRows text)
  /\ countRows missingSalary (uploadRows text)
     = countRows salaryAtMostZero (uploadRows text).
Proof.
  assert (H : Forall (fun row => salaryOf row ≠ JS.NaN /\ basicCovOf row ≠ JS.NaN
                                 /\ missingSalary row = salaryAtMostZero row)
                     (uploadRows text)).
  { eapply Forall_impl; [apply uploadRows_from_objects|]. simpl.
    intros row [o ->].
    assert (Hs : salaryOf (asCensusRow o) ≠ JS.NaN)
      by apply parseMoney_text_not_NaN.
    repeat split; [exact Hs|apply parseMoney_text_not_NaN|].
    now apply missing_iff_at_most_zero. }
  split; [exact H|]. apply countRows_ext_Forall.
  eapply Forall_impl; [exact H|]. simpl. now intros row (_ & _ & ?).
Qed.

(** X15: the upload handler never passes an empty array to the engine.
    For every text the result counts at least one employee, namely the
    number of data lines or 1 when there is none; it is never the
    "No data found" result, and its list of recommended actions is not
    empty. *)
Theorem upload_never_empty (Date_parse : string -> option Z) (clock : nat -> Z)
    (text : string) :
  let r := uploadResult Date_parse clock text in
  totalEmployees r = Nat.max 1 (length (nonBlankLines text) - 1)
  /\ r ≠ emptyResult
  /\ recommendedActions r ≠ [].
Proof.
  cbv zeta. unfold uploadResult.
  assert (Hlen : length (uploadRows text) = Nat.max 1 (length (nonBlankLines text) - 1)).
  { pose proof (parsed_rows_length text) as Hl.
    destruct (uploadRows_cases text) as [[E ->]|[E ->]].
    - rewrite E in Hl. simpl in Hl. simpl. lia.
    - destruct (parseCSV text); [contradiction|]. simpl in *. lia. }
  assert (Ht : totalEmployees (analyzeCensusData Date_parse clock (uploadRows text))
               = Nat.max 1 (length (nonBlankLines text) - 1))
    by now rewrite totalEmployees_analyze.
  split; [exact Ht|]. split.
  - intros E. rewrite E in Ht. cbn in Ht. lia.
  - destruct (uploadRows text) as [|row rows]; [simpl in Hlen; lia|].
    rewrite recommendedActions_analyze. apply actionsFor_nonempty.
Qed.

(** X16: a text without a data line (empty, blank, or a header alone) is
    analysed as one empty record: the result counts 1 employee, with a
    missing salary and a missing date of birth, scores 97 overall
    (Completeness 91, Consistency and Eligibility 100, EOI Risk 97) and
    is Low risk, on every host and at every clock reading. *)
Theorem upload_without_data (Date_parse : string -> option Z) (clock : nat -> Z)
    (text : string) :
  length (nonBlankLines text) <= 1 ->
  let r := uploadResult Date_parse clock text in
  totalEmployees r = 1
  /\ scoresOf r = [97; 91; 100; 100; 97]%Z
  /\ riskLevel r = LowRisk
  /\ issueCount "Missing Salary" r = 1%Z
  /\ issueCount "Missing DOB" r = 1%Z
  /\ anomalies r = [missingSalariesAnomaly 1]
  /\ topRiskDrivers r = ["1 missing salary records"]
  /\ executiveSummary r
     = "This census demonstrates low enrollment risk (Score: 97). Primary drivers include 0 EOI cases and 1 missing data points.".
Proof.
  intros Hlen. cbv zeta. unfold uploadResult.
  assert (E : uploadRows text = [emptyRecord]).
  { destruct (uploadRows_cases text) as [[_ ->]|[Hne _]]; [reflexivity|].
    pose proof (parsed_rows_length text) as Hl.
    destruct (parseCSV text); [contradiction|]. simpl in Hl. lia. }
  rewrite E. vm_compute. repeat split.
Qed.

Lemma upload_without_data_witness :
  scoresOf (uploadResult IsoHost.Date_parse (IsoHost.at_ Examples.jan20)
              "Employee ID,Name,Annual Salary")
  = [97; 91; 100; 100; 97]%Z.
Proof.
  apply (upload_without_data IsoHost.Date_parse (IsoHost.at_ Examples.jan20)
           "Employee ID,Name,Annual Salary").
  vm_compute. lia.
Defined.

(** ** More findings never raise a score *)

Lemma completenessScore_antitone_both total ms ms' md md' :
  ms <= ms' -> md <= md' ->
  (completenessScore total ms' md' <= completenessScore total ms md)%Q.
Proof.
  intros Hs Hd. unfold completenessScore. apply clamp_mono.
  pose proof (num_le _ _ Hs). pose proof (num_le _ _ Hd).
  assert (H5 : (0 <= inject_Z PENALTY_MISSING_SALARY)%Q) by discriminate.
  assert (H4 : (0 <= inject_Z PENALTY_MISSING_DOB)%Q) by discriminate.
  apply fadd_mono.
  - apply fsub_mono; [apply Qle_refl|].
    apply fadd_mono; now apply fmul_mono_r.
  - apply densityAdj_antitone.
    apply fdiv_mono_r; [apply num_nonneg|]. now apply fadd_mono.
Qed.

Lemma consistencyScore_antitone total v v' z z' :
  v <= v' -> z <= z' ->
  (consistencyScore total v' z' <= consistencyScore total v z)%Q.
Proof.
  intros Hv Hz. unfold consistencyScore. apply clamp_mono.
  pose proof (num_le _ _ Hv). pose proof (num_le _ _ Hz).
  assert (H6 : (0 <= inject_Z PENALTY_VOL_OVER_MAX)%Q) by discriminate.
  assert (H5 : (0 <= inject_Z PENALTY_ZERO_SALARY_COV)%Q) by discriminate.
  apply fadd_mono.
  - apply fsub_mono; [apply Qle_refl|].
    apply fadd_mono; now apply fmul_mono_r.
  - assert (Hd : (num (v + z) /! num total <= num (v' + z') /! num total)%js%Q).
    { apply fdiv_mono_r; [apply num_nonneg|]. apply num_le. lia. }
    destruct (Nat.ltb_spec 0 (v + z)), (Nat.ltb_spec 0 (v' + z')); try lia.
    + destruct (Qle_bool (num (v' + z') /! num total)%js (JS.lit 0.05)) eqn:E';
        destruct (Qle_bool (num (v + z) /! num total)%js (JS.lit 0.05)) eqn:E;
        try discriminate; try apply Qle_refl.
      apply Qle_bool_iff in E'. apply Qle_bool_false in E.
      exfalso. apply (Qlt_irrefl (JS.lit 0.05)).
      eapply Qlt_le_trans; [exact E|]. eapply Qle_trans; eassumption.
    + destruct (Qle_bool _ _); discriminate.
    + apply Qle_refl.
Qed.

Lemma eligibilityScore_antitone w w' :
  w <= w' -> (eligibilityScore w' <= eligibilityScore w)%Q.
Proof.
  intros Hw. unfold eligibilityScore. apply clamp_mono.
  pose proof (num_le _ _ Hw).
  apply fsub_mono; [apply Qle_refl|].
  apply fadd_mono; [|apply Qle_refl]. apply fmul_mono_r; [discriminate|trivial].
Qed.

Lemma eoiScore_antitone_both total g g' ms ms' :
  g <= g' -> ms <= ms' ->
  (eoiScore total g' ms' <= eoiScore total g ms)%Q.
Proof.
  intros Hg Hs. unfold eoiScore, eoiRatePercent. apply clamp_mono.
  pose proof (num_le _ _ Hg). pose proof (num_le _ _ Hs).
  apply fsub_mono.
  - apply fsub_mono; [apply Qle_refl|].
    apply fmul_mono_r; [apply lit_nonneg; discriminate|].
    apply fmul_mono_r; [discriminate|].
    apply fdiv_mono_r; [apply num_nonneg|trivial].
  - apply fmul_mono_r; [discriminate|trivial].
Qed.

Lemma riskLevelOf_mono o o' :
  (o' <= o)%Z ->
  (riskLevelOf o' = LowRisk -> riskLevelOf o = LowRisk)
  /\ (riskLevelOf o = HighRisk -> riskLevelOf o' = HighRisk).
Proof.
  intros H. unfold riskLevelOf.
  destruct (Z.leb_spec 85 o), (Z.leb_spec 70 o), (Z.leb_spec 85 o'),
    (Z.leb_spec 70 o'); try lia; split; intros; trivial; discriminate.
Qed.

(** X17: of two runs on the same number of records, the one with no
    fewer findings of any kind (missing salaries, missing dates of birth,
    elections over the plan maximum, coverage without salary, employees
    in the waiting period, employees over the guaranteed-issue limit) has
    no higher overall score and no higher sub-score, and its risk band is
    no better. *)
Theorem findings_never_raise_scores (Date_parse : string -> option Z)
    (clock clock' : nat -> Z) (rows rows' : list CensusRow) :
  rows ≠ [] ->
  length rows = length rows' ->
  countRows missingSalary rows <= countRows missingSalary rows' ->
  countRows (missingDob Date_parse) rows <= countRows (missingDob Date_parse) rows' ->
  countRows volOverMax rows <= countRows volOverMax rows' ->
  countRows coverageWithoutSalary rows <= countRows coverageWithoutSalary rows' ->
  countTimedFrom (inWaitingPeriod Date_parse) clock 0 rows
    <= countTimedFrom (inWaitingPeriod Date_parse) clock' 0 rows' ->
  countRows exceedsGI rows <= countRows exceedsGI rows' ->
  let r := analyzeCensusData Date_parse clock rows in
  let r' := analyzeCensusData Date_parse clock' rows' in
  Forall2 Z.le (scoresOf r') (scoresOf r)
  /\ (riskLevel r' = LowRisk -> riskLevel r = LowRisk)
  /\ (riskLevel r = HighRisk -> riskLevel r' = HighRisk).
Proof.
  intros Hne Hlen Hms Hmd Hv Hz Hw Hg. cbv zeta.
  assert (Hne' : rows' ≠ []) by (destruct rows, rows'; try discriminate; congruence).
  destruct (scores_counts Date_parse clock rows Hne) as (H1 & H2 & H3 & H4 & H5).
  destruct (scores_counts Date_parse clock' rows' Hne') as (H1' & H2' & H3' & H4' & H5').
  rewrite <- Hlen in H1', H2', H3', H5'.
  pose proof (completenessScore_antitone_both (length rows) _ _ _ _ Hms Hmd) as Hc.
  pose proof (consistencyScore_antitone (length rows) _ _ _ _ Hv Hz) as Hn.
  pose proof (eligibilityScore_antitone _ _ Hw) as He.
  pose proof (eoiScore_antitone_both (length rows) _ _ _ _ Hg Hms) as Ho.
  assert (Hover : (overallScore (analyzeCensusData Date_parse clock' rows')
                   <= overallScore (analyzeCensusData Date_parse clock rows))%Z).
  { rewrite H1, H1'. now apply round_mono, weightedScore_mono. }
  split.
  - unfold scoresOf. rewrite H2, H3, H4, H5, H2', H3', H4', H5'.
    repeat (constructor; [first [exact Hover | now apply round_mono]|]).
    constructor.
  - rewrite !riskLevel_analyze by assumption. now apply riskLevelOf_mono.
Qed.

Lemma findings_never_raise_scores_witness :
  Forall2 Z.le
    (scoresOf (analyzeCensusData IsoHost.Date_parse (IsoHost.at_ Examples.jan20)
                 [Examples.noSalary "E1"; Examples.newHire "E2"]))
    (scoresOf (analyzeCensusData IsoHost.Date_parse (IsoHost.at_ Examples.jan20)
                 [Examples.plain "E1"; Examples.plain "E2"])).
Proof.
  apply (findings_never_raise_scores IsoHost.Date_parse
           (IsoHost.at_ Examples.jan20) (IsoHost.at_ Examples.jan20)
           [Examples.plain "E1"; Examples.plain "E2"]
           [Examples.noSalary "E1"; Examples.newHire "E2"]);
    [discriminate | reflexivity | vm_compute; lia ..].
Defined.

(** ** The order of the records *)

Lemma bump_comm b1 b2 n : bump b1 (bump b2 n) = bump b2 (bump b1 n).
Proof. now destruct b1, b2. Qed.

Lemma countId_comm id1 id2 (m : gmap string nat) :
  countId id1 (countId id2 m) = countId id2 (countId id1 m).
Proof.
  destruct (decide (id1 = id2)) as [->|Hne]; [reflexivity|].
  unfold countId.
  rewrite !lookup_insert_ne by congruence.
  now apply insert_insert_ne.
Qed.

Lemma visit_comm (Date_parse : string -> option Z) now c row1 row2 :
  visit Date_parse now (visit Date_parse now c row1) row2
  = visit Date_parse now (visit Date_parse now c row2) row1.
Proof.
  unfold visit. cbn [missingSalaryCount missingDobCount volMultiOverMaxCount
    zeroSalaryCount waitingPeriodCount employeesExceedingGI employeeIdCounts].
  f_equal; try apply bump_comm.
  destruct (employeeId row1) as [[|a1 s1]|], (employeeId row2) as [[|a2 s2]|];
    trivial. apply countId_comm.
Qed.

Lemma forEachFrom_still (Date_parse : string -> option Z) t rows : forall i c,
  forEachFrom Date_parse (IsoHost.at_ t) i c rows
  = foldl (visit Date_parse t) c rows.
Proof.
  induction rows as [|row rows IH]; intros i c; simpl; [reflexivity|].
  apply IH.
Qed.

Lemma foldl_visit_permutation (Date_parse : string -> option Z) t rows rows' :
  rows ≡ₚ rows' ->
  forall c, foldl (visit Date_parse t) c rows = foldl (visit Date_parse t) c rows'.
Proof.
  induction 1 as [|row l l' _ IH|row1 row2 l|l1 l2 l3 _ IH1 _ IH2]; intros c; simpl.
  - reflexivity.
  - apply IH.
  - now rewrite visit_comm.
  - now rewrite IH1.
Qed.

(** X18: with a clock that stands still during the run, the order of
    the records does not matter: two arrays that hold the same records in
    another order get the same result, field by field. *)
Theorem record_order_irrelevant (Date_parse : string -> option Z) (t : Z)
    (rows rows' : list CensusRow) :
  rows ≡ₚ rows' ->
  analyzeCensusData Date_parse (IsoHost.at_ t) rows
  = analyzeCensusData Date_parse (IsoHost.at_ t) rows'.
Proof.
  intros Hp. unfold analyzeCensusData.
  rewrite (Permutation_length Hp), !forEachFrom_still,
    (foldl_visit_permutation Date_parse t rows rows' Hp).
  reflexivity.
Qed.

Lemma record_order_irrelevant_witness :
  analyzeCensusData IsoHost.Date_parse (IsoHost.at_ Examples.jan20)
    [Examples.noSalary "E1"; Examples.newHire "E2"]
  = analyzeCensusData IsoHost.Date_parse (IsoHost.at_ Examples.jan20)
      [Examples.newHire "E2"; Examples.noSalary "E1"].
Proof.
  apply (record_order_irrelevant IsoHost.Date_parse Examples.jan20).
  apply perm_swap.
Defined.

(** ** Carriage returns at the end of a line *)

Lemma length_append (a b : string) :
  String.length (a ++ b) = String.length a + String.length b.
Proof.
  induction a as [|x a IH]; [reflexivity|].
  change (S (String.length (a ++ b)) = S (String.length a + String.length b)).
  now rewrite IH.
Qed.

Lemma dropPrefix_append p t : forall s r,
  JS.dropPrefix p s = Some r -> JS.dropPrefix p (s ++ t) = Some (r ++ t).
Proof.
  induction p as [|a p IH]; intros s r H; simpl in *.
  - now injection H as ->.
  - destruct s as [|b s]; [discriminate|].
    change (String b s ++ t) with (String b (s ++ t)). cbn [JS.dropPrefix].
    destruct (Ascii.eqb a b); [now apply IH|discriminate].
Qed.

Lemma dropPrefix_none_CR p :
  hasChar CR p = false -> forall s,
  JS.dropPrefix p s = None -> JS.dropPrefix p (s ++ String CR "") = None.
Proof.
  induction p as [|y p IH]; intros Hp s H; simpl in *; [discriminate|].
  apply orb_false_elim in Hp as [Hy Hp].
  destruct s as [|b s].
  - change ("" ++ String CR "") with (String CR ""). cbn [JS.dropPrefix].
    now rewrite Hy.
  - change (String b s ++ String CR "") with (String b (s ++ String CR "")).
    cbn [JS.dropPrefix].
    destruct (Ascii.eqb y b); [now apply IH|reflexivity].
Qed.

Lemma dropAnyPrefix_CR ps s :
  forallb (fun p => negb (hasChar CR (tailOf p))) ps = true ->
  s ≠ "" ->
  JS.dropAnyPrefix ps (s ++ String CR "")
  = (fun r => r ++ String CR "") <$> JS.dropAnyPrefix ps s.
Proof.
  intros Hps Hs. induction ps as [|p ps IH]; simpl in *; [reflexivity|].
  apply andb_prop in Hps as [Hp Hps]. apply negb_true_iff in Hp.
  destruct (JS.dropPrefix p s) as [r|] eqn:E.
  - now rewrite (dropPrefix_append _ _ _ _ E).
  - assert (E' : JS.dropPrefix p (s ++ String CR "") = None).
    { destruct p as [|a p]; [discriminate E|].
      destruct s as [|b s]; [contradiction|].
      simpl in *. change (String b s ++ String CR "") with (String b (s ++ String CR "")).
      cbn [JS.dropPrefix].
      destruct (Ascii.eqb a b); [|reflexivity].
      now apply dropPrefix_none_CR. }
    rewrite E'. now apply IH.
Qed.

Lemma dropAnyPrefix_shorter ps : forall s r,
  forallb (fun p => negb (String.eqb p "")) ps = true ->
  JS.dropAnyPrefix ps s = Some r -> String.length r < String.length s.
Proof.
  induction ps as [|p ps IH]; intros s r Hps H; simpl in *; [discriminate|].
  apply andb_prop in Hps as [Hp Hps].
  destruct (JS.dropPrefix p s) as [r'|] eqn:E.
  - injection H as ->. apply dropPrefix_app in E. subst s.
    rewrite length_append. destruct p; [discriminate Hp|]. simpl. lia.
  - now apply IH.
Qed.

Lemma whiteSpace_shorter s r :
  JS.dropAnyPrefix JS.whiteSpace s = Some r -> String.length r < String.length s.
Proof. apply dropAnyPrefix_shorter. reflexivity. Qed.

Lemma whiteSpace_CR s :
  s ≠ "" ->
  JS.dropAnyPrefix JS.whiteSpace (s ++ String CR "")
  = (fun r => r ++ String CR "") <$> JS.dropAnyPrefix JS.whiteSpace s.
Proof. apply dropAnyPrefix_CR. reflexivity. Qed.

Lemma whiteSpace_empty : JS.dropAnyPrefix JS.whiteSpace "" = None.
Proof. reflexivity. Qed.

(** The fuel of [trimStart] is enough whenever it covers the text. *)
Lemma trimStartFuel_enough n : forall m s,
  String.length s <= n -> String.length s <= m ->
  JS.trimStartFuel n s = JS.trimStartFuel m s.
Proof.
  induction n as [|n IH]; intros m s Hn Hm.
  - destruct s; [|simpl in Hn; lia].
    destruct m; cbn [JS.trimStartFuel]; [reflexivity|].
    now rewrite whiteSpace_empty.
  - destruct m as [|m].
    + destruct s; [|simpl in Hm; lia].
      cbn [JS.trimStartFuel]. now rewrite whiteSpace_empty.
    + cbn [JS.trimStartFuel].
      destruct (JS.dropAnyPrefix JS.whiteSpace s) as [r|] eqn:E; [|reflexivity].
      apply whiteSpace_shorter in E. apply IH; lia.
Qed.

Lemma trimStart_step s :
  JS.trimStart s
  = match JS.dropAnyPrefix JS.whiteSpace s with
    | Some r => JS.trimStart r
    | None => s
    end.
Proof.
  unfold JS.trimStart. destruct s as [|c s]; [reflexivity|].
  cbn [String.length JS.trimStartFuel].
  destruct (JS.dropAnyPrefix JS.whiteSpace (String c s)) as [r|] eqn:E; [|reflexivity].
  apply whiteSpace_shorter in E. simpl in E. apply trimStartFuel_enough; lia.
Qed.

Lemma trimStart_CR_fuel n : forall s,
  String.length s <= n ->
  JS.trimStart (s ++ String CR "")
  = match JS.trimStart s with
    | EmptyString => EmptyString
    | y => y ++ String CR ""
    end.
Proof.
  induction n as [|n IH]; intros s Hn.
  - destruct s; [reflexivity|simpl in Hn; lia].
  - destruct s as [|c s]; [reflexivity|].
    rewrite (trimStart_step (String c s ++ String CR "")),
      (trimStart_step (String c s)), whiteSpace_CR by discriminate.
    destruct (JS.dropAnyPrefix JS.whiteSpace (String c s)) as [r|] eqn:E.
    + cbn [fmap option_fmap option_map]. apply IH.
      apply whiteSpace_shorter in E. lia.
    + reflexivity.
Qed.

Lemma trimStart_CR s :
  JS.trimStart (s ++ String CR "")
  = match JS.trimStart s with
    | EmptyString => EmptyString
    | y => y ++ String CR ""
    end.
Proof. now apply (trimStart_CR_fuel (String.length s)). Qed.

Lemma isBlank_CR s : JSString.isBlank (s ++ String CR "") = JSString.isBlank s.
Proof.
  unfold JSString.isBlank. rewrite trimStart_CR.
  now destruct (JS.trimStart s).
Qed.

Lemma trimEnd_CR s : JSString.trimEnd (s ++ String CR "") = JSString.trimEnd s.
Proof.
  induction s as [|c s IH]; [reflexivity|].
  change (String c s ++ String CR "") with (String c (s ++ String CR "")).
  cbn [JSString.trimEnd].
  change (String c (s ++ String CR "")) with (String c s ++ String CR "").
  rewrite isBlank_CR, IH. reflexivity.
Qed.

Lemma trim_CR s : JSString.trim (s ++ String CR "") = JSString.trim s.
Proof.
  unfold JSString.trim. rewrite trimStart_CR.
  destruct (JS.trimStart s) as [|c y] eqn:E; [reflexivity|].
  apply trimEnd_CR.
Qed.

Lemma trim_upToCR a b : upToCR a b -> JSString.trim a = JSString.trim b.
Proof. intros [->| ->]; [reflexivity|apply trim_CR]. Qed.

Lemma split_toCRLF s :
  JSString.split LF (toCRLF s) = withCR (JSString.split LF s).
Proof.
  induction s as [|c s IH]; [reflexivity|].
  cbn [toCRLF JSString.split].
  destruct (Ascii.eqb c LF) eqn:E.
  - cbn [JSString.split]. change (Ascii.eqb CR LF) with false.
    rewrite Ascii.eqb_refl. cbn iota. rewrite IH.
    destruct (JSString.split LF s) as [|p ps] eqn:Es.
    + now apply split_nonempty in Es.
    + reflexivity.
  - cbn [JSString.split]. rewrite E, IH.
    pose proof (split_nonempty LF s) as Hne.
    destruct (JSString.split LF s) as [|p [|q ps]]; [contradiction|reflexivity..].
Qed.

Lemma withCR_upToCR lines : Forall2 upToCR (withCR lines) lines.
Proof.
  induction lines as [|a [|b l] IH]; simpl.
  - constructor.
  - constructor; [now left|constructor].
  - constructor; [now right|exact IH].
Qed.

Lemma split_upToCR sep a b :
  sep ≠ CR -> upToCR a b ->
  Forall2 upToCR (JSString.split sep a) (JSString.split sep b).
Proof.
  intros Hsep [->| ->].
  { induction (JSString.split sep b); constructor; [now left|trivial]. }
  induction b as [|c s IH].
  - change ("" ++ String CR "") with (String CR ""). cbn [JSString.split].
    destruct (Ascii.eqb_spec CR sep) as [E|_]; [congruence|].
    constructor; [now right|constructor].
  - change (String c s ++ String CR "") with (String c (s ++ String CR "")).
    cbn [JSString.split].
    destruct (Ascii.eqb c sep).
    + constructor; [now left|exact IH].
    + pose proof (split_nonempty sep s) as N1.
      pose proof (split_nonempty sep (s ++ String CR "")) as N2.
      destruct (JSString.split sep (s ++ String CR "")) as [|p' ps'],
        (JSString.split sep s) as [|p ps]; try contradiction.
      inversion IH as [|? ? ? ? Hp Hps]; subst.
      constructor; [|exact Hps].
      destruct Hp as [->| ->]; [now left|now right].
Qed.

Lemma Forall2_filter_same {A} (R : A -> A -> Prop) (f : A -> bool) l' l :
  (forall a b, R a b -> f a = f b) ->
  Forall2 R l' l -> Forall2 R (List.filter f l') (List.filter f l).
Proof.
  intros Hf. induction 1 as [|a b l' l Hab _ IH]; simpl; [constructor|].
  rewrite (Hf a b Hab). destruct (f b); [constructor|]; trivial.
Qed.

Lemma Forall2_map_same {A B} (R : A -> A -> Prop) (f : A -> B) l' l :
  (forall a b, R a b -> f a = f b) -> Forall2 R l' l -> map f l' = map f l.
Proof.
  intros Hf. induction 1 as [|a b l' l Hab _ IH]; simpl; [reflexivity|].
  now rewrite (Hf a b Hab), IH.
Qed.

Lemma comma_not_CR : ","%char ≠ CR.
Proof. discriminate. Qed.

Lemma LF_not_CR : LF ≠ CR.
Proof. discriminate. Qed.

Lemma cells_upToCR a b :
  upToCR a b ->
  map JSString.trim (JSString.split ","%char a)
  = map JSString.trim (JSString.split ","%char b).
Proof.
  intros H. apply (Forall2_map_same upToCR); [apply trim_upToCR|].
  now apply split_upToCR; [apply comma_not_CR|].
Qed.

Lemma cellUnder_upToCR key headers a b :
  upToCR a b -> cellUnder key headers a = cellUnder key headers b.
Proof.
  intros H. unfold cellUnder. destruct (lastColumn key headers 0) as [j|]; trivial.
  rewrite <- !list_lookup_fmap. change (fmap JSString.trim) with (map JSString.trim).
  now rewrite (cells_upToCR a b H).
Qed.

Lemma recordOfLine_upToCR headers a b :
  upToCR a b -> recordOfLine headers a = recordOfLine headers b.
Proof.
  intros H. unfold recordOfLine. now rewrite !(cellUnder_upToCR _ headers a b H).
Qed.

Lemma nonBlankLines_toCRLF text :
  Forall2 upToCR (nonBlankLines (toCRLF text)) (nonBlankLines text).
Proof.
  unfold nonBlankLines. apply Forall2_filter_same.
  - intros a b H. now rewrite (trim_upToCR a b H).
  - rewrite split_toCRLF. apply withCR_upToCR.
Qed.

(** X19: line endings of carriage return and line feed are read like
    plain line feeds: putting a carriage return before every line feed
    of a text changes neither the records that [parseCSV] returns nor,
    with them, the result of the upload. *)
Theorem crlf_line_endings (text : string) :
  parseCSV (toCRLF text) = parseCSV text
  /\ forall (Date_parse : string -> option Z) (clock : nat -> Z),
       uploadResult Date_parse clock (toCRLF text)
       = uploadResult Date_parse clock text.
Proof.
  assert (H : parseCSV (toCRLF text) = parseCSV text).
  { rewrite !parseCSV_lines. unfold headersOf, dataLines.
    pose proof (nonBlankLines_toCRLF text) as Hl.
    destruct Hl as [|a b l' l Hab Hl]; [reflexivity|].
    cbn [lookup list_lookup default drop id].
    rewrite (cells_upToCR a b Hab).
    apply (Forall2_map_same upToCR); [|exact Hl].
    intros x y Hxy. now apply recordOfLine_upToCR. }
  split; [exact H|]. intros Date_parse clock.
  unfold uploadResult, uploadRows. now rewrite H.
Qed.

(** A file with Windows line endings and a blank line. *)
Example crlf_file :
  let text := "Employee ID,Salary" ++ String CR (String LF "E1,100")
              ++ String CR (String LF (String CR (String LF "E2, 200 ")))
              ++ String CR (String LF "") in
  map (fun row => (employeeId row, annualSalary row)) (parseCSV text)
  = [(Some "E1", Str "100"); (Some "E2", Str "200")].
Proof. vm_compute. reflexivity. Qed.

(** ** The recommended actions *)

Lemma actionsFor_spec ms g d v :
  actionsFor ms g d v = actionsSpec (actionTable ms g d v).
Proof.
  unfold actionsFor, actionsSpec, actionTable, push. cbn [List.filter fst snd].
  destruct (0 <? ms)%nat, (0 <? g)%nat, (0 <? d)%nat, (0 <? v)%nat; reflexivity.
Qed.

(** X20: the recommended actions of a run on at least one record are
    read off four counts in a fixed order: "Missing Salary" for a missing
    salary, "EOI Volume" for an employee over the guaranteed-issue limit,
    "Duplicates" for a duplicate identifier, "Plan Limits" for an
    election over the plan maximum; each is listed exactly when its count
    is positive, and "General: Proceed to enrollment" stands alone when
    none is.  Missing dates of birth and the waiting period never add an
    action. *)
Theorem recommended_actions_table (Date_parse : string -> option Z)
    (clock : nat -> Z) (rows : list CensusRow) :
  rows ≠ [] ->
  recommendedActions (analyzeCensusData Date_parse clock rows)
  = actionsSpec
      (actionTable (countRows missingSalary rows) (countRows exceedsGI rows)
         (duplicatesSpec rows) (countRows volOverMax rows)).
Proof.
  destruct rows as [|row rows]; [contradiction|]. intros _.
  rewrite recommendedActions_analyze, actionsFor_spec.
  destruct (counters_counts Date_parse clock (row :: rows))
    as (Hms & _ & Hv & _ & _ & Hg & _).
  now rewrite Hms, Hv, Hg, countDuplicates_rows.
Qed.

Lemma recommended_actions_table_witness :
  recommendedActions
    (analyzeCensusData IsoHost.Date_parse (IsoHost.at_ Examples.jan20)
       Examples.fiveDrivers)
  = [ action "Missing Salary" "Employer clarification upfront";
      action "EOI Volume" "Pre-emptive EOI communication";
      action "Duplicates" "Deduplicate before enrollment";
      action "Plan Limits" "Cap voluntary elections at 5x" ].
Proof.
  rewrite (recommended_actions_table IsoHost.Date_parse
             (IsoHost.at_ Examples.jan20) Examples.fiveDrivers);
    [vm_compute; reflexivity | discriminate].
Defined.

(** ** Blank lines *)

Lemma split_app sep a b :
  JSString.split sep (a ++ String sep b)
  = (JSString.split sep a ++ JSString.split sep b)%list.
Proof.
  induction a as [|c a IH].
  - change ("" ++ String sep b) with (String sep b). cbn [JSString.split].
    now rewrite Ascii.eqb_refl.
  - change (String c a ++ String sep b) with (String c (a ++ String sep b)).
    cbn [JSString.split]. rewrite IH.
    destruct (Ascii.eqb c sep); [reflexivity|].
    pose proof (split_nonempty sep a) as Hne.
    destruct (JSString.split sep a); [contradiction|reflexivity].
Qed.

Lemma split_single sep s : hasChar sep s = false -> JSString.split sep s = [s].
Proof.
  induction s as [|c s IH]; [reflexivity|]. simpl.
  intros [Hc Hs]%orb_false_elim. rewrite Hc, (IH Hs). reflexivity.
Qed.

Lemma nonBlankLines_app a b :
  nonBlankLines (a ++ String LF b) = (nonBlankLines a ++ nonBlankLines b)%list.
Proof. unfold nonBlankLines. now rewrite split_app, List.filter_app. Qed.

Lemma nonBlankLines_blank w :
  hasChar LF w = false -> JSString.trim w = "" -> nonBlankLines w = [].
Proof.
  intros Hw Ht. unfold nonBlankLines. rewrite (split_single _ _ Hw).
  simpl. now rewrite Ht.
Qed.

Lemma parseCSV_same_lines a b :
  nonBlankLines a = nonBlankLines b -> parseCSV a = parseCSV b.
Proof. intros H. unfold parseCSV. now rewrite H. Qed.

(** X21: blank lines are skipped wherever they stand.  A line that
    holds nothing but white space can be put at the start of a text, at
    its end or between two of its lines, before the header as well as
    after it, and the records that [parseCSV] returns stay the same. *)
Theorem blank_lines_are_skipped (w : string) :
  hasChar LF w = false ->
  JSString.trim w = "" ->
  (forall a b, parseCSV (a ++ String LF (w ++ String LF b))
               = parseCSV (a ++ String LF b))
  /\ (forall b, parseCSV (w ++ String LF b) = parseCSV b)
  /\ (forall a, parseCSV (a ++ String LF w) = parseCSV a).
Proof.
  intros Hw Ht. pose proof (nonBlankLines_blank w Hw Ht) as Hb.
  repeat split; intros; apply parseCSV_same_lines;
    rewrite !nonBlankLines_app, Hb; simpl; now rewrite ?app_nil_r.
Qed.

Lemma blank_lines_are_skipped_witness :
  parseCSV ("Employee ID,Salary" ++ String LF ("  " ++ String LF "E1,100"))
  = parseCSV ("Employee ID,Salary" ++ String LF "E1,100").
Proof.
  apply (blank_lines_are_skipped "  "); reflexivity.
Defined.
